(** * PDF page-splitting subsystem: start endpoint, background job, page resolver

    A shallow embedding of the two routes of the book application that
    split a PDF into single-page artifacts and serve pages from them:

    - the job runner ([POST] of the processing route and
      [processPdfInBackground]), which writes [status.json] and
      [page-<n>.pdf] under [public/pdf-pages/<fileId>/], and the status
      endpoint ([GET] of that route), which returns the stored record;
    - the page resolver ([POST] of the page-extraction route), which serves
      a page or a page range from the artifacts or extracts it on demand,
      and the page-count endpoint ([GET] of that route).

    Effects are explicit: a handler is a function from a world (file system
    and clock) to a result, a new world and the list of events it emitted.
    The PDF library, the clock and disk faults are parameters.

    Conventions of the model:
    - members of a request body are absent or of the expected type, and
      page numbers are integers;
    - paths are POSIX paths; a file is addressed by the components of its
      normalized absolute path.  A slash at the end of a path is not
      recorded, while Node keeps it and then finds the path only if a
      directory is stored there: [ends_with_slash] tells such a path, and
      what is stated of the requests that are answered 404, or with a
      page count, is stated for the other paths;
    - the text of [status.json] is represented by the object it
      serializes, other files by their bytes, and an ISO date string by
      its instant;
    - a write to a path fails or not depending on the path alone (the
      directories above a file are not looked at when it is written),
      and a recursive [mkdir] fails when something that is not a
      directory is stored above the path;
    - [Array.prototype.sort] is stable, so it is a stable insertion sort;
    - a job ([run_job]) is the start request followed by the background
      call it makes, run to its end with no other request in between;
      the moments in between are the prefixes of its events, and the
      disk at such a moment is what these events make of the disk the
      job started from ([replay]). *)

From Stdlib Require Import ZArith List Ascii String Sorting.Sorted Sorting.Permutation.
From stdpp Require Import base tactics option list sorting gmap strings pretty.

Local Open Scope Z_scope.

#[local] Arguments String.append !_ _ / : simpl nomatch.

(* ===================================================================== *)
(** ** JavaScript string operations used by the handlers *)
(* ===================================================================== *)

Module JsString.

Definition slash : ascii := "/"%char.

(** [s.startsWith(p)] *)
Definition startsWith (s p : string) : bool := String.prefix p s.

(** [s.split('/')]: the pieces between slashes; never empty. *)
Fixpoint split_slash_aux (cur : string) (s : string) : list string :=
  match s with
  | EmptyString => [cur]
  | String c rest =>
      if Ascii.eqb c slash
      then cur :: split_slash_aux EmptyString rest
      else split_slash_aux (cur +:+ String c EmptyString) rest
  end.

Definition split_slash (s : string) : list string :=
  split_slash_aux EmptyString s.

(** [arr.pop() || ''] on a fresh array: its last element, or [''] . *)
Definition pop_or_empty (l : list string) : string :=
  List.last l EmptyString.

(** [s.replace(pat, '')] with a string pattern: the first occurrence of
    [pat] is removed, later ones stay. *)
Fixpoint remove_first (pat s : string) : string :=
  if String.prefix pat s
  then String.substring (String.length pat) (String.length s - String.length pat) s
  else match s with
       | EmptyString => EmptyString
       | String c rest => String c (remove_first pat rest)
       end.

(** [s.charCodeAt(i)] for an index inside the string. *)
Definition charAt (s : string) (i : Z) : ascii :=
  match String.get (Z.to_nat i) s with
  | Some c => c
  | None => Ascii.zero
  end.

(** [s.slice(start, end)] for [0 <= start], [0 <= end]. *)
Definition slice (s : string) (start end_ : Z) : string :=
  String.substring (Z.to_nat start) (Z.to_nat (end_ - start)) s.

End JsString.

(* ===================================================================== *)
(** ** Node's [path] module (POSIX flavour) *)
(* ===================================================================== *)

Module NodePath.
Import JsString.

(** Loop state of [path.basename(path, suffix)]. *)
Record bn_state := BnState {
  bn_start : Z;
  bn_end : Z;
  bn_matchedSlash : bool;
  bn_extIdx : Z;
  bn_firstNonSlashEnd : Z
}.

(** One iteration of the suffix-matching loop at index [i]; the boolean
    is [true] when the loop breaks. *)
Definition bn_step (path suffix : string) (i : Z) (st : bn_state)
  : bn_state * bool :=
  let code := charAt path i in
  if Ascii.eqb code slash then
    if negb (bn_matchedSlash st)
    then (BnState (i + 1) (bn_end st) (bn_matchedSlash st)
                  (bn_extIdx st) (bn_firstNonSlashEnd st), true)
    else (st, false)
  else
    let st1 :=
      if bn_firstNonSlashEnd st =? -1
      then BnState (bn_start st) (bn_end st) false (bn_extIdx st) (i + 1)
      else st in
    if 0 <=? bn_extIdx st1 then
      if Ascii.eqb code (charAt suffix (bn_extIdx st1)) then
        let ext' := bn_extIdx st1 - 1 in
        if ext' =? -1
        then (BnState (bn_start st1) i (bn_matchedSlash st1) ext'
                      (bn_firstNonSlashEnd st1), false)
        else (BnState (bn_start st1) (bn_end st1) (bn_matchedSlash st1) ext'
                      (bn_firstNonSlashEnd st1), false)
      else
        (BnState (bn_start st1) (bn_firstNonSlashEnd st1)
                 (bn_matchedSlash st1) (-1) (bn_firstNonSlashEnd st1), false)
    else (st1, false).

(** [for (let i = n - 1; i >= 0; --i)], [n] iterations left. *)
Fixpoint bn_loop (path suffix : string) (n : nat) (st : bn_state) : bn_state :=
  match n with
  | O => st
  | S i =>
      let '(st', brk) := bn_step path suffix (Z.of_nat i) st in
      if brk then st' else bn_loop path suffix i st'
  end.

(** The loop of the branch without a usable suffix: state is
    [(start, end, matchedSlash)]. *)
Fixpoint bn_plain_loop (path : string) (n : nat) (st : Z * Z * bool)
  : Z * Z * bool :=
  match n with
  | O => st
  | S i =>
      let '(start, end_, matched) := st in
      if Ascii.eqb (charAt path (Z.of_nat i)) slash then
        if negb matched then (Z.of_nat i + 1, end_, matched)
        else bn_plain_loop path i st
      else if end_ =? -1
           then bn_plain_loop path i (start, Z.of_nat i + 1, false)
           else bn_plain_loop path i st
  end.

(** [path.basename(path, suffix)] *)
Definition basename (path suffix : string) : string :=
  let plen := String.length path in
  let slen := String.length suffix in
  if (0 <? slen)%nat && (slen <=? plen)%nat then
    if String.eqb suffix path then EmptyString
    else
      let st := bn_loop path suffix plen
                  (BnState 0 (-1) true (Z.of_nat slen - 1) (-1)) in
      let end_ :=
        if bn_start st =? bn_end st then bn_firstNonSlashEnd st
        else if bn_end st =? -1 then Z.of_nat plen
        else bn_end st in
      slice path (bn_start st) end_
  else
    let '(start, end_, _) := bn_plain_loop path plen (0, -1, true) in
    if end_ =? -1 then EmptyString else slice path start end_.

(** A file-system location: the components of a normalized absolute
    path, root first. *)
Definition path := list string.

(** One component of [normalize]: empty and [.] components vanish,
    [..] removes the component before it (and is dropped at the root),
    anything else is kept.  The accumulator holds the components seen so
    far, last first. *)
Definition norm_step (acc : list string) (seg : string) : list string :=
  if String.eqb seg "" || String.eqb seg "." then acc
  else if String.eqb seg ".." then tail acc
  else seg :: acc.

Definition normalize (segs : list string) : path :=
  rev (fold_left norm_step segs []).

(** [path.join(base, s1, ..., sn)] for an absolute, normalized [base]:
    the arguments are joined with slashes and the result normalized.
    A slash at the end of the last argument, which Node keeps, is
    dropped with the empty component it makes. *)
Definition join (base : path) (args : list string) : path :=
  normalize (base ++ flat_map split_slash args).

End NodePath.

(* ===================================================================== *)
(** ** Document identifiers *)
(* ===================================================================== *)

(** Job runner: [path.basename(pdfPath, '.pdf')]. *)
Definition job_fileId (pdfPath : string) : string :=
  NodePath.basename pdfPath ".pdf".

(** Page resolver:
    [(pdfUrl.split('/').pop() || '').replace('.pdf', '')]. *)
Definition resolver_fileId (pdfUrl : string) : string :=
  let filename := JsString.pop_or_empty (JsString.split_slash pdfUrl) in
  JsString.remove_first ".pdf" filename.

(* ===================================================================== *)
(** ** The world: thrown values, files, events and the platform *)
(* ===================================================================== *)

(** A value thrown by JavaScript code: an [Error] object with its message,
    or any other value. *)
Inductive exn :=
| ErrorObj (message : string)
| NonError.

(** [error instanceof Error ? error.message : 'Unknown error'] *)
Definition error_message (e : exn) : string :=
  match e with
  | ErrorObj m => m
  | NonError => "Unknown error"
  end.

(** An instant, as the ISO string [toISOString()] prints it: an instant
    and its ISO string determine each other. *)
Definition Timestamp := Z.

Inductive JobState := processing | completed | failed.

(** The object stored in [status.json].  Optional members are those that
    some of the writes leave out. *)
Record JobStatus := mkJobStatus {
  status : JobState;
  totalPages : Z;
  processedPages : Z;
  startedAt : option Timestamp;
  updatedAt : option Timestamp;
  completedAt : option Timestamp;
  error : option string
}.

(** What a path holds: a directory, the text of a status object, or any
    other bytes. *)
Inductive file :=
| Dir
| StatusJson (r : JobStatus)
| Raw (bytes : string).

Inductive event :=
| EvMkdir (p : NodePath.path)
| EvWrite (p : NodePath.path) (f : file)
| EvExtract (pageIndex : Z).

Record World := mkWorld {
  fs : gmap NodePath.path file;
  ticks : nat
}.

(** The collaborators the handlers call: the process's working directory,
    the PDF library, base64 encoding, the wall clock (the instant returned
    by the k-th [new Date()]) and the paths whose writes fail. *)
Class Platform := {
  Doc : Type;
  cwd : NodePath.path;
  PDFDocument_load : string -> exn + Doc;
  getPageCount : Doc -> nat;
  (** [PDFDocument.create()], [copyPages(doc, [i])], [addPage], [save()] *)
  copySinglePage : Doc -> Z -> exn + string;
  base64 : string -> string;
  clock : nat -> Timestamp;
  write_fault : NodePath.path -> option exn
}.

(** State, exceptions and an event log. *)
Record Out (A : Type) := mkOut {
  res : exn + A;
  world : World;
  events : list event
}.
Arguments mkOut {A} _ _ _.
Arguments res {A} _.
Arguments world {A} _.
Arguments events {A} _.

Definition M (A : Type) := World -> Out A.

Definition ret {A} (a : A) : M A := fun w => mkOut (inr a) w [].
Definition throw {A} (e : exn) : M A := fun w => mkOut (inl e) w [].

Definition bind {A B} (m : M A) (k : A -> M B) : M B := fun w =>
  let o := m w in
  match res o with
  | inl e => mkOut (inl e) (world o) (events o)
  | inr a => let o' := k a (world o) in
             mkOut (res o') (world o') (events o ++ events o')
  end.

(** [try { m } catch (e) { h e }] *)
Definition try_catch {A} (m : M A) (h : exn -> M A) : M A := fun w =>
  let o := m w in
  match res o with
  | inl e => let o' := h e (world o) in
             mkOut (res o') (world o') (events o ++ events o')
  | inr a => o
  end.

Declare Scope js_scope.
Delimit Scope js_scope with js.
Notation "x <- m ;; k" := (bind m (fun x => k))
  (at level 100, m at next level, right associativity) : js_scope.
Notation "m ;;; k" := (bind m (fun _ => k))
  (at level 100, right associativity) : js_scope.
Local Open Scope js_scope.

Section Primitives.
Context {P : Platform}.

(** [fs.existsSync(p)] *)
Definition existsSync (p : NodePath.path) : M bool := fun w =>
  mkOut (inr (bool_decide (is_Some (fs w !! p)))) w [].

(** [fs.readFileSync(p)] *)
Definition readFileSync (p : NodePath.path) : M file := fun w =>
  match fs w !! p with
  | None => mkOut (inl (ErrorObj "ENOENT: no such file or directory")) w []
  | Some Dir => mkOut (inl (ErrorObj "EISDIR: illegal operation on a directory")) w []
  | Some f => mkOut (inr f) w []
  end.

(** [fs.writeFileSync(p, data)] *)
Definition writeFileSync (p : NodePath.path) (data : file) : M unit := fun w =>
  match write_fault p with
  | Some e => mkOut (inl e) w []
  | None =>
      match fs w !! p with
      | Some Dir => mkOut (inl (ErrorObj "EISDIR: illegal operation on a directory")) w []
      | _ => mkOut (inr tt) (mkWorld (<[p := data]> (fs w)) (ticks w)) [EvWrite p data]
      end
  end.

(** The directories a recursive [mkdir] of [p] makes sure of: the root,
    the directories above [p], and [p] itself. *)
Definition ancestors (p : NodePath.path) : list NodePath.path :=
  map (fun n => take n p) (seq 0 (S (length p))).

(** One of them holds something that is not a directory. *)
Definition blocked (m : gmap NodePath.path file) (p : NodePath.path) : bool :=
  existsb (fun q => match m !! q with
                    | Some Dir | None => false
                    | Some _ => true
                    end) (ancestors p).

(** The disk with those of them that are missing created. *)
Definition mkdir_p (m : gmap NodePath.path file) (p : NodePath.path)
  : gmap NodePath.path file :=
  fold_left (fun m' q => match m' !! q with
                         | None => <[q := Dir]> m'
                         | Some _ => m'
                         end) (ancestors p) m.

(** [fs.mkdirSync(p, { recursive: true })] *)
Definition mkdirSync (p : NodePath.path) : M unit := fun w =>
  match write_fault p with
  | Some e => mkOut (inl e) w []
  | None =>
      if blocked (fs w) p
      then mkOut (inl (ErrorObj "ENOTDIR: not a directory")) w []
      else mkOut (inr tt) (mkWorld (mkdir_p (fs w) p) (ticks w)) [EvMkdir p]
  end.

(** [new Date().toISOString()] *)
Definition now : M Timestamp := fun w =>
  mkOut (inr (clock (ticks w))) (mkWorld (fs w) (S (ticks w))) [].

(** [JSON.parse(text)] of a status file *)
Definition JSON_parse (f : file) : M JobStatus :=
  match f with
  | StatusJson r => ret r
  | _ => throw (ErrorObj "Unexpected token in JSON")
  end.

(** [JSON.parse(fs.readFileSync(p, 'utf-8'))] *)
Definition read_status (p : NodePath.path) : M JobStatus :=
  f <- readFileSync p ;; JSON_parse f.

(** [await PDFDocument.load(bytes)] *)
Definition load (f : file) : M Doc :=
  match f with
  | Raw bytes =>
      match PDFDocument_load bytes with
      | inl e => throw e
      | inr d => ret d
      end
  | _ => throw (ErrorObj "Failed to parse PDF document")
  end.

(** A new one-page document holding page [i] (0-based) of [doc], saved
    to bytes. *)
Definition extractSinglePage (doc : Doc) (i : Z) : M string := fun w =>
  match copySinglePage doc i with
  | inl e => mkOut (inl e) w [EvExtract i]
  | inr b => mkOut (inr b) w [EvExtract i]
  end.

(** [new Date(s).toISOString()] where [s] is a member read from JSON:
    a [RangeError] when the member is missing. *)
Definition reserialize_date (s : option Timestamp) : M Timestamp :=
  match s with
  | Some t => ret t
  | None => throw (ErrorObj "Invalid time value")
  end.

End Primitives.

(** What an event did to the disk. *)
Definition replay_event (m : gmap NodePath.path file) (ev : event)
  : gmap NodePath.path file :=
  match ev with
  | EvWrite p data => <[p := data]> m
  | EvMkdir p => mkdir_p m p
  | EvExtract _ => m
  end.

(** The disk [m] after the events [evs], in their order. *)
Definition replay (evs : list event) (m : gmap NodePath.path file)
  : gmap NodePath.path file :=
  fold_left replay_event evs m.

(* ===================================================================== *)
(** ** The processing route: start endpoint and background job *)
(* ===================================================================== *)

Module ProcessRoute.
Section Route.
Context {P : Platform}.

Inductive Response :=
| Started (fileId : string)          (* { success: true, fileId, message } *)
| Failure (code : Z) (msg : string). (* { error: msg }, { status: code } *)

(** The arguments of a [processPdfInBackground] call. *)
Record JobArgs := mkJobArgs {
  job_pdfPath : NodePath.path;
  job_pagesDir : NodePath.path;
  job_statusPath : NodePath.path
}.

Definition initial_status (t : Timestamp) : JobStatus :=
  mkJobStatus processing 0 0 (Some t) None None None.

(** [{ status: 'processing', totalPages, processedPages: 0, startedAt,
      updatedAt }] *)
Definition total_known_status (n : nat) (started t : Timestamp) : JobStatus :=
  mkJobStatus processing (Z.of_nat n) 0 (Some started) (Some t) None None.

(** [{ ...currentStatus, processedPages: pageNumber, updatedAt }] *)
Definition progress_status (r : JobStatus) (pageNumber : Z) (t : Timestamp) : JobStatus :=
  mkJobStatus (status r) (totalPages r) pageNumber (startedAt r) (Some t)
              (completedAt r) (error r).

(** [{ ...finalStatus, status: 'completed', completedAt, updatedAt }] *)
Definition completed_status (r : JobStatus) (t1 t2 : Timestamp) : JobStatus :=
  mkJobStatus completed (totalPages r) (processedPages r) (startedAt r)
              (Some t2) (Some t1) (error r).

(** [{ ...failedStatus, status: 'failed', error, updatedAt }] *)
Definition failed_status (r : JobStatus) (msg : string) (t : Timestamp) : JobStatus :=
  mkJobStatus failed (totalPages r) (processedPages r) (startedAt r)
              (Some t) (completedAt r) (Some msg).

Definition page_file_name (pageNumber : Z) : string :=
  "page-" +:+ pretty pageNumber +:+ ".pdf".

(** [path.join(pagesDir, 'status.json')] *)
Definition status_file (pagesDir : NodePath.path) : NodePath.path :=
  NodePath.join pagesDir ["status.json"].

(** The update written once the page count is known. *)
Definition setTotalPages (statusPath : NodePath.path) (n : nat) : M unit :=
  prior <- read_status statusPath ;;
  started <- reserialize_date (startedAt prior) ;;
  t <- now ;;
  writeFileSync statusPath (StatusJson (total_known_status n started t)).

(** The body of the [try] inside the per-page loop. *)
Definition process_page (doc : Doc) (pagesDir statusPath : NodePath.path)
    (i : nat) : M unit :=
  let pageNumber := Z.of_nat i + 1 in
  pageBytes <- extractSinglePage doc (Z.of_nat i) ;;
  let pagePath := NodePath.join pagesDir [page_file_name pageNumber] in
  writeFileSync pagePath (Raw pageBytes) ;;;
  currentStatus <- read_status statusPath ;;
  t <- now ;;
  writeFileSync statusPath (StatusJson (progress_status currentStatus pageNumber t)).

(** [for (let i = ...; i < totalPages; i++) { try { ... } catch { log } }]
    with [n] iterations left. *)
Fixpoint page_loop (doc : Doc) (pagesDir statusPath : NodePath.path)
    (i : nat) (n : nat) : M unit :=
  match n with
  | O => ret tt
  | S n' =>
      try_catch (process_page doc pagesDir statusPath i) (fun _ => ret tt) ;;;
      page_loop doc pagesDir statusPath (S i) n'
  end.

Definition markCompleted (statusPath : NodePath.path) : M unit :=
  finalStatus <- read_status statusPath ;;
  t1 <- now ;;
  t2 <- now ;;
  writeFileSync statusPath (StatusJson (completed_status finalStatus t1 t2)).

Definition markFailed (statusPath : NodePath.path) (e : exn) : M unit :=
  try_catch
    (failedStatus <- read_status statusPath ;;
     t <- now ;;
     writeFileSync statusPath
       (StatusJson (failed_status failedStatus (error_message e) t)))
    (fun _ => ret tt).

Definition processPdfInBackground (a : JobArgs) : M unit :=
  try_catch
    (pdfBytes <- readFileSync (job_pdfPath a) ;;
     pdfDoc <- load pdfBytes ;;
     let totalPages := getPageCount pdfDoc in
     setTotalPages (job_statusPath a) totalPages ;;;
     page_loop pdfDoc (job_pagesDir a) (job_statusPath a) 0 totalPages ;;;
     markCompleted (job_statusPath a))
    (fun e => markFailed (job_statusPath a) e).

(** The start endpoint, up to the call of [processPdfInBackground] that
    ends it: besides the response it yields that call.  The call is not
    awaited: the job runs to its first [await] before the handler
    returns and goes on afterwards, so the world [POST] ends in is the
    one the job starts in, and [run_job] below is the handler together
    with the whole job. *)
Definition POST (pdfPath : option string) : M (Response * option JobArgs) :=
  try_catch
    (match pdfPath with
     | None | Some "" => ret (Failure 400 "Missing pdfPath", None)
     | Some pdfPath =>
         let fullPath := NodePath.join cwd ["public"; pdfPath] in
         found <- existsSync fullPath ;;
         if negb found then ret (Failure 404 "PDF file not found", None)
         else
           let fileId := job_fileId pdfPath in
           let pagesDir := NodePath.join cwd ["public"; "pdf-pages"; fileId] in
           dirThere <- existsSync pagesDir ;;
           (if negb dirThere then mkdirSync pagesDir else ret tt) ;;;
           let statusPath := status_file pagesDir in
           t <- now ;;
           writeFileSync statusPath (StatusJson (initial_status t)) ;;;
           ret (Started fileId, Some (mkJobArgs fullPath pagesDir statusPath))
     end)
    (fun _ => ret (Failure 500 "Failed to start PDF processing", None)).

(** One uninterrupted job: the start request followed by the background
    call it made, run to its end. *)
Definition run_job (pdfPath : option string) : M Response :=
  r <- POST pdfPath ;;
  match snd r with
  | Some a => processPdfInBackground a ;;; ret (fst r)
  | None => ret (fst r)
  end.

Inductive StatusResponse :=
| StatusBody (r : JobStatus)                (* the stored record, verbatim *)
| NotFound                                  (* { status: 'not_found', message } *)
| StatusFailure (code : Z) (msg : string).

(** The status endpoint. *)
Definition GET (fileId : option string) : M StatusResponse :=
  try_catch
    (match fileId with
     | None | Some "" => ret (StatusFailure 400 "Missing fileId parameter")
     | Some fileId =>
         let statusPath :=
           NodePath.join cwd ["public"; "pdf-pages"; fileId; "status.json"] in
         found <- existsSync statusPath ;;
         if negb found then ret NotFound
         else r <- read_status statusPath ;; ret (StatusBody r)
     end)
    (fun _ => ret (StatusFailure 500 "Failed to check processing status")).

End Route.
End ProcessRoute.

(* ===================================================================== *)
(** ** The page route: single pages and page ranges *)
(* ===================================================================== *)

Module PageRoute.

(** The request body; [None] is a member that is [undefined]. *)
Record Request := mkRequest {
  pdfUrl : option string;
  pageNumber : option Z;
  fromPage : option Z;
  toPage : option Z
}.

(** An element of the [pages] array of a range response. *)
Record PageEntry := mkPageEntry {
  entry_pageNumber : Z;
  entry_url : string;
  entry_isPreProcessed : bool
}.

Inductive Response :=
| External (url : option string)            (* { url, isExternal: true } *)
| Failure (code : Z) (msg : string)         (* { error: msg }, { status: code } *)
| Range (pages : list PageEntry) (total : Z) (from to : Z)
| PreProcessed (url : string) (page : Z)    (* { url, isPreProcessed: true, pageNumber } *)
| PdfBytes (bytes : string).                (* the page, as application/pdf *)

(** [pages.sort((a, b) => a.pageNumber - b.pageNumber)]: the sort is
    stable, so its result is that of a stable insertion sort. *)
Definition compare_pages (a b : PageEntry) : Z :=
  entry_pageNumber a - entry_pageNumber b.

Fixpoint sort_insert (x : PageEntry) (l : list PageEntry) : list PageEntry :=
  match l with
  | [] => [x]
  | y :: l' =>
      if compare_pages x y <=? 0 then x :: y :: l'
      else y :: sort_insert x l'
  end.

Fixpoint sort_pages (l : list PageEntry) : list PageEntry :=
  match l with
  | [] => []
  | x :: l' => sort_insert x (sort_pages l')
  end.

Section Route.
Context {P : Platform}.

(** [`/pdf-pages/${fileId}/page-${page}.pdf`] *)
Definition preProcessedPageUrl (fileId : string) (page : Z) : string :=
  "/pdf-pages/" +:+ fileId +:+ "/page-" +:+ pretty page +:+ ".pdf".

Definition preProcessedPath (fileId : string) (page : Z) : NodePath.path :=
  NodePath.join cwd ["public"; preProcessedPageUrl fileId page].

(** [`data:application/pdf;base64,${base64}`] *)
Definition data_url (pageBytes : string) : string :=
  "data:application/pdf;base64," +:+ base64 pageBytes.

(** [for (let page = ...; page <= toPage; page++)], [n] iterations
    left: pages with an artifact are pushed to [pages], the others to
    [pagesToExtract]. *)
Fixpoint scan_range (fileId : string) (page : Z) (n : nat)
    (pages : list PageEntry) (pagesToExtract : list Z)
  : M (list PageEntry * list Z) :=
  match n with
  | O => ret (pages, pagesToExtract)
  | S n' =>
      found <- existsSync (preProcessedPath fileId page) ;;
      if found
      then scan_range fileId (page + 1) n'
             (pages ++ [mkPageEntry page (preProcessedPageUrl fileId page) true])
             pagesToExtract
      else scan_range fileId (page + 1) n' pages (pagesToExtract ++ [page])
  end.

(** [for (const pageNum of pagesToExtract)] *)
Fixpoint extract_missing (doc : Doc) (pagesToExtract : list Z)
    (pages : list PageEntry) : M (list PageEntry) :=
  match pagesToExtract with
  | [] => ret pages
  | pageNum :: rest =>
      pageBytes <- extractSinglePage doc (pageNum - 1) ;;
      extract_missing doc rest
        (pages ++ [mkPageEntry pageNum (data_url pageBytes) false])
  end.

Definition range_request (url : string) (doc : Doc) (total : Z)
    (fromPage toPage : Z) : M Response :=
  if (fromPage <? 1) || (toPage <? 1) || (fromPage >? total)
     || (toPage >? total) || (fromPage >? toPage)
  then ret (Failure 400 "Invalid page range")
  else
    let fileId := resolver_fileId url in
    scanned <- scan_range fileId fromPage (Z.to_nat (toPage - fromPage + 1)) [] [] ;;
    pages <- extract_missing doc (snd scanned) (fst scanned) ;;
    ret (Range (sort_pages pages) total fromPage toPage).

Definition single_request (url : string) (doc : Doc) (total : Z)
    (pageNumber : option Z) : M Response :=
  match pageNumber with
  | None => ret (Failure 400 "Missing pageNumber or page range")
  | Some pageNumber =>
      if (pageNumber <? 1) || (pageNumber >? total)
      then ret (Failure 400 "Invalid page number")
      else
        let fileId := resolver_fileId url in
        found <- existsSync (preProcessedPath fileId pageNumber) ;;
        if found
        then ret (PreProcessed (preProcessedPageUrl fileId pageNumber) pageNumber)
        else
          singlePageBytes <- extractSinglePage doc (pageNumber - 1) ;;
          ret (PdfBytes singlePageBytes)
  end.

Definition is_local (pdfUrl : option string) : option string :=
  match pdfUrl with
  | Some url =>
      if negb (String.eqb url "") && JsString.startsWith url "/pdf/"
      then Some url else None
  | None => None
  end.

(** What the handler does once the document is loaded: the range
    branch when both bounds are supplied, the single-page path
    otherwise. *)
Definition dispatch (req : Request) (url : string) (doc : Doc) : M Response :=
  let total := Z.of_nat (getPageCount doc) in
  match fromPage req, toPage req with
  | Some f, Some t => range_request url doc total f t
  | _, _ => single_request url doc total (pageNumber req)
  end.

Definition POST (req : Request) : M Response :=
  try_catch
    (match is_local (pdfUrl req) with
     | None => ret (External (pdfUrl req))
     | Some url =>
         let pdfPath := NodePath.join cwd ["public"; url] in
         found <- existsSync pdfPath ;;
         if negb found then ret (Failure 404 "PDF file not found")
         else
           pdfBytes <- readFileSync pdfPath ;;
           pdfDoc <- load pdfBytes ;;
           dispatch req url pdfDoc
     end)
    (fun _ => ret (Failure 500 "Failed to extract page")).

Inductive InfoResponse :=
| Info (total : Z)                         (* { totalPages, isExternal: false } *)
| InfoExternal (url : string)              (* { totalPages: null, isExternal: true, url } *)
| InfoFailure (code : Z) (msg : string).   (* { error: msg }, { status: code } *)

(** The endpoint that reports the number of pages of a document. *)
Definition GET (pdfUrl : option string) : M InfoResponse :=
  try_catch
    (match pdfUrl with
     | None | Some "" => ret (InfoFailure 400 "Missing pdfUrl parameter")
     | Some url =>
         if negb (JsString.startsWith url "/pdf/") then ret (InfoExternal url)
         else
           let pdfPath := NodePath.join cwd ["public"; url] in
           found <- existsSync pdfPath ;;
           if negb found then ret (InfoFailure 404 "PDF file not found")
           else
             pdfBytes <- readFileSync pdfPath ;;
             pdfDoc <- load pdfBytes ;;
             ret (Info (Z.of_nat (getPageCount pdfDoc)))
     end)
    (fun _ => ret (InfoFailure 500 "Failed to get PDF info")).

End Route.
End PageRoute.

(* ===================================================================== *)
(** ** A small concrete platform, for running the handlers *)
(* ===================================================================== *)

Module Toy.

(** A document is its list of pages; a page that cannot be copied is
    [None].  In the bytes of a file every character is a page, [x] is a
    page that cannot be copied, and a file starting with [!] does not
    parse. *)
Fixpoint pages_of (bytes : string) : list (option string) :=
  match bytes with
  | EmptyString => []
  | String c rest =>
      (if Ascii.eqb c "x"%char then None else Some (String c EmptyString))
        :: pages_of rest
  end.

Definition toy_load (bytes : string) : exn + list (option string) :=
  if String.prefix "!" bytes
  then inl (ErrorObj "Failed to parse PDF document")
  else inr (pages_of bytes).

Definition toy_copy (doc : list (option string)) (i : Z) : exn + string :=
  if i <? 0 then inl (ErrorObj "index out of range")
  else match nth_error doc (Z.to_nat i) with
       | Some (Some page) => inr page
       | Some None => inl (ErrorObj "Expected instance of PDFDict")
       | None => inl (ErrorObj "index out of range")
       end.

(** Writes below [/srv/app/public/pdf-pages/full] fail. *)
Definition toy_fault (p : NodePath.path) : option exn :=
  match p with
  | ["srv"; "app"; "public"; "pdf-pages"; "full"; _ ] =>
      Some (ErrorObj "ENOSPC: no space left on device")
  | _ => None
  end.

Definition platform : Platform := {|
  Doc := list (option string);
  cwd := ["srv"; "app"];
  PDFDocument_load := toy_load;
  getPageCount := fun d => List.length d;
  copySinglePage := toy_copy;
  base64 := fun s => s;
  clock := fun k => 1000 + Z.of_nat k;
  write_fault := toy_fault
|}.

Definition pub (rest : list string) : NodePath.path :=
  ["srv"; "app"; "public"] ++ rest.

(** Six documents: three good ones (the artifacts of [full.pdf] cannot
    be written), one whose second page cannot be copied, one whose first
    page cannot be copied, and one that does not parse. *)
Definition disk : gmap NodePath.path file :=
  <[pub ["pdf"; "book.pdf"] := Raw "abc"]>
  (<[pub ["pdf"; "notes.pdf.v2.pdf"] := Raw "abc"]>
  (<[pub ["pdf"; "full.pdf"] := Raw "ab"]>
  (<[pub ["pdf"; "torn.pdf"] := Raw "ax"]>
  (<[pub ["pdf"; "skip.pdf"] := Raw "xb"]>
  (<[pub ["pdf"; "corrupt.pdf"] := Raw "!"]> ∅))))).

Definition w0 : World := mkWorld disk 0.

(** The record a start request writes at the first tick of the clock. *)
Definition fresh_status : JobStatus :=
  mkJobStatus processing 0 0 (Some 1000) None None None.

(** The disk with the artifact of page 1 of [book.pdf]. *)
Definition w_split : World :=
  mkWorld (<[pub ["pdf-pages"; "book"; "page-1.pdf"] := Raw "a"]> disk) 0.

(** The world in which a start request for [/pdf/<name>.pdf] calls the
    background job. *)
Definition w_started (name : string) : World :=
  mkWorld
    (<[pub ["pdf-pages"; name; "status.json"] := StatusJson fresh_status]>
       (mkdir_p disk (pub ["pdf-pages"; name])))
    1.

(** A status record of a job that has recorded two pages. *)
Definition two_done : JobStatus :=
  mkJobStatus processing 3 2 (Some 1000) (Some 1005) None None.

Definition w_two_done : World :=
  mkWorld (<[pub ["pdf-pages"; "book"; "status.json"] := StatusJson two_done]> disk) 7.

(** A page request against [w_split]. *)
Definition fetch (req : PageRoute.Request) : Out PageRoute.Response :=
  PageRoute.POST (P := platform) req w_split.

Definition book_request (page from to : option Z) : PageRoute.Request :=
  PageRoute.mkRequest (Some "/pdf/book.pdf") page from to.

(** The background job for [/pdf/<name>.pdf], run in the world in which
    its start request calls it. *)
Definition pages_dir (name : string) : NodePath.path := pub ["pdf-pages"; name].

Definition status_of (name : string) : NodePath.path :=
  ProcessRoute.status_file (pages_dir name).

Definition background_in (w : World) (name : string) : Out unit :=
  ProcessRoute.processPdfInBackground (P := platform)
    (ProcessRoute.mkJobArgs (pub ["pdf"; name +:+ ".pdf"]) (pages_dir name)
                            (status_of name))
    w.

Definition background (name : string) : Out unit :=
  background_in (w_started name) name.

(** The world after a start request for [/pdf/book.pdf], with a directory
    where the artifact of page 2 belongs. *)
Definition w_blocked : World :=
  mkWorld (<[pub ["pdf-pages"; "book"; "page-2.pdf"] := Dir]> (fs (w_started "book"))) 1.

(** The disk with a four-page document beside [public], not below it. *)
Definition w_outside : World :=
  mkWorld (<[["srv"; "app"; "ledger.pdf"] := Raw "abcd"]> disk) 0.

(** The disk with the artifact of page 2 of [torn.pdf], a page that
    cannot be copied. *)
Definition w_mended : World :=
  mkWorld (<[pub ["pdf-pages"; "torn"; "page-2.pdf"] := Raw "z"]> disk) 0.

(** The events of the job of [torn.pdf] up to the artifact of page 1,
    before the progress record of that page. *)
Definition torn_so_far : list event :=
  [EvMkdir (pages_dir "torn");
   EvWrite (status_of "torn") (StatusJson fresh_status);
   EvWrite (status_of "torn")
           (StatusJson (mkJobStatus processing 2 0 (Some 1000) (Some 1001) None None));
   EvExtract 0;
   EvWrite (pub ["pdf-pages"; "torn"; "page-1.pdf"]) (Raw "a")].

(** The events that follow. *)
Definition torn_to_come : list event :=
  [EvWrite (status_of "torn")
           (StatusJson (mkJobStatus processing 2 1 (Some 1000) (Some 1002) None None));
   EvExtract 1;
   EvWrite (status_of "torn")
           (StatusJson (mkJobStatus completed 2 1 (Some 1000) (Some 1004) (Some 1003) None))].

(** The world in between. *)
Definition w_midway : World := mkWorld (replay torn_so_far disk) 2.

End Toy.

Definition status_writes (evs : list event) : list JobStatus :=
  flat_map (fun ev => match ev with
                      | EvWrite _ (StatusJson r) => [r]
                      | _ => []
                      end) evs.

Definition extractions (evs : list event) : list Z :=
  flat_map (fun ev => match ev with
                      | EvExtract i => [i]
                      | _ => []
                      end) evs.

(** The number of the last page whose extraction was attempted (0 when
    none was). *)
Definition last_attempted_page (evs : list event) : Z :=
  List.last (extractions evs) (-1) + 1.

(* ===================================================================== *)
(** ** Vocabulary of the properties *)
(* ===================================================================== *)

Fixpoint has_slash (s : string) : bool :=
  match s with
  | EmptyString => false
  | String c rest => Ascii.eqb c JsString.slash || has_slash rest
  end.

(** [s] ends with a slash: a path that Node's [existsSync] finds only
    if a directory is stored there. *)
Fixpoint ends_with_slash (s : string) : bool :=
  match s with
  | EmptyString => false
  | String c EmptyString => Ascii.eqb c JsString.slash
  | String _ rest => ends_with_slash rest
  end.

(** A component that [normalize] keeps. *)
Definition regular (seg : string) : Prop :=
  seg <> "" /\ seg <> "." /\ seg <> "..".

(** The path [<pre>/<stem>.pdf]. *)
Definition pdf_path (pre stem : string) : string :=
  pre +:+ String JsString.slash (stem +:+ ".pdf").

(** [pat] occurs in [s]. *)
Fixpoint occurs (pat s : string) : bool :=
  String.prefix pat s ||
  match s with
  | EmptyString => false
  | String _ rest => occurs pat rest
  end.

Definition is_dir (m : gmap NodePath.path file) (p : NodePath.path) : bool :=
  match m !! p with
  | Some Dir => true
  | _ => false
  end.

(** [r] with its progress members replaced. *)
Definition with_progress (r : JobStatus) (p : Z) (u : option Timestamp) : JobStatus :=
  mkJobStatus (status r) (totalPages r) p (startedAt r) u (completedAt r) (error r).

(** [runs m w r w' evs]: from world [w], [m] ends with result [r] in
    world [w'], having emitted [evs]. *)
Definition runs {A} (m : M A) (w : World) (r : exn + A) (w' : World)
    (evs : list event) : Prop :=
  m w = mkOut r w' evs.

Section JobVocabulary.
Import NodePath ProcessRoute.
Context {P : Platform}.
Variables (doc : Doc) (pagesDir : path).

Definition page_path (i : nat) : path :=
  join pagesDir [page_file_name (Z.of_nat i + 1)].

(** A write to [p] goes through. *)
Definition writable (m : gmap path file) (p : path) : bool :=
  match write_fault p with
  | Some _ => false
  | None => negb (is_dir m p)
  end.

(** Page [i] (0-based) is copied and its artifact written. *)
Definition page_ok (m : gmap path file) (i : nat) : bool :=
  match copySinglePage doc (Z.of_nat i) with
  | inr _ => writable m (page_path i)
  | inl _ => false
  end.

(** The page numbers among [i+1 .. i+n] whose artifact gets written. *)
Definition ok_pages (m : gmap path file) (i n : nat) : list Z :=
  map (fun k => Z.of_nat k + 1) (List.filter (page_ok m) (seq i n)).

Definition same_dirs (m m0 : gmap path file) : Prop :=
  forall p, is_dir m p = is_dir m0 p.

(** The outcome of the two statements that load the source document. *)
Definition source_doc (pdfPath : path) (w : World) : exn + Doc :=
  res ((pdfBytes <- readFileSync pdfPath ;; load pdfBytes)%js w).

(** The files of a job: its status file and the artifacts in its pages
    directory. *)
Definition job_files (statusPath : path) (q : path) : Prop :=
  q = statusPath \/ exists k, q = join pagesDir [page_file_name k].

End JobVocabulary.

(** The invariant of a stored status record. *)
Definition status_inv (r : JobStatus) : Prop :=
  processedPages r <= totalPages r /\
  (is_Some (completedAt r) <-> status r = completed) /\
  (is_Some (error r) <-> status r = failed).

(** The shapes the status writes of one job can take: none (the request
    was refused), an initial record followed by a [failed] one, or an
    initial record, the record with the page count, one progress record
    for each of the increasing page numbers [ps], and a [completed] one. *)
Inductive job_writes : list JobStatus -> Prop :=
| writes_none : job_writes []
| writes_failed t msg t' :
    job_writes [ProcessRoute.initial_status t;
                ProcessRoute.failed_status (ProcessRoute.initial_status t) msg t']
| writes_completed t n t1 mid ps u tc tu :
    let rk := ProcessRoute.total_known_status n t t1 in
    Forall2 (fun rec p => exists t', rec = ProcessRoute.progress_status rk p t') mid ps ->
    StronglySorted Z.lt ps ->
    Forall (fun p => 1 <= p <= Z.of_nat n) ps ->
    job_writes (ProcessRoute.initial_status t :: rk :: mid ++
                [ProcessRoute.completed_status
                   (with_progress rk (List.last ps 0) u) tc tu]).

(** Closes the goals about the presence of an optional member and about
    page counters that a concrete status record leaves. *)
Ltac solve_member :=
  first [ lia
        | done
        | by eexists
        | by intros [? [=]]
        | by intros; eexists
        | idtac ].

Definition is_write (ev : event) : bool :=
  match ev with
  | EvExtract _ => false
  | _ => true
  end.

(** [m] leaves the world as it found it and emits extractions only. *)
Definition quiet {A} (m : M A) : Prop :=
  forall w, world (m w) = w /\ Forall (fun ev => is_write ev = false) (events (m w)).

(** [m] changes no file outside [S]. *)
Definition touches_only {A} (S : NodePath.path -> Prop) (m : M A) : Prop :=
  forall w q, ~ S q -> fs (world (m w)) !! q = fs w !! q.

(** An event of the job whose status file is [sp]: a status record is
    written to [sp], and nothing else is. *)
Definition job_event (sp : NodePath.path) (ev : event) : Prop :=
  match ev with
  | EvWrite p (StatusJson _) => p = sp
  | EvWrite p _ => p <> sp
  | _ => True
  end.

(** [m] emits an event with every change it makes to the disk, and its
    events are those of the job of [sp]. *)
Definition journaled {A} (sp : NodePath.path) (m : M A) : Prop :=
  forall w, fs (world (m w)) = replay (events (m w)) (fs w) /\
            Forall (job_event sp) (events (m w)).

Definition http_status (r : PageRoute.Response) : Z :=
  match r with
  | PageRoute.Failure code _ => code
  | _ => 200
  end.

(** The pages [page, page + 1, ...] the range loop visits in [n] rounds. *)
Fixpoint zrange (page : Z) (n : nat) : list Z :=
  match n with
  | O => []
  | S n' => page :: zrange (page + 1) n'
  end.

Definition key_le (a b : PageRoute.PageEntry) : Prop :=
  PageRoute.entry_pageNumber a <= PageRoute.entry_pageNumber b.

Section RangeVocabulary.
Import NodePath PageRoute.
Context {P : Platform}.
Variables (doc : Doc) (fileId : string) (w : World).

(** Page [p] has a pre-split artifact. *)
Definition cached (p : Z) : bool :=
  bool_decide (is_Some (fs w !! preProcessedPath fileId p)).

Definition cached_entry (p : Z) : PageEntry :=
  mkPageEntry p (preProcessedPageUrl fileId p) true.

Definition extracted_entry (p : Z) : PageEntry :=
  mkPageEntry p
    (data_url match copySinglePage doc (p - 1) with
              | inr pageBytes => pageBytes
              | inl _ => ""
              end)
    false.

(** The entry a range response holds for page [p]. *)
Definition expected_entry (p : Z) : PageEntry :=
  if cached p then cached_entry p else extracted_entry p.

End RangeVocabulary.

(* ===================================================================== *)
(** ** Strings and paths *)
(* ===================================================================== *)

Section PathFacts.
Import JsString NodePath.

Lemma has_slash_app s1 s2 :
  has_slash (s1 +:+ s2) = has_slash s1 || has_slash s2.
Proof.
  induction s1 as [|c s1 IH]; simpl; [done|].
  rewrite IH. by rewrite orb_assoc.
Qed.

Lemma append_assoc s1 s2 s3 : (s1 +:+ s2) +:+ s3 = s1 +:+ (s2 +:+ s3).
Proof. induction s1 as [|c s1 IH]; simpl; [done|]. by rewrite IH. Qed.

Lemma append_nil_r s : s +:+ "" = s.
Proof. induction s as [|c s IH]; simpl; [done|]. by rewrite IH. Qed.

Lemma split_slash_aux_no_slash s cur :
  has_slash s = false -> split_slash_aux cur s = [cur +:+ s].
Proof.
  revert cur. induction s as [|c s IH]; intros cur Hs; simpl in *.
  - by rewrite append_nil_r.
  - apply orb_false_iff in Hs as [Hc Hs]. rewrite Hc.
    rewrite IH by done. by rewrite append_assoc.
Qed.

Lemma split_slash_no_slash s : has_slash s = false -> split_slash s = [s].
Proof. intros Hs. unfold split_slash. by rewrite split_slash_aux_no_slash. Qed.

Lemma pretty_N_char_no_slash x : Ascii.eqb (pretty_N_char x) slash = false.
Proof. unfold pretty_N_char. repeat case_match; reflexivity. Qed.

Lemma pretty_N_go_no_slash x s :
  has_slash s = false -> has_slash (pretty_N_go x s) = false.
Proof.
  revert s. induction (N.lt_wf_0 x) as [x _ IH]; intros s Hs.
  destruct (decide (0 < x)%N) as [Hx|Hx].
  - rewrite pretty_N_go_step by done. apply IH.
    + apply N.div_lt; lia.
    + simpl. by rewrite pretty_N_char_no_slash.
  - assert (x = 0%N) as -> by lia. by rewrite pretty_N_go_0.
Qed.

Lemma pretty_N_no_slash (x : N) : has_slash (pretty x) = false.
Proof.
  unfold pretty, pretty_N. case_decide; [done|].
  by apply pretty_N_go_no_slash.
Qed.

Lemma pretty_Z_no_slash (z : Z) : has_slash (pretty z) = false.
Proof.
  unfold pretty, pretty_Z. destruct z; [done| |].
  - apply pretty_N_no_slash.
  - rewrite has_slash_app. simpl. apply pretty_N_no_slash.
Qed.

Lemma norm_step_regular acc seg : regular seg -> norm_step acc seg = seg :: acc.
Proof.
  intros (H1 & H2 & H3). unfold norm_step.
  apply String.eqb_neq in H1, H2, H3. by rewrite H1, H2, H3.
Qed.

Lemma normalize_snoc segs seg :
  regular seg -> normalize (segs ++ [seg]) = (normalize segs ++ [seg])%list.
Proof.
  intros Hr. unfold normalize. rewrite fold_left_app. simpl.
  by rewrite norm_step_regular.
Qed.

Lemma join_regular base seg :
  has_slash seg = false -> regular seg ->
  join base [seg] = (normalize base ++ [seg])%list.
Proof.
  intros Hs Hr. unfold join. simpl. rewrite split_slash_no_slash by done.
  rewrite app_nil_r. by apply normalize_snoc.
Qed.

End PathFacts.

Section PageNames.
Import NodePath ProcessRoute.

Lemma page_file_name_no_slash p : has_slash (page_file_name p) = false.
Proof.
  unfold page_file_name. rewrite !has_slash_app, pretty_Z_no_slash. done.
Qed.

Lemma page_file_name_regular p : regular (page_file_name p).
Proof. unfold page_file_name. repeat split; simpl; discriminate. Qed.

Lemma status_name_regular : regular "status.json".
Proof. repeat split; discriminate. Qed.

(** No page artifact is written over the status file. *)
Lemma page_path_not_status pagesDir p :
  join pagesDir [page_file_name p] <> status_file pagesDir.
Proof.
  unfold status_file.
  rewrite (join_regular _ (page_file_name p))
    by auto using page_file_name_no_slash, page_file_name_regular.
  rewrite (join_regular _ "status.json") by auto using status_name_regular.
  intros Heq. apply app_inj_tail in Heq as [_ Heq].
  unfold page_file_name in Heq. simpl in Heq. discriminate.
Qed.

End PageNames.

(* ===================================================================== *)
(** ** The per-page loop *)
(* ===================================================================== *)

Lemma with_progress_id r : with_progress r (processedPages r) (updatedAt r) = r.
Proof. by destruct r. Qed.

Section Runs.
Context {P : Platform}.

Lemma runs_eta {A} (m : M A) w : runs m w (res (m w)) (world (m w)) (events (m w)).
Proof. unfold runs. by destruct (m w). Qed.

Lemma runs_ret {A} (a : A) w : runs (ret a) w (inr a) w [].
Proof. done. Qed.

Lemma runs_throw {A} e w : runs (@throw A e) w (inl e) w [].
Proof. done. Qed.

Lemma runs_bind {A B} (m : M A) (k : A -> M B) w a w1 e1 r w2 e2 :
  runs m w (inr a) w1 e1 -> runs (k a) w1 r w2 e2 ->
  runs (bind m k) w r w2 (e1 ++ e2).
Proof. unfold runs, bind. intros -> . simpl. by intros ->. Qed.

Lemma runs_bind_throw {A B} (m : M A) (k : A -> M B) w e w1 e1 :
  runs m w (inl e) w1 e1 -> runs (bind m k) w (inl e) w1 e1.
Proof. unfold runs, bind. by intros ->. Qed.

Lemma runs_try {A} (m : M A) h w a w1 e1 :
  runs m w (inr a) w1 e1 -> runs (try_catch m h) w (inr a) w1 e1.
Proof. unfold runs, try_catch. by intros ->. Qed.

Lemma runs_catch {A} (m : M A) h w e w1 e1 r w2 e2 :
  runs m w (inl e) w1 e1 -> runs (h e) w1 r w2 e2 ->
  runs (try_catch m h) w r w2 (e1 ++ e2).
Proof. unfold runs, try_catch. intros ->. simpl. by intros ->. Qed.

Lemma runs_existsSync p w :
  runs (existsSync p) w (inr (bool_decide (is_Some (fs w !! p)))) w [].
Proof. done. Qed.

Lemma runs_readFileSync p w f :
  fs w !! p = Some f -> f <> Dir -> runs (readFileSync p) w (inr f) w [].
Proof. unfold runs, readFileSync. intros -> Hf. by destruct f. Qed.

Lemma runs_read_status p w r :
  fs w !! p = Some (StatusJson r) -> runs (read_status p) w (inr r) w [].
Proof.
  intros Hp. unfold read_status.
  eapply (runs_bind _ _ _ _ _ [] _ _ []); [by apply runs_readFileSync|done].
Qed.

Lemma runs_now w :
  runs now w (inr (clock (ticks w))) (mkWorld (fs w) (S (ticks w))) [].
Proof. done. Qed.

Lemma runs_writeFileSync p data w :
  write_fault p = None -> is_dir (fs w) p = false ->
  runs (writeFileSync p data) w (inr tt)
       (mkWorld (<[p := data]> (fs w)) (ticks w)) [EvWrite p data].
Proof.
  unfold runs, writeFileSync, is_dir. intros -> Hd.
  by destruct (fs w !! p) as [[]|].
Qed.

Lemma runs_writeFileSync_fail p data w :
  (write_fault p <> None \/ is_dir (fs w) p = true) ->
  exists e, runs (writeFileSync p data) w (inl e) w [].
Proof.
  unfold runs, writeFileSync, is_dir. intros Hw.
  destruct (write_fault p) as [e|]; [by eexists|].
  destruct Hw as [|Hw]; [done|].
  destruct (fs w !! p) as [[]|]; try done. by eexists.
Qed.

Lemma runs_extract_ok doc i b w :
  copySinglePage doc i = inr b ->
  runs (extractSinglePage doc i) w (inr b) w [EvExtract i].
Proof. unfold runs, extractSinglePage. by intros ->. Qed.

Lemma runs_extract_fail doc i e w :
  copySinglePage doc i = inl e ->
  runs (extractSinglePage doc i) w (inl e) w [EvExtract i].
Proof. unfold runs, extractSinglePage. by intros ->. Qed.

End Runs.

Section Mkdir.
Context {P : Platform}.

Lemma elem_of_ancestors (q p : NodePath.path) : q ∈ ancestors p <-> q `prefix_of` p.
Proof.
  unfold ancestors. rewrite list_elem_of_fmap. split.
  - intros (n & -> & _). apply prefix_take.
  - intros [k ->]. exists (length q). split.
    + by rewrite take_app_length.
    + apply elem_of_seq. rewrite length_app. lia.
Qed.

Lemma fold_mkdir_lookup (l : list NodePath.path) :
  forall (m : gmap NodePath.path file) (q : NodePath.path),
  fold_left (fun m' q' => match m' !! q' with
                          | None => <[q' := Dir]> m'
                          | Some _ => m'
                          end) l m !! q
  = match m !! q with
    | Some f => Some f
    | None => if bool_decide (q ∈ l) then Some Dir else None
    end.
Proof.
  induction l as [|a l IH]; intros m q; simpl.
  - by destruct (m !! q).
  - rewrite IH. destruct (decide (q = a)) as [->|Hne].
    + destruct (m !! a) as [f|] eqn:Ha.
      * by rewrite Ha.
      * rewrite lookup_insert_eq. rewrite bool_decide_eq_true_2; [done|by left].
    + assert (bool_decide (q ∈ a :: l) = bool_decide (q ∈ l)) as ->.
      { apply bool_decide_ext. rewrite elem_of_cons. tauto. }
      destruct (m !! a) as [f|] eqn:Ha; [done|].
      by rewrite lookup_insert_ne.
Qed.

(** What a recursive [mkdir] leaves at a path: what was there, or a new
    directory where nothing was and the path is the one asked for or
    above it. *)
Lemma mkdir_p_lookup (m : gmap NodePath.path file) (p q : NodePath.path) :
  mkdir_p m p !! q = m !! q \/
  (m !! q = None /\ q `prefix_of` p /\ mkdir_p m p !! q = Some Dir).
Proof.
  unfold mkdir_p. rewrite fold_mkdir_lookup.
  destruct (m !! q) as [f|]; [by left|].
  destruct (bool_decide (q ∈ ancestors p)) eqn:Hin; [|by left].
  right. apply bool_decide_eq_true in Hin. by rewrite <- elem_of_ancestors.
Qed.

Lemma mkdir_p_there (m : gmap NodePath.path file) (p : NodePath.path) : is_Some (mkdir_p m p !! p).
Proof.
  unfold mkdir_p. rewrite fold_mkdir_lookup.
  destruct (m !! p) as [f|]; [by eexists|].
  rewrite bool_decide_eq_true_2; [by eexists|]. by apply elem_of_ancestors.
Qed.

Lemma mkdir_p_keeps (m : gmap NodePath.path file) (p q : NodePath.path) f :
  m !! q = Some f -> mkdir_p m p !! q = Some f.
Proof. intros Hq. destruct (mkdir_p_lookup m p q) as [->|(Hn & _)]; congruence. Qed.

Lemma mkdir_p_frame (m : gmap NodePath.path file) (p q : NodePath.path) :
  ~ q `prefix_of` p -> mkdir_p m p !! q = m !! q.
Proof. intros Hq. by destruct (mkdir_p_lookup m p q) as [->|(_ & ? & _)]. Qed.

(** [mkdirSync] throws and changes nothing, or makes the directories. *)
Lemma mkdirSync_cases p w :
  (exists e, mkdirSync p w = mkOut (inl e) w []) \/
  mkdirSync p w = mkOut (inr tt) (mkWorld (mkdir_p (fs w) p) (ticks w)) [EvMkdir p].
Proof.
  unfold mkdirSync. destruct (write_fault p) as [e|]; [left; by eexists|].
  destruct (blocked (fs w) p); [left; by eexists|by right].
Qed.

End Mkdir.

Lemma last_cons_default {A} (x : A) l d : List.last (x :: l) d = List.last l x.
Proof.
  revert x d. induction l as [|y l IH]; intros x d; [done|].
  change (List.last (y :: l) d = List.last (y :: l) x). by rewrite !IH.
Qed.

Section Loop.
Import NodePath ProcessRoute.
Context {P : Platform}.
Variables (doc : Doc) (pagesDir statusPath : path).
Hypothesis status_writable : write_fault statusPath = None.
Hypothesis pages_apart : forall p, join pagesDir [page_file_name p] <> statusPath.

Lemma is_dir_insert m p q data :
  data <> Dir -> is_dir m q = false -> is_dir (<[q := data]> m) p = is_dir m p.
Proof.
  intros Hd Hq. unfold is_dir in *.
  destruct (decide (q = p)) as [->|Hne].
  - rewrite lookup_insert_eq. destruct data; [done| |]; by rewrite Hq.
  - by rewrite lookup_insert_ne.
Qed.

Lemma is_dir_status w r :
  fs w !! statusPath = Some (StatusJson r) -> is_dir (fs w) statusPath = false.
Proof. unfold is_dir. by intros ->. Qed.

Lemma attempt_page_ok w r i :
  fs w !! statusPath = Some (StatusJson r) ->
  page_ok doc pagesDir (fs w) i = true ->
  exists b, copySinglePage doc (Z.of_nat i) = inr b /\
    let r' := progress_status r (Z.of_nat i + 1) (clock (ticks w)) in
    runs (try_catch (process_page doc pagesDir statusPath i) (fun _ => ret tt)) w
      (inr tt)
      (mkWorld (<[statusPath := StatusJson r']> (<[page_path pagesDir i := Raw b]> (fs w)))
               (S (ticks w)))
      [EvExtract (Z.of_nat i); EvWrite (page_path pagesDir i) (Raw b);
       EvWrite statusPath (StatusJson r')].
Proof.
  intros Hst. unfold page_ok, writable.
  destruct (copySinglePage doc (Z.of_nat i)) as [e|b] eqn:Hc; [done|].
  destruct (write_fault (page_path pagesDir i)) eqn:Hf; [done|].
  intros Hd%negb_true_iff. exists b. split; [done|]. simpl.
  apply runs_try. unfold process_page. fold (page_path pagesDir i).
  eapply (runs_bind _ _ _ _ _ [_] _ _ [_; _]); [by apply runs_extract_ok|].
  eapply (runs_bind _ _ _ _ _ [_] _ _ [_]); [by apply runs_writeFileSync|].
  eapply (runs_bind _ _ _ _ _ [] _ _ [_]).
  { apply runs_read_status. simpl. rewrite lookup_insert_ne by apply pages_apart.
    exact Hst. }
  eapply (runs_bind _ _ _ _ _ [] _ _ [_]); [apply runs_now|].
  apply runs_writeFileSync; [done|]. simpl.
  unfold is_dir. rewrite lookup_insert_ne by apply pages_apart. by rewrite Hst.
Qed.

Lemma attempt_page_fail w i :
  page_ok doc pagesDir (fs w) i = false ->
  runs (try_catch (process_page doc pagesDir statusPath i) (fun _ => ret tt)) w
    (inr tt) w [EvExtract (Z.of_nat i)].
Proof.
  unfold page_ok, writable. intros Hok.
  destruct (copySinglePage doc (Z.of_nat i)) as [e|b] eqn:Hc.
  - eapply (runs_catch _ _ _ _ _ [_] _ _ []); [|apply runs_ret].
    apply runs_bind_throw. by apply runs_extract_fail.
  - destruct (runs_writeFileSync_fail (page_path pagesDir i) (Raw b) w) as [e He].
    { destruct (write_fault (page_path pagesDir i)); [by left|right].
      by apply negb_false_iff. }
    eapply (runs_catch _ _ _ _ _ [_] _ _ []); [|apply runs_ret].
    unfold process_page. fold (page_path pagesDir i).
    eapply (runs_bind _ _ _ _ _ [_] _ _ []); [by apply runs_extract_ok|].
    by apply runs_bind_throw.
Qed.

Lemma page_ok_same_dirs m m0 i :
  same_dirs m m0 -> page_ok doc pagesDir m i = page_ok doc pagesDir m0 i.
Proof.
  intros Hs. unfold page_ok, writable.
  destruct (copySinglePage doc (Z.of_nat i)); [done|].
  destruct (write_fault (page_path pagesDir i)); [done|]. by rewrite Hs.
Qed.

Lemma ok_pages_here m i n :
  page_ok doc pagesDir m i = true ->
  ok_pages doc pagesDir m i (S n) = (Z.of_nat i + 1) :: ok_pages doc pagesDir m (S i) n.
Proof. intros H. unfold ok_pages. simpl. by rewrite H. Qed.

Lemma ok_pages_skip m i n :
  page_ok doc pagesDir m i = false ->
  ok_pages doc pagesDir m i (S n) = ok_pages doc pagesDir m (S i) n.
Proof. intros H. unfold ok_pages. simpl. by rewrite H. Qed.

Lemma with_progress_after r p t q u :
  with_progress (progress_status r p t) q u = with_progress r q u.
Proof. done. Qed.

(** The loop attempts every page in order, writes one progress record
    per page that went through, and leaves the record of the last such
    page behind. *)
Lemma page_loop_runs m0 n : forall i w r,
  fs w !! statusPath = Some (StatusJson r) ->
  same_dirs (fs w) m0 ->
  exists w' evs,
    runs (page_loop doc pagesDir statusPath i n) w (inr tt) w' evs /\
    extractions evs = map Z.of_nat (seq i n) /\
    same_dirs (fs w') m0 /\
    Forall2 (fun rec p => exists t, rec = progress_status r p t)
            (status_writes evs) (ok_pages doc pagesDir m0 i n) /\
    exists u, fs w' !! statusPath =
              Some (StatusJson (with_progress r
                      (List.last (ok_pages doc pagesDir m0 i n) (processedPages r)) u)).
Proof.
  induction n as [|n IH]; intros i w r Hst Hdirs.
  - exists w, []. split; [apply runs_ret|]. split; [done|]. split; [done|].
    split; [apply Forall2_nil_2|].
    exists (updatedAt r). simpl. by rewrite with_progress_id.
  - simpl page_loop.
    destruct (page_ok doc pagesDir m0 i) eqn:Hok.
    + destruct (attempt_page_ok w r i Hst) as (b & Hb & Hrun).
      { by rewrite (page_ok_same_dirs _ m0). }
      simpl in Hrun.
      set (r1 := progress_status r (Z.of_nat i + 1) (clock (ticks w))) in *.
      set (w1 := mkWorld _ _) in Hrun.
      assert (Hpd : is_dir (fs w) (page_path pagesDir i) = false).
      { rewrite <- (page_ok_same_dirs (fs w)) in Hok by done.
        unfold page_ok, writable in Hok. rewrite Hb in Hok.
        destruct (write_fault (page_path pagesDir i)); [done|].
        by apply negb_true_iff. }
      destruct (IH (S i) w1 r1) as (w' & evs & Hloop & Hex & Hd' & Hws & u & Hfin).
      { simpl. by rewrite lookup_insert_eq. }
      { intros p. simpl. rewrite is_dir_insert; [|done|].
        - rewrite is_dir_insert; [apply Hdirs|done|done].
        - rewrite is_dir_insert; [|done|done]. by eapply is_dir_status. }
      eexists w', (_ ++ evs). split; [|split; [|split; [|split]]].
      * eapply runs_bind; [exact Hrun|exact Hloop].
      * simpl. by rewrite Hex.
      * done.
      * rewrite ok_pages_here by done. simpl. constructor; [by eexists|].
        eapply Forall2_impl; [exact Hws|]. simpl. intros rec p [t ->]. by eexists.
      * exists u. rewrite Hfin, ok_pages_here by done.
        unfold r1. rewrite with_progress_after. by rewrite last_cons_default.
    + destruct (IH (S i) w r Hst Hdirs) as (w' & evs & Hloop & Hex & Hd' & Hws & u & Hfin).
      eexists w', (_ ++ evs). split; [|split; [|split; [|split]]].
      * eapply runs_bind; [|exact Hloop]. apply attempt_page_fail.
        by rewrite (page_ok_same_dirs _ m0).
      * simpl. by rewrite Hex.
      * done.
      * by rewrite ok_pages_skip.
      * exists u. by rewrite ok_pages_skip.
Qed.

End Loop.

(* ===================================================================== *)
(** ** The background job as a whole *)
(* ===================================================================== *)

Section SourceLoading.
Import NodePath ProcessRoute.
Context {P : Platform}.

Lemma source_doc_fails {A} pdfPath w e (k : Doc -> M A) :
  source_doc pdfPath w = inl e ->
  runs (pdfBytes <- readFileSync pdfPath ;; pdfDoc <- load pdfBytes ;; k pdfDoc)%js
       w (inl e) w [].
Proof.
  unfold source_doc, runs, bind, readFileSync, load.
  destruct (fs w !! pdfPath) as [[|r|bytes]|]; simpl; try by intros [= ->].
  unfold throw, ret. destruct (PDFDocument_load bytes); simpl; [by intros [= ->]|done].
Qed.

Lemma source_doc_loads {A} pdfPath w doc (k : Doc -> M A) r w' evs :
  source_doc pdfPath w = inr doc ->
  runs (k doc) w r w' evs ->
  runs (pdfBytes <- readFileSync pdfPath ;; pdfDoc <- load pdfBytes ;; k pdfDoc)%js
       w r w' evs.
Proof.
  unfold source_doc, runs, bind, readFileSync, load.
  destruct (fs w !! pdfPath) as [[|r'|bytes]|]; simpl; try done.
  unfold throw, ret. destruct (PDFDocument_load bytes); simpl; [done|].
  intros [= ->]. by intros ->.
Qed.

End SourceLoading.

Section StatusUpdates.
Import NodePath ProcessRoute.
Context {P : Platform}.
Variable statusPath : path.
Hypothesis status_writable : write_fault statusPath = None.

Lemma markFailed_runs w r e :
  fs w !! statusPath = Some (StatusJson r) ->
  let r' := failed_status r (error_message e) (clock (ticks w)) in
  runs (markFailed statusPath e) w (inr tt)
       (mkWorld (<[statusPath := StatusJson r']> (fs w)) (S (ticks w)))
       [EvWrite statusPath (StatusJson r')].
Proof.
  intros Hst r'. unfold markFailed. apply runs_try.
  eapply (runs_bind _ _ _ _ _ [] _ _ [_]); [by apply runs_read_status|].
  eapply (runs_bind _ _ _ _ _ [] _ _ [_]); [apply runs_now|].
  apply runs_writeFileSync; [done|]. simpl. by eapply is_dir_status.
Qed.

Lemma setTotalPages_runs w r t0 n :
  fs w !! statusPath = Some (StatusJson r) ->
  startedAt r = Some t0 ->
  let r' := total_known_status n t0 (clock (ticks w)) in
  runs (setTotalPages statusPath n) w (inr tt)
       (mkWorld (<[statusPath := StatusJson r']> (fs w)) (S (ticks w)))
       [EvWrite statusPath (StatusJson r')].
Proof.
  intros Hst Ht0 r'. unfold setTotalPages.
  eapply (runs_bind _ _ _ _ _ [] _ _ [_]); [by apply runs_read_status|].
  rewrite Ht0.
  eapply (runs_bind _ _ _ _ _ [] _ _ [_]); [apply runs_ret|].
  eapply (runs_bind _ _ _ _ _ [] _ _ [_]); [apply runs_now|].
  apply runs_writeFileSync; [done|]. simpl. by eapply is_dir_status.
Qed.

Lemma markCompleted_runs w r :
  fs w !! statusPath = Some (StatusJson r) ->
  let r' := completed_status r (clock (ticks w)) (clock (S (ticks w))) in
  runs (markCompleted statusPath) w (inr tt)
       (mkWorld (<[statusPath := StatusJson r']> (fs w)) (S (S (ticks w))))
       [EvWrite statusPath (StatusJson r')].
Proof.
  intros Hst r'. unfold markCompleted.
  eapply (runs_bind _ _ _ _ _ [] _ _ [_]); [by apply runs_read_status|].
  eapply (runs_bind _ _ _ _ _ [] _ _ [_]); [apply runs_now|].
  eapply (runs_bind _ _ _ _ _ [] _ _ [_]); [apply runs_now|].
  apply runs_writeFileSync; [done|]. simpl. by eapply is_dir_status.
Qed.

End StatusUpdates.

Section Background.
Import NodePath ProcessRoute.
Context {P : Platform}.
Variables (src pagesDir : path).
Hypothesis status_writable : write_fault (status_file pagesDir) = None.

Lemma pages_apart p : join pagesDir [page_file_name p] <> (status_file pagesDir).
Proof. apply page_path_not_status. Qed.

(** The job when the source does not load: one [failed] record. *)
Lemma background_load_fails w r e :
  fs w !! (status_file pagesDir) = Some (StatusJson r) ->
  source_doc src w = inl e ->
  let r' := failed_status r (error_message e) (clock (ticks w)) in
  runs (processPdfInBackground (mkJobArgs src pagesDir (status_file pagesDir))) w (inr tt)
       (mkWorld (<[(status_file pagesDir) := StatusJson r']> (fs w)) (S (ticks w)))
       [EvWrite (status_file pagesDir) (StatusJson r')].
Proof.
  intros Hst Hsrc r'. unfold processPdfInBackground.
  eapply (runs_catch _ _ _ _ _ [] _ _ [_]).
  - by apply source_doc_fails.
  - by apply markFailed_runs.
Qed.

(** The job when the source loads: the page count is recorded, every
    page is attempted, and the record is completed. *)
Lemma background_load_ok w r t0 doc :
  fs w !! (status_file pagesDir) = Some (StatusJson r) ->
  startedAt r = Some t0 ->
  source_doc src w = inr doc ->
  let n := getPageCount doc in
  let oks := ok_pages doc pagesDir (fs w) 0 n in
  exists w' evs t1 ws u tc tu,
    let rk := total_known_status n t0 t1 in
    let final := completed_status (with_progress rk (List.last oks 0) u) tc tu in
    runs (processPdfInBackground (mkJobArgs src pagesDir (status_file pagesDir))) w
         (inr tt) w' evs /\
    extractions evs = map Z.of_nat (seq 0 n) /\
    status_writes evs = rk :: ws ++ [final] /\
    Forall2 (fun rec p => exists t, rec = progress_status rk p t) ws oks /\
    fs w' !! (status_file pagesDir) = Some (StatusJson final).
Proof.
  intros Hst Ht0 Hsrc n oks.
  pose proof (setTotalPages_runs (status_file pagesDir) status_writable w r t0 n Hst Ht0)
    as Hset.
  simpl in Hset.
  set (rk := total_known_status n t0 (clock (ticks w))) in *.
  set (w1 := mkWorld _ _) in Hset.
  destruct (page_loop_runs doc pagesDir (status_file pagesDir) status_writable pages_apart
              (fs w) n 0 w1 rk) as (w2 & evs & Hloop & Hex & _ & Hws & u & Hfin).
  { simpl. by rewrite lookup_insert_eq. }
  { intros p. simpl. rewrite is_dir_insert; [done|done|]. by eapply is_dir_status. }
  pose proof (markCompleted_runs (status_file pagesDir) status_writable w2 _ Hfin) as Hdone.
  simpl in Hdone.
  eexists _, _, (clock (ticks w)), (status_writes evs), u, _, _.
  split; [|split; [|split; [|split]]].
  - unfold processPdfInBackground. apply runs_try.
    apply (source_doc_loads _ _ doc); [done|]. simpl.
    eapply runs_bind; [exact Hset|].
    eapply runs_bind; [exact Hloop|]. exact Hdone.
  - simpl. unfold extractions in *. rewrite flat_map_app. simpl.
    rewrite app_nil_r. exact Hex.
  - simpl. unfold status_writes. rewrite flat_map_app. done.
  - exact Hws.
  - simpl. by rewrite lookup_insert_eq.
Qed.

End Background.

Section OkPages.
Import NodePath ProcessRoute.
Context {P : Platform}.
Variables (doc : Doc) (pagesDir : path) (m : gmap path file).

Lemma ok_pages_bounds n : forall i p,
  In p (ok_pages doc pagesDir m i n) -> Z.of_nat i < p <= Z.of_nat i + Z.of_nat n.
Proof.
  induction n as [|n IH]; intros i p; [done|].
  destruct (page_ok doc pagesDir m i) eqn:Hok.
  - rewrite ok_pages_here by done. intros [<-|Hin]; [lia|].
    apply IH in Hin. lia.
  - rewrite ok_pages_skip by done. intros Hin. apply IH in Hin. lia.
Qed.

Lemma ok_pages_sorted n : forall i,
  StronglySorted Z.lt (ok_pages doc pagesDir m i n).
Proof.
  induction n as [|n IH]; intros i; [constructor|].
  destruct (page_ok doc pagesDir m i) eqn:Hok.
  - rewrite ok_pages_here by done. constructor; [apply IH|].
    apply List.Forall_forall. intros p Hin. apply ok_pages_bounds in Hin. lia.
  - rewrite ok_pages_skip by done. apply IH.
Qed.

End OkPages.

Section RunJob.
Import NodePath ProcessRoute.
Context {P : Platform}.

(** The start endpoint either refuses the request without touching the
    status file, or writes the initial record and hands over the job. *)
Lemma POST_runs pdfPath w :
  exists resp w1 evs,
    runs (POST pdfPath) w (inr resp) w1 evs /\
    extractions evs = [] /\
    ((snd resp = None /\ status_writes evs = []) \/
     (exists url t,
        let pagesDir := join cwd ["public"; "pdf-pages"; job_fileId url] in
        let statusPath := status_file pagesDir in
        pdfPath = Some url /\
        resp = (Started (job_fileId url),
                Some (mkJobArgs (join cwd ["public"; url]) pagesDir statusPath)) /\
        write_fault statusPath = None /\
        status_writes evs = [initial_status t] /\
        fs w1 !! statusPath = Some (StatusJson (initial_status t)))).
Proof.
  destruct pdfPath as [url|];
    [|by do 3 eexists; split; [apply runs_try, runs_ret|split; [|left]]].
  destruct url as [|c s]; [by do 3 eexists; split; [apply runs_try, runs_ret|split; [|left]]|].
  set (url := String c s). unfold POST. fold url.
  change (match url with "" => _ | String _ _ => ?k end) with k.
  set (pagesDir := join cwd ["public"; "pdf-pages"; job_fileId url]).
  set (statusPath := status_file pagesDir).
  destruct (bool_decide (is_Some (fs w !! join cwd ["public"; url]))) eqn:Hfound.
  2:{ do 3 eexists. split; [|split; [|left; split]].
      - apply runs_try. eapply (runs_bind _ _ _ _ _ [] _ _ []); [apply runs_existsSync|].
        rewrite Hfound. apply runs_ret.
      - done.
      - done.
      - done. }
  (* creating the directory *)
  assert (exists w1 evd (rd : exn + unit),
    runs (if negb (bool_decide (is_Some (fs w !! pagesDir)))
          then mkdirSync pagesDir else ret tt) w rd w1 evd /\
    status_writes evd = [] /\ extractions evd = [] /\ ticks w1 = ticks w)
    as (w1 & evd & rd & Hdir & Hevd & Hexd & Hticks).
  { destruct (bool_decide (is_Some (fs w !! pagesDir))) eqn:Hthere; simpl.
    - by exists w, [], (inr tt).
    - destruct (mkdirSync_cases pagesDir w) as [[e Hm]|Hm].
      + by exists w, [], (inl e).
      + by exists (mkWorld (mkdir_p (fs w) pagesDir) (ticks w)), [EvMkdir pagesDir], (inr tt). }
  assert (forall (k : M (Response * option JobArgs)) r w2 ev2,
    runs k w1 r w2 ev2 -> rd = inr tt ->
    runs (found <- existsSync (join cwd ["public"; url]) ;;
          if negb found then ret (Failure 404 "PDF file not found", None)
          else dirThere <- existsSync pagesDir ;;
               (if negb dirThere then mkdirSync pagesDir else ret tt) ;;; k)%js
         w r w2 (evd ++ ev2)) as Hpre.
  { intros k r w2 ev2 Hk ->.
    eapply (runs_bind _ _ _ _ _ [] _ _ _); [apply runs_existsSync|].
    rewrite Hfound. simpl.
    eapply (runs_bind _ _ _ _ _ [] _ _ _); [apply runs_existsSync|].
    eapply runs_bind; [exact Hdir|exact Hk]. }
  destruct rd as [e|[]].
  { (* mkdir failed *)
    do 3 eexists. split; [|split; [|left; split]].
    - eapply runs_catch; [|apply runs_ret].
      eapply (runs_bind _ _ _ _ _ [] _ _ _); [apply runs_existsSync|].
      rewrite Hfound. simpl.
      eapply (runs_bind _ _ _ _ _ [] _ _ _); [apply runs_existsSync|].
      apply runs_bind_throw. exact Hdir.
    - simpl. by rewrite app_nil_r.
    - done.
    - simpl. by rewrite app_nil_r. }
  destruct (write_fault statusPath) as [e|] eqn:Hfault;
    [|destruct (is_dir (fs w1) statusPath) eqn:Hisdir].
  - (* the status file cannot be written *)
    do 3 eexists. split; [|split; [|left; split]].
    + eapply runs_catch; [|apply runs_ret].
      apply Hpre; [|done].
      eapply (runs_bind _ _ _ _ _ [] _ _ []); [apply runs_now|].
      apply runs_bind_throw. unfold runs, writeFileSync. fold pagesDir statusPath.
      by rewrite Hfault.
    + simpl. rewrite !app_nil_r. done.
    + done.
    + simpl. rewrite !app_nil_r. done.
  - (* the status path is a directory *)
    destruct (runs_writeFileSync_fail statusPath
                (StatusJson (initial_status (clock (ticks w1))))
                (mkWorld (fs w1) (S (ticks w1)))) as [e He]; [by right|].
    do 3 eexists. split; [|split; [|left; split]].
    + eapply runs_catch; [|apply runs_ret].
      apply Hpre; [|done].
      eapply (runs_bind _ _ _ _ _ [] _ _ []); [apply runs_now|].
      apply runs_bind_throw. exact He.
    + simpl. rewrite !app_nil_r. done.
    + done.
    + simpl. rewrite !app_nil_r. done.
  - (* the job starts *)
    do 3 eexists. split; [|split; [|right; exists url, (clock (ticks w1)); simpl;
                                      split; [done|split; [|split; [|split]]]]].
    + apply runs_try. apply Hpre; [|done].
      eapply (runs_bind _ _ _ _ _ [] _ _ [_]); [apply runs_now|].
      eapply (runs_bind _ _ _ _ _ [_] _ _ []); [by apply runs_writeFileSync|].
      apply runs_ret.
    + unfold extractions in *. rewrite flat_map_app, Hexd. done.
    + done.
    + done.
    + unfold status_writes in *. rewrite flat_map_app, Hevd. done.
    + simpl. by rewrite lookup_insert_eq.
Qed.

End RunJob.

Section JobTrace.
Import NodePath ProcessRoute.
Context {P : Platform}.

Lemma runs_events {A} (m : M A) w r w' evs : runs m w r w' evs -> events (m w) = evs.
Proof. unfold runs. by intros ->. Qed.

Lemma runs_res {A} (m : M A) w r w' evs : runs m w r w' evs -> res (m w) = r.
Proof. unfold runs. by intros ->. Qed.

Lemma runs_world {A} (m : M A) w r w' evs : runs m w r w' evs -> world (m w) = w'.
Proof. unfold runs. by intros ->. Qed.

Lemma status_writes_app e1 e2 :
  status_writes (e1 ++ e2) = status_writes e1 ++ status_writes e2.
Proof. unfold status_writes. apply flat_map_app. Qed.

(** The status writes of one uninterrupted job have one of the three
    shapes of [job_writes]. *)
Lemma run_job_writes pdfPath w :
  job_writes (status_writes (events (run_job pdfPath w))).
Proof.
  destruct (POST_runs pdfPath w) as (resp & w1 & evs & Hpost & _ & Hcase).
  unfold run_job.
  destruct Hcase as [[Hnone Hws]|(url & t & -> & -> & Hfault & Hws & Hst)].
  - erewrite runs_events.
    2:{ eapply runs_bind; [exact Hpost|]. rewrite Hnone. apply runs_ret. }
    rewrite status_writes_app, Hws. constructor.
  - simpl snd. simpl fst.
    set (pagesDir := join cwd ["public"; "pdf-pages"; job_fileId url]) in *.
    set (src := join cwd ["public"; url]) in *.
    destruct (source_doc src w1) as [e|doc] eqn:Hsrc.
    + pose proof (background_load_fails src pagesDir Hfault w1 _ e Hst Hsrc) as Hbg.
      simpl in Hbg.
      erewrite runs_events.
      2:{ eapply runs_bind; [exact Hpost|].
          eapply runs_bind; [exact Hbg|apply runs_ret]. }
      rewrite !status_writes_app, Hws. simpl. constructor.
    + destruct (background_load_ok src pagesDir Hfault w1 _ t doc Hst eq_refl Hsrc)
        as (w' & evb & t1 & ws & u & tc & tu & Hbg & _ & Hwb & Hmid & _).
      erewrite runs_events.
      2:{ eapply runs_bind; [exact Hpost|].
          eapply runs_bind; [exact Hbg|apply runs_ret]. }
      rewrite !status_writes_app, Hws, Hwb. simpl. rewrite app_nil_r.
      apply writes_completed.
      * exact Hmid.
      * apply ok_pages_sorted.
      * apply List.Forall_forall. intros p Hin.
        apply ok_pages_bounds in Hin. lia.
Qed.

End JobTrace.

Section SortedFacts.

Lemma last_in_or_default (l : list Z) d : List.last l d = d \/ In (List.last l d) l.
Proof.
  destruct l as [|x l]; [by left|right].
  destruct (exists_last (l:=x :: l)) as (l' & y & ->); [done|].
  rewrite last_last. apply in_or_app. right. by left.
Qed.

Lemma last_any_default (y : Z) l d d' : List.last (y :: l) d = List.last (y :: l) d'.
Proof. by rewrite !last_cons_default. Qed.

Lemma sorted_le_last (l : list Z) d :
  StronglySorted Z.lt l -> Forall (fun x => x <= List.last l d) l.
Proof.
  induction 1 as [|x l Hs IH Hall]; [constructor|].
  constructor.
  - cbv beta. rewrite last_cons_default.
    destruct (last_in_or_default l x) as [->|Hin]; [lia|].
    rewrite List.Forall_forall in Hall. specialize (Hall _ Hin). lia.
  - destruct l as [|y l]; [constructor|].
    eapply Forall_impl; [exact IH|]. cbv beta. intros z Hz.
    rewrite last_cons_default, (last_any_default y l x d). exact Hz.
Qed.

Lemma sorted_snoc (l : list Z) z :
  StronglySorted Z.lt l -> Forall (fun x => x <= z) l ->
  StronglySorted Z.le (l ++ [z]).
Proof.
  induction 1 as [|x l Hs IH Hall]; intros Hz; simpl.
  - repeat constructor.
  - apply Forall_cons_1 in Hz as [Hx Hl]. constructor; [by apply IH|].
    apply Forall_app. split.
    + eapply Forall_impl; [exact Hall|]. simpl. lia.
    + by repeat constructor.
Qed.

Lemma sorted_snoc_last (l : list Z) d :
  StronglySorted Z.lt l -> StronglySorted Z.le (l ++ [List.last l d]).
Proof. intros Hs. apply sorted_snoc; [done|]. by apply sorted_le_last. Qed.

End SortedFacts.

Section JobWrites.
Import ProcessRoute.

Lemma progress_records_pages rk mid ps :
  Forall2 (fun rec p => exists t', rec = progress_status rk p t') mid ps ->
  map processedPages mid = ps.
Proof.
  induction 1 as [|rec p mid ps [t' ->] _ IH]; [done|]. simpl. by rewrite IH.
Qed.

Lemma last_page_bounds (ps : list Z) n :
  Forall (fun p => 1 <= p <= Z.of_nat n) ps -> 0 <= List.last ps 0 <= Z.of_nat n.
Proof.
  intros Hall. destruct (last_in_or_default ps 0) as [->|Hin]; [lia|].
  rewrite List.Forall_forall in Hall. specialize (Hall _ Hin). lia.
Qed.

End JobWrites.

(* ===================================================================== *)
(** ** Properties of the decomposition job *)
(* ===================================================================== *)

Section JobProperties.
Import NodePath ProcessRoute.
Context {P : Platform}.

(** C4.  Every status record written during one decomposition job (the
    start request and the background run it spawns) has
    [processedPages <= totalPages], carries [completedAt] exactly when
    its status is [completed], and carries [error] exactly when its
    status is [failed].  The first conjunct holds for the initial
    record as well, where both counters are 0. *)
Theorem job_status_records_invariant (pdfPath : option string) (w : World) :
  Forall status_inv (status_writes (events (run_job pdfPath w))).
Proof.
  destruct (run_job_writes pdfPath w)
    as [|t msg t'|t n t1 mid ps u tc tu rk Hmid Hsorted Hbounds].
  - constructor.
  - (* the source did not load: initial, failed *)
    repeat constructor; simpl; solve_member.
  - (* initial, page count, progress records, completed *)
    constructor; [|constructor; [|apply Forall_app; split]].
    + repeat split; simpl; solve_member.
    + repeat split; simpl; solve_member.
    + clear Hsorted. induction Hmid as [|rec p mid ps [t' ->] _ IH]; [constructor|].
      apply Forall_cons_1 in Hbounds as [Hp Hps]. constructor; [|by apply IH].
      repeat split; simpl; solve_member.
    + apply last_page_bounds in Hbounds.
      repeat constructor; simpl; solve_member.
Qed.

(** C6.  In one uninterrupted job the [processedPages] values of the
    successive status writes, from the initial record to the terminal
    one, never decrease. *)
Theorem processedPages_never_regresses (pdfPath : option string) (w : World) :
  StronglySorted Z.le
    (map processedPages (status_writes (events (run_job pdfPath w)))).
Proof.
  destruct (run_job_writes pdfPath w)
    as [|t msg t'|t n t1 mid ps u tc tu rk Hmid Hsorted Hbounds]; simpl.
  - constructor.
  - (* 0, 0 *)
    repeat constructor; lia.
  - (* 0, 0, the increasing page numbers, the last of them again *)
    rewrite map_app, (progress_records_pages _ _ _ Hmid). simpl.
    assert (Forall (Z.le 0) (ps ++ [List.last ps 0])) as Hnonneg.
    { apply Forall_app. split.
      - eapply Forall_impl; [exact Hbounds|]. simpl. lia.
      - repeat constructor. apply last_page_bounds in Hbounds. lia. }
    constructor; [constructor|].
    + by apply sorted_snoc_last.
    + exact Hnonneg.
    + constructor; [lia|exact Hnonneg].
Qed.

(** C3, as amended.  When the source loads, a page whose extraction or
    write fails does not abort the job: every page index is attempted
    in order, one progress record is written for each page that was
    extracted and written ([ok_pages]), the job ends with status
    [completed], and the recorded [processedPages] is the number of the
    last such page (0 when no page went through). *)
Theorem page_failure_does_not_abort_job (src pagesDir : path) (w : World)
    (r : JobStatus) (t0 : Timestamp) (doc : Doc) :
  write_fault (status_file pagesDir) = None ->
  fs w !! status_file pagesDir = Some (StatusJson r) ->
  startedAt r = Some t0 ->
  source_doc src w = inr doc ->
  let n := getPageCount doc in
  let o := processPdfInBackground
             (mkJobArgs src pagesDir (status_file pagesDir)) w in
  res o = inr tt /\
  extractions (events o) = map Z.of_nat (seq 0 n) /\
  exists first progress final,
    status_writes (events o) = first :: progress ++ [final] /\
    map processedPages progress = ok_pages doc pagesDir (fs w) 0 n /\
    fs (world o) !! status_file pagesDir = Some (StatusJson final) /\
    status final = completed /\
    totalPages final = Z.of_nat n /\
    processedPages final = List.last (ok_pages doc pagesDir (fs w) 0 n) 0.
Proof.
  cbv zeta. intros Hfault Hst Ht0 Hsrc.
  destruct (background_load_ok src pagesDir Hfault w r t0 doc Hst Ht0 Hsrc)
    as (w' & evs & t1 & ws & u & tc & tu & Hrun & Hex & Hwrites & Hprog & Hfin).
  rewrite (runs_res _ _ _ _ _ Hrun), (runs_events _ _ _ _ _ Hrun),
    (runs_world _ _ _ _ _ Hrun).
  split; [done|]. split; [exact Hex|]. do 3 eexists.
  split; [exact Hwrites|]. split; [by eapply progress_records_pages|].
  split; [exact Hfin|]. done.
Qed.

(** C5.  When loading the source fails at the start of the background
    job, no page is attempted, the status record becomes [failed] with
    the thrown error's message (non-empty when that message is), and
    [processedPages] keeps its prior value, which is 0 for the record a
    start request has just written. *)
Theorem load_failure_marks_job_failed (src pagesDir : path) (w : World)
    (r : JobStatus) (e : exn) :
  write_fault (status_file pagesDir) = None ->
  fs w !! status_file pagesDir = Some (StatusJson r) ->
  source_doc src w = inl e ->
  error_message e <> "" ->
  let o := processPdfInBackground
             (mkJobArgs src pagesDir (status_file pagesDir)) w in
  res o = inr tt /\
  extractions (events o) = [] /\
  exists r',
    fs (world o) !! status_file pagesDir = Some (StatusJson r') /\
    status r' = failed /\
    (exists msg, error r' = Some msg /\ msg <> "") /\
    processedPages r' = processedPages r /\
    (forall t, r = initial_status t -> processedPages r' = 0).
Proof.
  cbv zeta. intros Hfault Hst Hsrc Hmsg.
  pose proof (background_load_fails src pagesDir Hfault w r e Hst Hsrc) as Hrun.
  simpl in Hrun.
  rewrite (runs_res _ _ _ _ _ Hrun), (runs_events _ _ _ _ _ Hrun),
    (runs_world _ _ _ _ _ Hrun).
  split; [done|]. split; [done|]. eexists. split.
  { simpl. apply lookup_insert_eq. }
  split; [done|]. split; [by eexists|]. split; [done|]. by intros t ->.
Qed.

(** C7, as amended.  The write made once the page count is known stores
    a fresh record: status [processing], the page count, 0 processed
    pages, the prior record's [startedAt], the current time as
    [updatedAt], and neither [completedAt] nor [error].  So [startedAt]
    is always kept, and the members other than [totalPages] and
    [updatedAt] are all kept exactly when the prior record has status
    [processing], 0 processed pages and neither [completedAt] nor
    [error], as the record written by a start request has. *)
Theorem setTotalPages_writes_fresh_record (statusPath : path) (n : nat)
    (w : World) (r : JobStatus) (t0 : Timestamp) :
  write_fault statusPath = None ->
  fs w !! statusPath = Some (StatusJson r) ->
  startedAt r = Some t0 ->
  let o := setTotalPages statusPath n w in
  let r' := mkJobStatus processing (Z.of_nat n) 0 (Some t0)
                        (Some (clock (ticks w))) None None in
  res o = inr tt /\
  fs (world o) = <[statusPath := StatusJson r']> (fs w) /\
  startedAt r' = startedAt r /\
  ((status r = processing /\ processedPages r = 0 /\
    completedAt r = None /\ error r = None) <->
   (status r' = status r /\ processedPages r' = processedPages r /\
    startedAt r' = startedAt r /\ completedAt r' = completedAt r /\
    error r' = error r)).
Proof.
  cbv zeta. intros Hfault Hst Ht0.
  pose proof (setTotalPages_runs statusPath Hfault w r t0 n Hst Ht0) as Hrun.
  simpl in Hrun.
  rewrite (runs_res _ _ _ _ _ Hrun), (runs_world _ _ _ _ _ Hrun).
  split; [done|]. split; [done|]. split; [by rewrite Ht0|].
  simpl. rewrite Ht0. split.
  - by intros (-> & -> & -> & ->).
  - by intros (<- & <- & _ & <- & <-).
Qed.

End JobProperties.

(* ===================================================================== *)
(** ** The page route reads and extracts, and nothing else *)
(* ===================================================================== *)

Section Quiet.
Context {P : Platform}.

Lemma quiet_ret {A} (a : A) : quiet (ret a).
Proof. intros w. by split; [|constructor]. Qed.

Lemma quiet_throw {A} e : quiet (@throw A e).
Proof. intros w. by split; [|constructor]. Qed.

Lemma quiet_bind {A B} (m : M A) (k : A -> M B) :
  quiet m -> (forall a, quiet (k a)) -> quiet (bind m k).
Proof.
  intros Hm Hk w. unfold bind. destruct (Hm w) as [Hw Hev].
  destruct (res (m w)) as [e|a]; simpl; [done|].
  destruct (Hk a (world (m w))) as [Hw' Hev'].
  split; [by rewrite Hw', Hw|]. apply Forall_app. split; [done|].
  exact Hev'.
Qed.

Lemma quiet_try_catch {A} (m : M A) h :
  quiet m -> (forall e, quiet (h e)) -> quiet (try_catch m h).
Proof.
  intros Hm Hh w. unfold try_catch. destruct (Hm w) as [Hw Hev].
  destruct (res (m w)) as [e|a]; simpl; [|done].
  destruct (Hh e (world (m w))) as [Hw' Hev'].
  split; [by rewrite Hw', Hw|]. apply Forall_app. split; [done|].
  exact Hev'.
Qed.

Lemma quiet_existsSync p : quiet (existsSync p).
Proof. intros w. by split; [|constructor]. Qed.

Lemma quiet_readFileSync p : quiet (readFileSync p).
Proof.
  intros w. unfold readFileSync.
  destruct (fs w !! p) as [[]|]; by split; [|constructor].
Qed.

Lemma quiet_load f : quiet (load f).
Proof.
  unfold load. destruct f as [|r|bytes]; try apply quiet_throw.
  destruct (PDFDocument_load bytes); [apply quiet_throw|apply quiet_ret].
Qed.

Lemma quiet_extract doc i : quiet (extractSinglePage doc i).
Proof.
  intros w. unfold extractSinglePage.
  destruct (copySinglePage doc i); by split; [|repeat constructor].
Qed.

Import PageRoute.

Lemma quiet_scan_range fileId n : forall page pages pagesToExtract,
  quiet (scan_range fileId page n pages pagesToExtract).
Proof.
  induction n as [|n IH]; intros page pages pagesToExtract; simpl.
  - apply quiet_ret.
  - apply quiet_bind; [apply quiet_existsSync|]. intros []; apply IH.
Qed.

Lemma quiet_extract_missing doc l : forall pages,
  quiet (extract_missing doc l pages).
Proof.
  induction l as [|p l IH]; intros pages; simpl.
  - apply quiet_ret.
  - apply quiet_bind; [apply quiet_extract|]. intros b. apply IH.
Qed.

Lemma quiet_range_request url doc total f t :
  quiet (range_request url doc total f t).
Proof.
  unfold range_request. case_match; [apply quiet_ret|].
  apply quiet_bind; [apply quiet_scan_range|]. intros scanned.
  apply quiet_bind; [apply quiet_extract_missing|]. intros pages.
  apply quiet_ret.
Qed.

Lemma quiet_single_request url doc total pageNumber :
  quiet (single_request url doc total pageNumber).
Proof.
  unfold single_request. destruct pageNumber as [p|]; [|apply quiet_ret].
  case_match; [apply quiet_ret|].
  apply quiet_bind; [apply quiet_existsSync|]. intros []; [apply quiet_ret|].
  apply quiet_bind; [apply quiet_extract|]. intros b. apply quiet_ret.
Qed.

Lemma quiet_POST req : quiet (POST req).
Proof.
  unfold POST. apply quiet_try_catch; [|intros e; apply quiet_ret].
  destruct (is_local (pdfUrl req)) as [url|]; [|apply quiet_ret].
  apply quiet_bind; [apply quiet_existsSync|]. intros []; [|apply quiet_ret].
  simpl. apply quiet_bind; [apply quiet_readFileSync|]. intros f.
  apply quiet_bind; [apply quiet_load|]. intros doc. unfold dispatch.
  destruct (fromPage req), (toPage req);
    auto using quiet_range_request, quiet_single_request.
Qed.

End Quiet.

(* ===================================================================== *)
(** ** Validation in the page route *)
(* ===================================================================== *)

Section PageValidation.
Import NodePath PageRoute.
Context {P : Platform}.

Lemma source_doc_exists p w doc :
  source_doc p w = inr doc -> bool_decide (is_Some (fs w !! p)) = true.
Proof.
  unfold source_doc, bind, readFileSync. intros Hsrc.
  apply bool_decide_eq_true. destruct (fs w !! p); [by eexists|done].
Qed.

Lemma POST_loaded req w url doc r w' evs :
  is_local (pdfUrl req) = Some url ->
  source_doc (join cwd ["public"; url]) w = inr doc ->
  runs (dispatch req url doc) w r w' evs ->
  runs (POST req) w
       (inr match r with
            | inr resp => resp
            | inl _ => Failure 500 "Failed to extract page"
            end) w' evs.
Proof.
  intros Hlocal Hsrc Hrun. unfold POST. rewrite Hlocal.
  assert (runs (found <- existsSync (join cwd ["public"; url]) ;;
                if negb found then ret (Failure 404 "PDF file not found")
                else pdfBytes <- readFileSync (join cwd ["public"; url]) ;;
                     pdfDoc <- load pdfBytes ;; dispatch req url pdfDoc)%js
               w r w' evs) as Hbody.
  { eapply (runs_bind _ _ _ _ _ [] _ _ _); [apply runs_existsSync|].
    rewrite (source_doc_exists _ _ _ Hsrc). simpl.
    by apply (source_doc_loads _ _ doc). }
  destruct r as [e|resp].
  - rewrite <- (app_nil_r evs). eapply runs_catch; [exact Hbody|apply runs_ret].
  - apply runs_try. exact Hbody.
Qed.

(** C10.  A request for a loaded local document that supplies exactly
    one of [fromPage] and [toPage], and no [pageNumber], does not take
    the range branch: it is answered 400 "Missing pageNumber or page
    range", and nothing is extracted. *)
Theorem half_range_is_missing_page (req : Request) (w : World)
    (url : string) (doc : Doc) :
  is_local (pdfUrl req) = Some url ->
  source_doc (join cwd ["public"; url]) w = inr doc ->
  (is_Some (fromPage req) /\ toPage req = None) \/
  (fromPage req = None /\ is_Some (toPage req)) ->
  pageNumber req = None ->
  res (POST req w) = inr (Failure 400 "Missing pageNumber or page range") /\
  extractions (events (POST req w)) = [] /\
  events (POST req w) = [].
Proof.
  intros Hlocal Hsrc Hhalf Hpage.
  assert (runs (dispatch req url doc) w
            (inr (Failure 400 "Missing pageNumber or page range")) w []) as Hrun.
  { unfold dispatch. rewrite Hpage.
    destruct Hhalf as [[[f Hf] Ht]|[Hf _]].
    - rewrite Hf, Ht. apply runs_ret.
    - rewrite Hf. apply runs_ret. }
  pose proof (POST_loaded _ _ _ _ _ _ _ Hlocal Hsrc Hrun) as Hpost.
  by rewrite (runs_res _ _ _ _ _ Hpost), (runs_events _ _ _ _ _ Hpost).
Qed.

Lemma scan_range_returns fileId n : forall page pages pagesToExtract w,
  exists scanned,
    runs (scan_range fileId page n pages pagesToExtract) w (inr scanned) w [].
Proof.
  induction n as [|n IH]; intros page pages pagesToExtract w; simpl.
  - eexists. apply runs_ret.
  - destruct (bool_decide (is_Some (fs w !! preProcessedPath fileId page))) eqn:Hc.
    + destruct (IH (page + 1)
                  (pages ++ [mkPageEntry page (preProcessedPageUrl fileId page) true])
                  pagesToExtract w) as [scanned Hrun].
      exists scanned.
      eapply (runs_bind _ _ _ _ _ [] _ _ []); [apply runs_existsSync|].
      by rewrite Hc.
    + destruct (IH (page + 1) pages (pagesToExtract ++ [page]) w) as [scanned Hrun].
      exists scanned.
      eapply (runs_bind _ _ _ _ _ [] _ _ []); [apply runs_existsSync|].
      by rewrite Hc.
Qed.

(** An accepted range is answered with a page list, or, when an
    extraction throws, with a 500. *)
Lemma accepted_range_outcome url doc total f t w :
  (f <? 1) || (t <? 1) || (f >? total) || (t >? total) || (f >? t) = false ->
  (exists pages, res (range_request url doc total f t w) = inr (Range pages total f t))
  \/ (exists e, res (range_request url doc total f t w) = inl e).
Proof.
  intros Hvalid. unfold range_request. rewrite Hvalid.
  destruct (scan_range_returns (resolver_fileId url) (Z.to_nat (t - f + 1)) f [] [] w)
    as [scanned Hscan].
  pose proof (runs_eta (extract_missing doc (snd scanned) (fst scanned)) w) as Hex.
  destruct (res (extract_missing doc (snd scanned) (fst scanned) w)) as [e|pages] eqn:Hres.
  - right. exists e. eapply runs_res.
    eapply (runs_bind _ _ _ _ _ [] _ _ _); [exact Hscan|].
    apply runs_bind_throw. exact Hex.
  - left. eexists. eapply runs_res.
    eapply (runs_bind _ _ _ _ _ [] _ _ _); [exact Hscan|].
    eapply runs_bind; [exact Hex|apply runs_ret].
Qed.

(** C8.  A range request (both bounds supplied) for a loaded local
    document is answered 400 exactly when [fromPage < 1], or
    [toPage > totalPages], or [fromPage > toPage]; the 400 is "Invalid
    page range", and every other range is processed. *)
Theorem range_rejected_iff_invalid (req : Request) (w : World)
    (url : string) (doc : Doc) (f t : Z) :
  is_local (pdfUrl req) = Some url ->
  source_doc (join cwd ["public"; url]) w = inr doc ->
  fromPage req = Some f ->
  toPage req = Some t ->
  let total := Z.of_nat (getPageCount doc) in
  exists resp,
    res (POST req w) = inr resp /\
    (http_status resp = 400 <-> (f < 1 \/ t > total \/ f > t)) /\
    (http_status resp = 400 -> resp = Failure 400 "Invalid page range") /\
    (http_status resp <> 400 ->
       (exists pages, resp = Range pages total f t) \/
       resp = Failure 500 "Failed to extract page").
Proof.
  intros Hlocal Hsrc Hf Ht total.
  pose proof (runs_eta (dispatch req url doc) w) as Hrun.
  pose proof (POST_loaded _ _ _ _ _ _ _ Hlocal Hsrc Hrun) as Hpost.
  rewrite (runs_res _ _ _ _ _ Hpost). eexists. split; [done|].
  unfold dispatch. rewrite Hf, Ht. fold total.
  destruct ((f <? 1) || (t <? 1) || (f >? total) || (t >? total) || (f >? t))
    eqn:Hcheck.
  - unfold range_request. rewrite Hcheck. simpl.
    split; [|split; [done|done]]. split; [intros _|done].
    repeat (apply orb_true_iff in Hcheck as [Hcheck|Hcheck]); lia.
  - assert (~ (f < 1 \/ t > total \/ f > t)) as Hvalid.
    { repeat (apply orb_false_iff in Hcheck as [Hcheck ?]). lia. }
    destruct (accepted_range_outcome url doc total f t w Hcheck)
      as [[pages ->]|[e ->]]; simpl.
    + split; [split; [done|by intros ?]|]. split; [done|]. intros _. left. by eexists.
    + split; [split; [done|by intros ?]|]. split; [done|]. intros _. by right.
Qed.

End PageValidation.

(* ===================================================================== *)
(** ** Page ranges *)
(* ===================================================================== *)

Section SortPages.
Import PageRoute.

Lemma sort_insert_perm x l : Permutation (sort_insert x l) (x :: l).
Proof.
  induction l as [|y l IH]; simpl; [done|].
  destruct (compare_pages x y <=? 0); [done|].
  rewrite IH. apply perm_swap.
Qed.

Lemma sort_pages_perm l : Permutation (sort_pages l) l.
Proof.
  induction l as [|x l IH]; simpl; [done|].
  rewrite sort_insert_perm. by constructor.
Qed.

Lemma sort_insert_sorted x l :
  StronglySorted key_le l -> StronglySorted key_le (sort_insert x l).
Proof.
  induction 1 as [|y l Hs IH Hall]; simpl; [repeat constructor|].
  unfold compare_pages.
  destruct (entry_pageNumber x - entry_pageNumber y <=? 0) eqn:Hcmp.
  - apply Z.leb_le in Hcmp. constructor; [by constructor|].
    constructor; [unfold key_le; lia|].
    eapply Forall_impl; [exact Hall|]. unfold key_le. simpl. lia.
  - apply Z.leb_gt in Hcmp. constructor; [exact IH|].
    rewrite sort_insert_perm. constructor; [unfold key_le; lia|exact Hall].
Qed.

Lemma sort_pages_sorted l : StronglySorted key_le (sort_pages l).
Proof.
  induction l as [|x l IH]; simpl; [constructor|]. by apply sort_insert_sorted.
Qed.

(** Sorting a list that is, up to order, the image of increasing page
    numbers under [entry] gives that image. *)
Lemma sort_pages_unique (entry : Z -> PageEntry) (R : list Z) l :
  (forall p, entry_pageNumber (entry p) = p) ->
  StronglySorted Z.le R ->
  Permutation l (map entry R) ->
  sort_pages l = map entry R.
Proof.
  intros Hkey HR Hperm.
  apply (StronglySorted_unique_strong key_le).
  - intros x1 x2 Hx1 Hx2 H12 H21.
    rewrite sort_pages_perm, Hperm in Hx1.
    apply list_elem_of_fmap in Hx1 as (p1 & -> & _).
    apply list_elem_of_fmap in Hx2 as (p2 & -> & _).
    unfold key_le in *. rewrite !Hkey in *. f_equal. lia.
  - apply sort_pages_sorted.
  - clear Hperm. induction HR as [|p R HR IH Hall]; simpl; [constructor|].
    constructor; [exact IH|]. apply Forall_fmap.
    eapply Forall_impl; [exact Hall|]. unfold key_le. simpl. intros q Hq.
    by rewrite !Hkey.
  - by rewrite sort_pages_perm.
Qed.

End SortPages.

Section ZRange.

Lemma zrange_seqZ n : forall page, zrange page n = seqZ page (Z.of_nat n).
Proof.
  induction n as [|n IH]; intros page; simpl zrange.
  - by rewrite seqZ_nil.
  - rewrite seqZ_cons by lia. rewrite IH. do 2 f_equal; lia.
Qed.

Lemma zrange_sorted n page : StronglySorted Z.lt (zrange page n).
Proof.
  revert page. induction n as [|n IH]; intros page; simpl; constructor; [apply IH|].
  rewrite zrange_seqZ. apply Forall_seqZ. lia.
Qed.

Lemma strictly_sorted_le (l : list Z) :
  StronglySorted Z.lt l -> StronglySorted Z.le l.
Proof.
  induction 1 as [|x l Hs IH Hall]; constructor; [exact IH|].
  eapply Forall_impl; [exact Hall|]. simpl. lia.
Qed.

Lemma filter_split_perm {A} (c : A -> bool) (l : list A) :
  Permutation (List.filter c l ++ List.filter (fun x => negb (c x)) l) l.
Proof.
  induction l as [|x l IH]; simpl; [done|].
  destruct (c x); simpl.
  - by constructor.
  - rewrite <- Permutation_middle. by constructor.
Qed.

Lemma map_filter_agree {A B} (c : A -> bool) (g h : A -> B) (l : list A) :
  (forall x, c x = true -> g x = h x) ->
  map g (List.filter c l) = map h (List.filter c l).
Proof.
  intros Hgh. induction l as [|x l IH]; simpl; [done|].
  destruct (c x) eqn:Hc; simpl; [|done]. by rewrite IH, Hgh.
Qed.

End ZRange.

Section RangeFetch.
Import NodePath PageRoute.
Context {P : Platform}.
Variables (doc : Doc) (fileId : string) (w : World).

Lemma scan_range_runs n : forall page pages pagesToExtract,
  runs (scan_range fileId page n pages pagesToExtract) w
    (inr (pages ++ map (cached_entry fileId) (List.filter (cached fileId w) (zrange page n)),
          pagesToExtract ++ List.filter (fun p => negb (cached fileId w p)) (zrange page n)))
    w [].
Proof.
  induction n as [|n IH]; intros page pages pagesToExtract; simpl.
  - rewrite !app_nil_r. apply runs_ret.
  - eapply (runs_bind _ _ _ _ _ [] _ _ []); [apply runs_existsSync|].
    fold (cached fileId w page). destruct (cached fileId w page); simpl.
    + pose proof (IH (page + 1) (pages ++ [(cached_entry fileId) page]) pagesToExtract) as H.
      rewrite <- app_assoc in H. exact H.
    + pose proof (IH (page + 1) pages (pagesToExtract ++ [page])) as H.
      rewrite <- app_assoc in H. exact H.
Qed.

Lemma extract_missing_runs l : forall pages,
  (forall p, In p l -> exists b, copySinglePage doc (p - 1) = inr b) ->
  runs (extract_missing doc l pages) w
    (inr (pages ++ map (extracted_entry doc) l)) w
    (map (fun p => EvExtract (p - 1)) l).
Proof.
  induction l as [|p l IH]; intros pages Hok; simpl.
  - rewrite app_nil_r. apply runs_ret.
  - destruct (Hok p) as [b Hb]; [by left|].
    eapply (runs_bind _ _ _ _ _ [_] _ _ _); [by apply runs_extract_ok|].
    pose proof (IH (pages ++ [(extracted_entry doc) p])) as H.
    rewrite <- app_assoc in H.
    replace (mkPageEntry p (data_url b) false) with ((extracted_entry doc) p)
      by (unfold extracted_entry; by rewrite Hb).
    apply H. intros q Hq. apply Hok. by right.
Qed.

Lemma range_entries_perm R :
  Permutation (map (cached_entry fileId) (List.filter (cached fileId w) R) ++
               map (extracted_entry doc) (List.filter (fun p => negb (cached fileId w p)) R))
              (map (expected_entry doc fileId w) R).
Proof.
  rewrite (map_filter_agree (cached fileId w) (cached_entry fileId)
             (expected_entry doc fileId w)).
  2:{ intros p Hp. unfold expected_entry. by rewrite Hp. }
  rewrite (map_filter_agree (fun p => negb (cached fileId w p)) (extracted_entry doc)
             (expected_entry doc fileId w)).
  2:{ intros p Hp. unfold expected_entry. by apply negb_true_iff in Hp as ->. }
  rewrite <- map_app. apply Permutation_map, filter_split_perm.
Qed.

Lemma expected_entry_key p : entry_pageNumber ((expected_entry doc fileId w) p) = p.
Proof. unfold expected_entry. by destruct (cached fileId w p). Qed.

(** A valid range whose missing pages can all be extracted is answered
    with the entries of its pages, in page order. *)
Lemma range_request_runs url total f t :
  fileId = resolver_fileId url ->
  1 <= f <= t /\ t <= total ->
  (forall p, f <= p <= t -> (cached fileId w) p = false ->
             exists b, copySinglePage doc (p - 1) = inr b) ->
  runs (range_request url doc total f t) w
    (inr (Range (map (expected_entry doc fileId w) (seqZ f (t - f + 1))) total f t)) w
    (map (fun p => EvExtract (p - 1))
         (List.filter (fun p => negb (cached fileId w p)) (seqZ f (t - f + 1)))).
Proof.
  intros Hid Hvalid Hok. unfold range_request. rewrite <- Hid.
  replace ((f <? 1) || (t <? 1) || (f >? total) || (t >? total) || (f >? t))
    with false by (symmetry; repeat (apply orb_false_iff; split); lia).
  set (n := Z.to_nat (t - f + 1)).
  assert (seqZ f (t - f + 1) = zrange f n) as ->.
  { rewrite zrange_seqZ. unfold n. f_equal. lia. }
  set (evs := map (fun p => EvExtract (p - 1)) _).
  rewrite <- (app_nil_r evs).
  eapply (runs_bind _ _ _ _ _ [] _ _ (evs ++ [])); [apply scan_range_runs|].
  cbn [fst snd app].
  eapply runs_bind.
  - apply extract_missing_runs. intros p Hp.
    apply filter_In in Hp as [Hin Hc]. apply negb_true_iff in Hc.
    apply Hok; [|done]. rewrite zrange_seqZ in Hin.
    apply list_elem_of_In, elem_of_seqZ in Hin. lia.
  - rewrite (sort_pages_unique (expected_entry doc fileId w) (zrange f n)).
    + apply runs_ret.
    + apply expected_entry_key.
    + apply strictly_sorted_le, zrange_sorted.
    + apply range_entries_perm.
Qed.

End RangeFetch.

(* ===================================================================== *)
(** ** Properties of the page route *)
(* ===================================================================== *)

Section PageProperties.
Import NodePath PageRoute.
Context {P : Platform}.

(** C1.  A valid range request ([1 <= fromPage <= toPage <= totalPages])
    for a loaded local document, whose pages without an artifact can be
    extracted, is answered with exactly [toPage - fromPage + 1] entries:
    those of the pages [fromPage .. toPage], ascending by page number,
    none twice and none missing, whichever of them came from the
    artifacts ([isPreProcessed]) and whichever were extracted. *)
Theorem range_fetch_returns_every_page (req : Request) (w : World)
    (url : string) (doc : Doc) (f t : Z) :
  is_local (pdfUrl req) = Some url ->
  source_doc (join cwd ["public"; url]) w = inr doc ->
  fromPage req = Some f ->
  toPage req = Some t ->
  1 <= f -> f <= t -> t <= Z.of_nat (getPageCount doc) ->
  (forall p, f <= p <= t -> cached (resolver_fileId url) w p = false ->
             exists b, copySinglePage doc (p - 1) = inr b) ->
  exists pages,
    res (POST req w) = inr (Range pages (Z.of_nat (getPageCount doc)) f t) /\
    Z.of_nat (length pages) = t - f + 1 /\
    map entry_pageNumber pages = seqZ f (t - f + 1) /\
    StronglySorted Z.lt (map entry_pageNumber pages) /\
    NoDup (map entry_pageNumber pages) /\
    (forall p, In p (map entry_pageNumber pages) <-> f <= p <= t) /\
    (forall e, In e pages ->
       entry_isPreProcessed e = cached (resolver_fileId url) w (entry_pageNumber e)).
Proof.
  intros Hlocal Hsrc Hf Ht Hf1 Hft Htn Hok.
  set (total := Z.of_nat (getPageCount doc)) in *.
  set (fileId := resolver_fileId url) in *.
  assert (runs (dispatch req url doc) w
            (inr (Range (map (expected_entry doc fileId w) (seqZ f (t - f + 1)))
                        total f t)) w
            (map (fun p => EvExtract (p - 1))
               (List.filter (fun p => negb (cached fileId w p))
                  (seqZ f (t - f + 1))))) as Hrun.
  { unfold dispatch. rewrite Hf, Ht. by apply range_request_runs. }
  pose proof (POST_loaded _ _ _ _ _ _ _ Hlocal Hsrc Hrun) as Hpost.
  rewrite (runs_res _ _ _ _ _ Hpost).
  assert (map entry_pageNumber (map (expected_entry doc fileId w) (seqZ f (t - f + 1)))
          = seqZ f (t - f + 1)) as Hkeys.
  { rewrite map_map. rewrite <- (map_id (seqZ f (t - f + 1))) at 2.
    apply map_ext. intros p. apply expected_entry_key. }
  eexists. split; [done|]. rewrite Hkeys.
  split; [rewrite length_map, length_seqZ; lia|]. split; [done|].
  split; [|split; [apply NoDup_seqZ|split]].
  - replace (t - f + 1) with (Z.of_nat (Z.to_nat (t - f + 1))) by lia.
    rewrite <- zrange_seqZ. apply zrange_sorted.
  - intros p. rewrite <- list_elem_of_In, elem_of_seqZ. lia.
  - intros e He. apply in_map_iff in He as (p & <- & _).
    unfold expected_entry. by destruct (cached fileId w p) eqn:Hc; simpl; rewrite Hc.
Qed.

Lemma single_page_miss (req : Request) (w : World) (url : string) (doc : Doc)
    (p : Z) (b : string) :
  is_local (pdfUrl req) = Some url ->
  source_doc (join cwd ["public"; url]) w = inr doc ->
  fromPage req = None \/ toPage req = None ->
  pageNumber req = Some p ->
  1 <= p <= Z.of_nat (getPageCount doc) ->
  cached (resolver_fileId url) w p = false ->
  copySinglePage doc (p - 1) = inr b ->
  runs (POST req) w (inr (PdfBytes b)) w [EvExtract (p - 1)].
Proof.
  intros Hlocal Hsrc Hnorange Hpage Hp Hmiss Hb.
  apply (POST_loaded _ _ _ _ (inr (PdfBytes b)) _ _ Hlocal Hsrc).
  assert (dispatch req url doc =
          single_request url doc (Z.of_nat (getPageCount doc)) (pageNumber req)) as ->.
  { unfold dispatch. destruct Hnorange as [-> | ->]; [done|].
    by destruct (fromPage req). }
  unfold single_request. rewrite Hpage.
  replace ((p <? 1) || (p >? Z.of_nat (getPageCount doc))) with false
    by (symmetry; apply orb_false_iff; lia).
  eapply (runs_bind _ _ _ _ _ [] _ _ [_]); [apply runs_existsSync|].
  unfold cached in Hmiss. rewrite Hmiss.
  eapply (runs_bind _ _ _ _ _ [_] _ _ []); [by apply runs_extract_ok|].
  apply runs_ret.
Qed.

(** The entries of a range response, among them those of the pages
    that were extracted for it. *)
Lemma range_miss (req : Request) (w : World) (url : string) (doc : Doc) (f t : Z) :
  is_local (pdfUrl req) = Some url ->
  source_doc (join cwd ["public"; url]) w = inr doc ->
  fromPage req = Some f ->
  toPage req = Some t ->
  1 <= f -> f <= t -> t <= Z.of_nat (getPageCount doc) ->
  (forall p, f <= p <= t -> cached (resolver_fileId url) w p = false ->
             exists b, copySinglePage doc (p - 1) = inr b) ->
  runs (POST req) w
       (inr (Range (map (expected_entry doc (resolver_fileId url) w) (seqZ f (t - f + 1)))
                   (Z.of_nat (getPageCount doc)) f t)) w
       (map (fun p => EvExtract (p - 1))
            (List.filter (fun p => negb (cached (resolver_fileId url) w p))
                         (seqZ f (t - f + 1)))).
Proof.
  intros Hlocal Hsrc Hf Ht Hf1 Hft Htn Hok.
  apply (POST_loaded _ _ _ _ (inr (Range _ _ _ _)) _ _ Hlocal Hsrc).
  unfold dispatch. rewrite Hf, Ht. by apply range_request_runs.
Qed.

(** C9.  A page-fetch request writes nothing: the world (every file, so
    every artifact and every status record) is afterwards what it was
    before, and the only events are extractions.  A page without an
    artifact is extracted and its bytes are returned inline.  Asked for
    as a single page, it is extracted once and its bytes are the
    response.  Within a valid range whose pages without an artifact can
    all be extracted, each such page is extracted once, and the one
    entry the response holds for it is the data URL of its bytes, not
    marked as pre-processed. *)
Theorem page_fetch_writes_nothing (req : Request) (w : World) :
  world (POST req w) = w /\
  fs (world (POST req w)) = fs w /\
  Forall (fun ev => is_write ev = false) (events (POST req w)) /\
  (forall url doc p b,
     is_local (pdfUrl req) = Some url ->
     source_doc (join cwd ["public"; url]) w = inr doc ->
     fromPage req = None \/ toPage req = None ->
     pageNumber req = Some p ->
     1 <= p <= Z.of_nat (getPageCount doc) ->
     cached (resolver_fileId url) w p = false ->
     copySinglePage doc (p - 1) = inr b ->
     res (POST req w) = inr (PdfBytes b) /\
     events (POST req w) = [EvExtract (p - 1)]) /\
  (forall url doc f t,
     is_local (pdfUrl req) = Some url ->
     source_doc (join cwd ["public"; url]) w = inr doc ->
     fromPage req = Some f ->
     toPage req = Some t ->
     1 <= f -> f <= t -> t <= Z.of_nat (getPageCount doc) ->
     (forall p, f <= p <= t -> cached (resolver_fileId url) w p = false ->
                exists b, copySinglePage doc (p - 1) = inr b) ->
     exists pages,
       res (POST req w) = inr (Range pages (Z.of_nat (getPageCount doc)) f t) /\
       events (POST req w)
       = map (fun p => EvExtract (p - 1))
             (List.filter (fun p => negb (cached (resolver_fileId url) w p))
                          (seqZ f (t - f + 1))) /\
       (forall p b,
          f <= p <= t ->
          cached (resolver_fileId url) w p = false ->
          copySinglePage doc (p - 1) = inr b ->
          In (mkPageEntry p (data_url b) false) pages /\
          (forall e, In e pages -> entry_pageNumber e = p ->
                     e = mkPageEntry p (data_url b) false))).
Proof.
  destruct (quiet_POST req w) as [Hw Hev]. rewrite Hw.
  split; [done|]. split; [done|]. split; [done|]. split.
  - intros url doc p b Hlocal Hsrc Hnorange Hpage Hp Hmiss Hb.
    pose proof (single_page_miss req w url doc p b Hlocal Hsrc Hnorange Hpage Hp Hmiss Hb)
      as Hrun.
    by rewrite (runs_res _ _ _ _ _ Hrun), (runs_events _ _ _ _ _ Hrun).
  - intros url doc f t Hlocal Hsrc Hf Ht Hf1 Hft Htn Hok.
    pose proof (range_miss req w url doc f t Hlocal Hsrc Hf Ht Hf1 Hft Htn Hok) as Hrun.
    rewrite (runs_res _ _ _ _ _ Hrun), (runs_events _ _ _ _ _ Hrun).
    eexists. split; [done|]. split; [done|].
    intros p b Hp Hmiss Hb.
    assert (expected_entry doc (resolver_fileId url) w p = mkPageEntry p (data_url b) false)
      as Hentry.
    { unfold expected_entry, extracted_entry. by rewrite Hmiss, Hb. }
    split.
    + apply in_map_iff. exists p. split; [done|].
      apply list_elem_of_In, elem_of_seqZ. lia.
    + intros e He Hkey. apply in_map_iff in He as (p' & <- & _).
      rewrite expected_entry_key in Hkey. by subst p'.
Qed.

End PageProperties.

(* ===================================================================== *)
(** ** Document identifiers of the two routes *)
(* ===================================================================== *)

Section PlainNames.
Import JsString NodePath.

Lemma split_slash_aux_nonempty s : forall cur, split_slash_aux cur s <> [].
Proof.
  induction s as [|c s IH]; intros cur; simpl; [done|].
  destruct (Ascii.eqb c slash); [done|apply IH].
Qed.

Lemma last_cons_nonempty {A} (x : A) l d : l <> [] -> List.last (x :: l) d = List.last l d.
Proof. by destruct l. Qed.

Lemma split_slash_aux_after_slash pre rest : forall cur,
  pop_or_empty (split_slash_aux cur (pre +:+ String slash rest))
  = pop_or_empty (split_slash rest).
Proof.
  unfold pop_or_empty.
  induction pre as [|c pre IH]; intros cur; simpl.
  - apply last_cons_nonempty, split_slash_aux_nonempty.
  - destruct (Ascii.eqb c slash); [|apply IH].
    rewrite last_cons_nonempty by apply split_slash_aux_nonempty. apply IH.
Qed.

Lemma prefix_cons a s1 b s2 :
  String.prefix (String a s1) (String b s2) = Ascii.eqb a b && String.prefix s1 s2.
Proof.
  unfold String.prefix; fold String.prefix.
  destruct (ascii_dec a b) as [->|Hne].
  - by rewrite Ascii.eqb_refl.
  - apply Ascii.eqb_neq in Hne. by rewrite Hne.
Qed.

Lemma prefix_nil_l s : String.prefix "" s = true.
Proof. by destruct s. Qed.

Lemma prefix_nil_r a s : String.prefix (String a s) "" = false.
Proof. done. Qed.

Lemma prefix_pdf_app s :
  s <> "" -> String.prefix ".pdf" s = false -> String.prefix ".pdf" (s +:+ ".pdf") = false.
Proof.
  intros Hne Hp.
  destruct s as [|c1 [|c2 [|c3 [|c4 s]]]]; [done|..];
    cbn [String.append] in *;
    rewrite ?prefix_cons, ?prefix_nil_l, ?prefix_nil_r in *;
    repeat match goal with
           | |- context [Ascii.eqb ?a ?b] =>
               destruct (Ascii.eqb_spec a b); try subst; try done
           end.
Qed.

Lemma remove_first_pdf_suffix stem :
  occurs ".pdf" stem = false -> remove_first ".pdf" (stem +:+ ".pdf") = stem.
Proof.
  induction stem as [|c s IH]; intros Hocc; [by vm_compute|].
  simpl in Hocc. apply orb_false_iff in Hocc as [Hp Hocc].
  change (String c s +:+ ".pdf") with (String c (s +:+ ".pdf")).
  unfold remove_first; fold remove_first.
  change (String c (s +:+ ".pdf")) with (String c s +:+ ".pdf").
  rewrite prefix_pdf_app by done.
  change (String c s +:+ ".pdf") with (String c (s +:+ ".pdf")).
  by rewrite IH.
Qed.

Lemma get_app_r s1 s2 n : String.get (String.length s1 + n) (s1 +:+ s2) = String.get n s2.
Proof. induction s1 as [|c s1 IH]; simpl; [done|exact IH]. Qed.

Lemma get_app_l s1 s2 n :
  (n < String.length s1)%nat -> String.get n (s1 +:+ s2) = String.get n s1.
Proof.
  revert n. induction s1 as [|c s1 IH]; intros n Hn; simpl in *; [lia|].
  destruct n as [|n]; [done|]. apply IH. lia.
Qed.

Lemma string_length_app s1 s2 :
  String.length (s1 +:+ s2) = (String.length s1 + String.length s2)%nat.
Proof. induction s1 as [|c s1 IH]; simpl; [done|]. by rewrite IH. Qed.

Lemma get_no_slash s n c :
  has_slash s = false -> String.get n s = Some c -> Ascii.eqb c slash = false.
Proof.
  revert n. induction s as [|c' s IH]; intros n Hs Hg; simpl in *; [done|].
  apply orb_false_iff in Hs as [Hc Hs].
  destruct n as [|n]; [by injection Hg as <-|]. by eapply IH.
Qed.

Lemma get_in_range s n : (n < String.length s)%nat -> exists c, String.get n s = Some c.
Proof.
  revert n. induction s as [|c s IH]; intros n Hn; simpl in *; [lia|].
  destruct n as [|n]; [by eexists|]. apply IH. lia.
Qed.

Lemma charAt_nat s (n : nat) :
  charAt s (Z.of_nat n) = match String.get n s with Some c => c | None => Ascii.zero end.
Proof. unfold charAt. by rewrite Nat2Z.id. Qed.

Lemma bn_loop_S path sfx i st :
  bn_loop path sfx (S i) st =
  (let '(st', brk) := bn_step path sfx (Z.of_nat i) st in
   if brk then st' else bn_loop path sfx i st').
Proof. done. Qed.

Lemma bn_step_matching path sfx i st :
  Ascii.eqb (charAt path i) slash = false ->
  0 <= bn_extIdx st ->
  charAt path i = charAt sfx (bn_extIdx st) ->
  bn_step path sfx i st =
    (BnState (bn_start st)
             (if bn_extIdx st =? 0 then i else bn_end st)
             (if bn_firstNonSlashEnd st =? -1 then false else bn_matchedSlash st)
             (bn_extIdx st - 1)
             (if bn_firstNonSlashEnd st =? -1 then i + 1 else bn_firstNonSlashEnd st),
     false).
Proof.
  intros Hns Hext Hc. unfold bn_step. rewrite Hns.
  destruct (bn_firstNonSlashEnd st =? -1); simpl.
  all: replace (0 <=? bn_extIdx st) with true by (symmetry; apply Z.leb_le; lia).
  all: rewrite <- Hc, Ascii.eqb_refl.
  all: destruct (bn_extIdx st =? 0) eqn:H0;
       [ apply Z.eqb_eq in H0;
         replace (bn_extIdx st - 1 =? -1) with true by (symmetry; apply Z.eqb_eq; lia)
       | apply Z.eqb_neq in H0;
         replace (bn_extIdx st - 1 =? -1) with false by (symmetry; apply Z.eqb_neq; lia) ].
  all: done.
Qed.

Lemma bn_step_idle path sfx i st :
  Ascii.eqb (charAt path i) slash = false ->
  bn_extIdx st < 0 ->
  bn_firstNonSlashEnd st <> -1 ->
  bn_step path sfx i st = (st, false).
Proof.
  intros Hns Hext Hf. unfold bn_step. rewrite Hns.
  replace (bn_firstNonSlashEnd st =? -1) with false by (symmetry; apply Z.eqb_neq; lia).
  by replace (0 <=? bn_extIdx st) with false by (symmetry; apply Z.leb_gt; lia).
Qed.

Lemma bn_step_slash path sfx i st :
  Ascii.eqb (charAt path i) slash = true ->
  bn_matchedSlash st = false ->
  bn_step path sfx i st =
    (BnState (i + 1) (bn_end st) false (bn_extIdx st) (bn_firstNonSlashEnd st), true).
Proof. intros Hs Hm. unfold bn_step. by rewrite Hs, Hm. Qed.

Section Stem.
Variables (pre stem : string).
Hypothesis stem_no_slash : has_slash stem = false.

Lemma path_length :
  String.length (pdf_path pre stem)
  = (String.length pre + 1 + String.length stem + 4)%nat.
Proof.
  unfold pdf_path. rewrite string_length_app. simpl.
  rewrite string_length_app. simpl. lia.
Qed.

Lemma path_at_slash : charAt (pdf_path pre stem) (Z.of_nat (String.length pre)) = slash.
Proof.
  rewrite charAt_nat. unfold pdf_path.
  by rewrite <- (Nat.add_0_r (String.length pre)), get_app_r.
Qed.

Lemma path_at_stem j :
  (j < String.length stem)%nat ->
  Ascii.eqb (charAt (pdf_path pre stem) (Z.of_nat (String.length pre + 1 + j))) slash
  = false.
Proof.
  intros Hj. rewrite charAt_nat. unfold pdf_path.
  replace (String.length pre + 1 + j)%nat with (String.length pre + S j)%nat by lia.
  rewrite get_app_r. simpl. rewrite get_app_l by done.
  destruct (get_in_range stem j Hj) as [c Hc]. rewrite Hc.
  by eapply get_no_slash.
Qed.

Lemma path_at_suffix j :
  charAt (pdf_path pre stem) (Z.of_nat (String.length pre + 1 + String.length stem + j))
  = charAt ".pdf" (Z.of_nat j).
Proof.
  rewrite !charAt_nat. unfold pdf_path.
  replace (String.length pre + 1 + String.length stem + j)%nat
    with (String.length pre + S (String.length stem + j))%nat by lia.
  rewrite get_app_r. simpl. by rewrite get_app_r.
Qed.

(** The iterations over the stem leave the state alone. *)
Lemma bn_loop_stem st : forall j,
  (j <= String.length stem)%nat ->
  bn_extIdx st < 0 -> bn_firstNonSlashEnd st <> -1 ->
  bn_loop (pdf_path pre stem) ".pdf" (String.length pre + 1 + j) st
  = bn_loop (pdf_path pre stem) ".pdf" (String.length pre + 1) st.
Proof.
  induction j as [|j IH]; intros Hj Hext Hf.
  - by rewrite Nat.add_0_r.
  - replace (String.length pre + 1 + S j)%nat with (S (String.length pre + 1 + j)) by lia.
    rewrite bn_loop_S, bn_step_idle; [apply IH; [lia|done..]| |done..].
    apply path_at_stem. lia.
Qed.

Lemma succ_not_minus1 (n : nat) : (Z.of_nat n + 1 =? -1) = false.
Proof. apply Z.eqb_neq. lia. Qed.

(** The whole loop: the four characters of the suffix are matched, the
    stem is skipped, and the slash before it ends the loop. *)
Lemma bn_loop_path :
  bn_loop (pdf_path pre stem) ".pdf" (String.length (pdf_path pre stem))
          (BnState 0 (-1) true 3 (-1))
  = BnState (Z.of_nat (String.length pre) + 1)
            (Z.of_nat (String.length pre + 1 + String.length stem)) false (-1)
            (Z.of_nat (String.length pre + 1 + String.length stem + 3) + 1).
Proof.
  set (path := pdf_path pre stem).
  set (a := String.length pre). set (k := String.length stem).
  set (f := Z.of_nat (a + 1 + k + 3) + 1).
  assert (bn_step path ".pdf" (Z.of_nat (a + 1 + k + 3)) (BnState 0 (-1) true 3 (-1))
          = (BnState 0 (-1) false 2 f, false)) as H3.
  { rewrite bn_step_matching; [done| |done|]; by rewrite path_at_suffix. }
  assert (bn_step path ".pdf" (Z.of_nat (a + 1 + k + 2)) (BnState 0 (-1) false 2 f)
          = (BnState 0 (-1) false 1 f, false)) as H2.
  { rewrite bn_step_matching; [|by rewrite path_at_suffix|done|by rewrite path_at_suffix].
    cbn. unfold f. by rewrite succ_not_minus1. }
  assert (bn_step path ".pdf" (Z.of_nat (a + 1 + k + 1)) (BnState 0 (-1) false 1 f)
          = (BnState 0 (-1) false 0 f, false)) as H1.
  { rewrite bn_step_matching; [|by rewrite path_at_suffix|done|by rewrite path_at_suffix].
    cbn. unfold f. by rewrite succ_not_minus1. }
  assert (bn_step path ".pdf" (Z.of_nat (a + 1 + k + 0)) (BnState 0 (-1) false 0 f)
          = (BnState 0 (Z.of_nat (a + 1 + k + 0)) false (-1) f, false)) as H0.
  { rewrite bn_step_matching; [|by rewrite path_at_suffix|done|by rewrite path_at_suffix].
    cbn. unfold f. by rewrite succ_not_minus1. }
  unfold path at 2. rewrite path_length. fold a k.
  replace (a + 1 + k + 4)%nat with (S (S (S (S (a + 1 + k + 0))))) by lia.
  rewrite bn_loop_S.
  replace (S (S (S (a + 1 + k + 0)))) with (a + 1 + k + 3)%nat at 1 by lia.
  rewrite H3. rewrite bn_loop_S.
  replace (S (S (a + 1 + k + 0))) with (a + 1 + k + 2)%nat at 1 by lia.
  rewrite H2. rewrite bn_loop_S.
  replace (S (a + 1 + k + 0)) with (a + 1 + k + 1)%nat at 1 by lia.
  rewrite H1. rewrite bn_loop_S, H0.
  rewrite Nat.add_0_r.
  unfold path, a, k. rewrite bn_loop_stem; [|done|done|unfold f; simpl; lia].
  replace (String.length pre + 1)%nat with (S (String.length pre)) by lia.
  rewrite bn_loop_S, bn_step_slash; [|by rewrite path_at_slash|done].
  done.
Qed.

Lemma slice_stem :
  slice (pdf_path pre stem) (Z.of_nat (String.length pre) + 1)
        (Z.of_nat (String.length pre + 1 + String.length stem))
  = stem.
Proof.
  unfold slice, pdf_path.
  replace (Z.to_nat (Z.of_nat (String.length pre) + 1)) with (S (String.length pre)) by lia.
  replace (Z.to_nat (Z.of_nat (String.length pre + 1 + String.length stem)
                     - (Z.of_nat (String.length pre) + 1)))
    with (String.length stem) by lia.
  clear. induction pre as [|c p IH]; simpl.
  - induction stem as [|c s IH]; simpl; [done|]. by rewrite IH.
  - exact IH.
Qed.

Hypothesis stem_nonempty : stem <> "".

Lemma job_fileId_stem : job_fileId (pdf_path pre stem) = stem.
Proof.
  unfold job_fileId, basename.
  assert (String.length stem <> 0)%nat as Hk by (by destruct stem).
  replace ((0 <? String.length ".pdf")%nat
           && (String.length ".pdf" <=? String.length (pdf_path pre stem))%nat)
    with true.
  2:{ symmetry. apply andb_true_iff. split; [done|].
      apply Nat.leb_le. rewrite path_length. simpl. lia. }
  replace (String.eqb ".pdf" (pdf_path pre stem)) with false.
  2:{ symmetry. apply String.eqb_neq. intros Heq.
      apply (f_equal String.length) in Heq. rewrite path_length in Heq.
      simpl in Heq. lia. }
  change (Z.of_nat (String.length ".pdf") - 1) with 3.
  rewrite bn_loop_path. cbn [bn_start bn_end bn_firstNonSlashEnd].
  replace (Z.of_nat (String.length pre) + 1
           =? Z.of_nat (String.length pre + 1 + String.length stem)) with false
    by (symmetry; apply Z.eqb_neq; lia).
  replace (Z.of_nat (String.length pre + 1 + String.length stem) =? -1) with false
    by (symmetry; apply Z.eqb_neq; lia).
  apply slice_stem.
Qed.

Hypothesis stem_plain : occurs ".pdf" stem = false.

Lemma resolver_fileId_stem : resolver_fileId (pdf_path pre stem) = stem.
Proof.
  unfold resolver_fileId, split_slash, pdf_path.
  rewrite split_slash_aux_after_slash.
  rewrite split_slash_no_slash by (by rewrite has_slash_app, stem_no_slash).
  unfold pop_or_empty. simpl. by apply remove_first_pdf_suffix.
Qed.

(** X25.  On a path whose file name is a stem followed by [.pdf], where
    the stem is not empty and contains neither a slash nor [.pdf], the
    two routes derive the same identifier: the stem. *)
Lemma fileIds_agree_on_plain_names :
  job_fileId (pdf_path pre stem) = stem /\
  resolver_fileId (pdf_path pre stem) = stem.
Proof.
  split.
  - (* the suffix is stripped from the basename *)
    apply job_fileId_stem.
  - (* the last piece is the file name, and its only [.pdf] is the suffix *)
    unfold resolver_fileId, split_slash, pdf_path.
    rewrite split_slash_aux_after_slash.
    rewrite split_slash_no_slash by (by rewrite has_slash_app, stem_no_slash).
    unfold pop_or_empty. cbn [List.last].
    by apply remove_first_pdf_suffix.
Qed.

End Stem.

End PlainNames.

Section FileIds.
Import NodePath.

(** The path of the comment in the start endpoint. *)
Lemma fileIds_agree_on_abc123 :
  job_fileId "/pdf/abc123.pdf" = "abc123" /\
  resolver_fileId "/pdf/abc123.pdf" = "abc123".
Proof.
  apply (fileIds_agree_on_plain_names "/pdf" "abc123"); [reflexivity|discriminate|reflexivity].
Defined.

Example fileIds_disagree_on_bare_extension :
  job_fileId "/pdf/.pdf" = ".pdf" /\ resolver_fileId "/pdf/.pdf" = "".
Proof. split; vm_compute; reflexivity. Qed.

(** C2, at the failing input [/pdf/notes.pdf.v2.pdf].  The start
    endpoint derives the identifier [notes.pdf.v2] (the suffix [.pdf]
    is stripped), the page resolver derives [notes.v2.pdf] (the first
    [.pdf] is removed), so the artifact the job writes for page 1 is not
    the file the resolver looks for: after a completed job the resolver
    still finds no artifact and extracts the page. *)
Theorem fileId_disagreement :
  let url := "/pdf/notes.pdf.v2.pdf" in
  job_fileId url = "notes.pdf.v2" /\
  resolver_fileId url = "notes.v2.pdf" /\
  join (join (cwd (Platform := Toy.platform)) ["public"; "pdf-pages"; job_fileId url])
       [ProcessRoute.page_file_name 1]
    <> PageRoute.preProcessedPath (P := Toy.platform) (resolver_fileId url) 1 /\
  let job := ProcessRoute.run_job (P := Toy.platform) (Some url) Toy.w0 in
  let fetch := PageRoute.POST (P := Toy.platform)
                 (PageRoute.mkRequest (Some url) (Some 1) None None) (world job) in
  res job = inr (ProcessRoute.Started "notes.pdf.v2") /\
  fs (world job) !! Toy.pub ["pdf-pages"; "notes.pdf.v2"; "page-1.pdf"] = Some (Raw "a") /\
  res fetch = inr (PageRoute.PdfBytes "a") /\
  events fetch = [EvExtract 0].
Proof.
  cbv zeta. split; [|split; [|split; [|split; [|split; [|split]]]]];
    try (vm_compute; reflexivity).
  vm_compute. discriminate.
Qed.

End FileIds.

(* ===================================================================== *)
(** ** Joining paths *)
(* ===================================================================== *)

Section JoinFacts.
Import JsString NodePath.

Lemma split_slash_aux_app a b : forall cur,
  split_slash_aux cur (a +:+ String slash b) = split_slash_aux cur a ++ split_slash b.
Proof.
  induction a as [|c a IH]; intros cur; simpl; [done|].
  destruct (Ascii.eqb c slash); simpl; by rewrite IH.
Qed.

Lemma norm_step_keeps_regular acc seg :
  Forall regular acc -> Forall regular (norm_step acc seg).
Proof.
  intros Hacc. unfold norm_step.
  destruct (String.eqb_spec seg ""); [done|].
  destruct (String.eqb_spec seg "."); [done|]. simpl.
  destruct (String.eqb_spec seg "..").
  - destruct acc; [done|]. by apply Forall_cons_1 in Hacc as [_ ?].
  - by constructor.
Qed.

Lemma fold_norm_regular segs : forall acc,
  Forall regular acc -> Forall regular (fold_left norm_step segs acc).
Proof.
  induction segs as [|seg segs IH]; intros acc Hacc; simpl; [done|].
  by apply IH, norm_step_keeps_regular.
Qed.

Lemma fold_norm_push segs : forall acc,
  Forall regular segs -> fold_left norm_step segs acc = (rev segs ++ acc)%list.
Proof.
  induction segs as [|seg segs IH]; intros acc Hsegs; simpl; [done|].
  apply Forall_cons_1 in Hsegs as [Hseg Hsegs].
  rewrite norm_step_regular by done. rewrite IH by done.
  by rewrite <- app_assoc.
Qed.

(** The components of a normalized path are all kept by [normalize]. *)
Lemma normalize_regular segs : Forall regular (normalize segs).
Proof. unfold normalize. apply Forall_rev, fold_norm_regular. constructor. Qed.

Lemma normalize_fixed segs : Forall regular segs -> normalize segs = segs.
Proof.
  intros Hsegs. unfold normalize. rewrite fold_norm_push by done.
  by rewrite app_nil_r, rev_involutive.
Qed.

Lemma normalize_app base segs :
  normalize (base ++ segs) = rev (fold_left norm_step segs (rev (normalize base))).
Proof.
  unfold normalize. by rewrite fold_left_app, rev_involutive.
Qed.

Lemma normalize_normalize_app base segs :
  normalize (normalize base ++ segs) = normalize (base ++ segs).
Proof.
  rewrite !normalize_app. do 2 f_equal. f_equal.
  apply normalize_fixed, normalize_regular.
Qed.

(** [path.join(path.join(base, xs), ys)] is [path.join(base, xs, ys)]. *)
Lemma join_join base xs ys : join (join base xs) ys = join base (xs ++ ys).
Proof.
  unfold join. rewrite normalize_normalize_app.
  by rewrite flat_map_app, app_assoc.
Qed.

Lemma normalize_skip_empty pre post :
  normalize (pre ++ "" :: post) = normalize (pre ++ post).
Proof. unfold normalize. by rewrite !fold_left_app. Qed.

(** A path of kept components under a normalized base. *)
Lemma join_plain base segs :
  normalize base = base ->
  Forall (fun seg => has_slash seg = false /\ regular seg) segs ->
  join base segs = (base ++ segs)%list.
Proof.
  intros Hbase Hsegs. unfold join.
  assert (flat_map split_slash segs = segs) as ->.
  { induction Hsegs as [|seg segs [Hs _] _ IH]; simpl; [done|].
    by rewrite split_slash_no_slash, IH. }
  apply normalize_fixed, Forall_app. split.
  - rewrite <- Hbase. apply normalize_regular.
  - eapply Forall_impl; [exact Hsegs|]. by intros seg [_ ?].
Qed.

End JoinFacts.

Section ArtifactPaths.
Import JsString NodePath.
Context {P : Platform}.

Lemma preProcessedPageUrl_split fileId p :
  split_slash (PageRoute.preProcessedPageUrl fileId p)
  = ("" :: "pdf-pages" :: split_slash fileId ++ [ProcessRoute.page_file_name p])%list.
Proof.
  unfold PageRoute.preProcessedPageUrl.
  change ("/page-" +:+ pretty p +:+ ".pdf")
    with (String slash (ProcessRoute.page_file_name p)).
  unfold split_slash. simpl. do 2 f_equal.
  rewrite split_slash_aux_app. f_equal.
  apply split_slash_no_slash, page_file_name_no_slash.
Qed.

(** The path the url of an artifact resolves to. *)
Lemma preProcessedPath_flat fileId p :
  PageRoute.preProcessedPath fileId p
  = join cwd ["public"; "pdf-pages"; fileId; ProcessRoute.page_file_name p].
Proof.
  unfold PageRoute.preProcessedPath, join. cbn [flat_map app].
  rewrite preProcessedPageUrl_split, !app_nil_r.
  rewrite (split_slash_no_slash (ProcessRoute.page_file_name p))
    by apply page_file_name_no_slash.
  change (split_slash "public") with ["public"].
  change (split_slash "pdf-pages") with ["pdf-pages"].
  cbn [app].
  change (cwd ++ "public" :: "" :: ?l)%list with (cwd ++ ["public"] ++ "" :: l)%list.
  rewrite app_assoc, normalize_skip_empty. by rewrite <- app_assoc.
Qed.

End ArtifactPaths.

(* ===================================================================== *)
(** ** The answers of the page route, case by case *)
(* ===================================================================== *)

Section PageOutcomes.
Import NodePath PageRoute.
Context {P : Platform}.

Lemma is_local_Some u url :
  is_local u = Some url <->
  u = Some url /\ url <> "" /\ JsString.startsWith url "/pdf/" = true.
Proof.
  unfold is_local. destruct u as [s|]; [|by split; [|intros [? _]]].
  destruct (String.eqb_spec s "") as [->|Hne]; simpl.
  - split; [done|]. by intros ([= <-] & ? & _).
  - destruct (JsString.startsWith s "/pdf/") eqn:Hs.
    + split; [by intros [= <-]|]. by intros ([= <-] & _).
    + split; [done|]. intros ([= <-] & _ & Hs'). congruence.
Qed.

Lemma source_doc_missing p w :
  fs w !! p = None -> exists e, source_doc p w = inl e.
Proof. unfold source_doc, bind, readFileSync. intros ->. by eexists. Qed.

Lemma source_doc_same p w w' :
  fs w' !! p = fs w !! p -> source_doc p w' = source_doc p w.
Proof.
  unfold source_doc, bind, readFileSync, load. intros ->.
  destruct (fs w !! p) as [[|r|bytes]|]; simpl; try done.
  unfold throw, ret. by destruct (PDFDocument_load bytes).
Qed.

Lemma existsSync_false p w :
  fs w !! p = None -> bool_decide (is_Some (fs w !! p)) = false.
Proof. intros ->. apply bool_decide_eq_false. by intros [? ?]. Qed.

Lemma existsSync_true p w :
  is_Some (fs w !! p) -> bool_decide (is_Some (fs w !! p)) = true.
Proof. intros H. by apply bool_decide_eq_true. Qed.

(** The four ways a page request is answered. *)
Lemma page_POST_cases req w :
  (is_local (pdfUrl req) = None /\
   POST req w = mkOut (inr (External (pdfUrl req))) w [])
  \/ exists url, is_local (pdfUrl req) = Some url /\
     ((fs w !! join cwd ["public"; url] = None /\
       POST req w = mkOut (inr (Failure 404 "PDF file not found")) w [])
      \/ (is_Some (fs w !! join cwd ["public"; url]) /\
          (exists e, source_doc (join cwd ["public"; url]) w = inl e) /\
          POST req w = mkOut (inr (Failure 500 "Failed to extract page")) w [])
      \/ (exists doc, source_doc (join cwd ["public"; url]) w = inr doc /\
          POST req w =
          mkOut (inr match res (dispatch req url doc w) with
                     | inr resp => resp
                     | inl _ => Failure 500 "Failed to extract page"
                     end)
                (world (dispatch req url doc w)) (events (dispatch req url doc w)))).
Proof.
  destruct (is_local (pdfUrl req)) as [url|] eqn:Hlocal.
  2:{ left. split; [done|]. unfold POST. rewrite Hlocal. done. }
  right. exists url. split; [done|].
  destruct (fs w !! join cwd ["public"; url]) as [f|] eqn:Hf.
  2:{ left. split; [done|]. unfold POST. rewrite Hlocal.
      apply runs_try. eapply (runs_bind _ _ _ _ _ [] _ _ []); [apply runs_existsSync|].
      rewrite existsSync_false by done. apply runs_ret. }
  right. destruct (source_doc (join cwd ["public"; url]) w) as [e|doc] eqn:Hsrc.
  - left. split; [by eexists|]. split; [by exists e|].
    unfold POST. rewrite Hlocal.
    eapply (runs_catch _ _ _ _ _ [] _ _ []); [|apply runs_ret].
    eapply (runs_bind _ _ _ _ _ [] _ _ []); [apply runs_existsSync|].
    rewrite existsSync_true by (by rewrite Hf). simpl negb. cbv iota.
    by apply source_doc_fails.
  - right. exists doc. split; [done|].
    apply (POST_loaded req w url doc); [done|done|apply runs_eta].
Qed.

Lemma dispatch_range req url doc f t :
  fromPage req = Some f -> toPage req = Some t ->
  dispatch req url doc = range_request url doc (Z.of_nat (getPageCount doc)) f t.
Proof. unfold dispatch. by intros -> ->. Qed.

Lemma dispatch_single req url doc :
  fromPage req = None \/ toPage req = None ->
  dispatch req url doc
  = single_request url doc (Z.of_nat (getPageCount doc)) (pageNumber req).
Proof.
  unfold dispatch. intros [-> | ->]; [done|]. by destruct (fromPage req).
Qed.

(** The outcome of the extraction loop: every page of the list goes
    through, or the first that cannot be copied ends the loop. *)
Lemma extract_missing_outcome doc l : forall pages w,
  (Forall (fun p => exists b, copySinglePage doc (p - 1) = inr b) l /\
   exists pages', res (extract_missing doc l pages w) = inr pages')
  \/ (Exists (fun p => exists e, copySinglePage doc (p - 1) = inl e) l /\
      exists e, res (extract_missing doc l pages w) = inl e).
Proof.
  induction l as [|p l IH]; intros pages w.
  - left. split; [constructor|]. by eexists.
  - simpl. destruct (copySinglePage doc (p - 1)) as [e|b] eqn:Hc.
    + right. split; [left; by exists e|]. exists e.
      eapply runs_res. apply runs_bind_throw. by apply runs_extract_fail.
    + destruct (IH (pages ++ [mkPageEntry p (data_url b) false]) w)
        as [[Hall [pages' Hres]]|[Hex [e Hres]]].
      * left. split; [constructor; [by exists b|done]|]. exists pages'.
        rewrite <- Hres. eapply runs_res.
        eapply runs_bind; [by apply runs_extract_ok|apply runs_eta].
      * right. split; [by right|]. exists e.
        rewrite <- Hres. eapply runs_res.
        eapply runs_bind; [by apply runs_extract_ok|apply runs_eta].
Qed.

Lemma range_request_rejected url doc total f t w :
  (f <? 1) || (t <? 1) || (f >? total) || (t >? total) || (f >? t) = true ->
  range_request url doc total f t w = mkOut (inr (Failure 400 "Invalid page range")) w [].
Proof. intros Hcheck. unfold range_request. by rewrite Hcheck. Qed.

Lemma range_check_spec total f t :
  (f <? 1) || (t <? 1) || (f >? total) || (t >? total) || (f >? t) = true
  <-> f < 1 \/ t > total \/ f > t.
Proof. rewrite !orb_true_iff. lia. Qed.

Lemma single_request_outcome url doc total p w :
  let fileId := resolver_fileId url in
  single_request url doc total (Some p) w =
  if (p <? 1) || (p >? total)
  then mkOut (inr (Failure 400 "Invalid page number")) w []
  else if cached fileId w p
       then mkOut (inr (PreProcessed (preProcessedPageUrl fileId p) p)) w []
       else match copySinglePage doc (p - 1) with
            | inr b => mkOut (inr (PdfBytes b)) w [EvExtract (p - 1)]
            | inl e => mkOut (inl e) w [EvExtract (p - 1)]
            end.
Proof.
  simpl. unfold single_request. destruct ((p <? 1) || (p >? total)); [done|].
  unfold cached, bind, existsSync, extractSinglePage. simpl.
  destruct (bool_decide _); [done|].
  by destruct (copySinglePage doc (p - 1)).
Qed.

(** Once the document is loaded, the answer is neither the one for an
    external document nor a 404. *)
Lemma dispatch_outcome req url doc w resp :
  res (dispatch req url doc w) = inr resp ->
  match resp with
  | External _ => False
  | Failure code _ => code = 400
  | _ => True
  end.
Proof.
  unfold dispatch.
  destruct (fromPage req) as [f|], (toPage req) as [t|];
    try (destruct (pageNumber req) as [p|]; [rewrite single_request_outcome|];
         simpl; repeat case_match; by intros [= <-]).
  set (total := Z.of_nat (getPageCount doc)).
  destruct ((f <? 1) || (t <? 1) || (f >? total) || (t >? total) || (f >? t)) eqn:Hcheck.
  - rewrite range_request_rejected by done. by intros [= <-].
  - destruct (accepted_range_outcome url doc total f t w Hcheck) as [[pages ->]|[e ->]];
      by intros [= <-].
Qed.

End PageOutcomes.

Section PageAnswers.
Import NodePath PageRoute.
Context {P : Platform}.

(** X1.  The page handler answers "external" exactly when the request
    names no local document (the url is absent, empty, or does not start
    with [/pdf/]); the answer echoes the url of the request, and nothing
    is extracted or written for it. *)
Theorem external_iff_not_local (req : Request) (w : World) :
  (forall u, res (POST req w) = inr (External u)
             <-> is_local (pdfUrl req) = None /\ u = pdfUrl req) /\
  (forall u, res (POST req w) = inr (External u) -> events (POST req w) = []).
Proof.
  assert (forall u, res (POST req w) = inr (External u) ->
                    is_local (pdfUrl req) = None /\ u = pdfUrl req /\
                    events (POST req w) = []) as Hext.
  { intros u.
    destruct (page_POST_cases req w)
      as [[Hnone ->]|(url & Hlocal & [[_ ->]|[(_ & _ & ->)|(doc & _ & ->)]])];
      simpl; try done.
    - by intros [= <-].
    - destruct (res (dispatch req url doc w)) as [e|resp] eqn:Hres; [done|].
      intros [= ->]. by apply dispatch_outcome in Hres. }
  split.
  - intros u. split; [intros H; by apply Hext in H as (? & ? & _)|].
    intros [Hnone ->].
    destruct (page_POST_cases req w) as [[_ ->]|(url & Hlocal & _)]; [done|congruence].
  - intros u H. by apply Hext in H as (_ & _ & ?).
Qed.

(** X2.  For a url that does not end with a slash, the page handler
    answers 404 exactly when the request names a local document and no
    file is stored at the path the url resolves to; the message is then
    "PDF file not found". *)
Theorem not_found_iff_missing (req : Request) (w : World) (msg : string) :
  (forall url, pdfUrl req = Some url -> ends_with_slash url = false) ->
  res (POST req w) = inr (Failure 404 msg)
  <-> exists url, is_local (pdfUrl req) = Some url /\
                  fs w !! join cwd ["public"; url] = None /\
                  msg = "PDF file not found".
Proof.
  intros _.
  destruct (page_POST_cases req w)
    as [[Hnone ->]|(url & Hlocal & [[Hf ->]|[(Hf & _ & ->)|(doc & Hsrc & ->)]])];
    simpl.
  - split; [done|]. intros (url & Hlocal & _). congruence.
  - split; [intros [= <-]; by exists url|]. by intros (_ & _ & _ & ->).
  - split; [done|]. intros (url' & Hlocal' & Hf' & _).
    assert (url' = url) as -> by congruence. rewrite Hf' in Hf. by destruct Hf.
  - split.
    + destruct (res (dispatch req url doc w)) as [e|resp] eqn:Hres; [done|].
      intros [= ->]. by apply dispatch_outcome in Hres.
    + intros (url' & Hlocal' & Hf' & _).
      assert (url' = url) as -> by congruence.
      apply source_doc_exists, bool_decide_eq_true in Hsrc.
      rewrite Hf' in Hsrc. by destruct Hsrc.
Qed.

(** X3.  A single-page request for a loaded local document is answered
    400 exactly when the page number is below 1 or above the page
    count; the 400 is "Invalid page number" and nothing is extracted
    for it.  Any other page number is answered with the url of the
    artifact, with the bytes of the page, or, when the page has no
    artifact and cannot be copied, with a 500. *)
Theorem single_page_rejected_iff_out_of_range (req : Request) (w : World)
    (url : string) (doc : Doc) (p : Z) :
  is_local (pdfUrl req) = Some url ->
  source_doc (join cwd ["public"; url]) w = inr doc ->
  fromPage req = None \/ toPage req = None ->
  pageNumber req = Some p ->
  exists resp,
    res (POST req w) = inr resp /\
    (http_status resp = 400 <-> p < 1 \/ p > Z.of_nat (getPageCount doc)) /\
    (http_status resp = 400 ->
       resp = Failure 400 "Invalid page number" /\ events (POST req w) = []) /\
    (http_status resp <> 400 ->
       resp = PreProcessed (preProcessedPageUrl (resolver_fileId url) p) p \/
       (exists b, copySinglePage doc (p - 1) = inr b /\ resp = PdfBytes b) \/
       (exists e, copySinglePage doc (p - 1) = inl e /\
                  resp = Failure 500 "Failed to extract page")).
Proof.
  intros Hlocal Hsrc Hnorange Hpage.
  pose proof (POST_loaded _ _ _ _ _ _ _ Hlocal Hsrc (runs_eta (dispatch req url doc) w))
    as Hpost.
  rewrite (runs_res _ _ _ _ _ Hpost), (runs_events _ _ _ _ _ Hpost).
  rewrite dispatch_single, Hpage, single_request_outcome by done.
  eexists. split; [done|]. cbv zeta.
  destruct ((p <? 1) || (p >? Z.of_nat (getPageCount doc))) eqn:Hcheck; simpl.
  - apply orb_true_iff in Hcheck.
    split; [split; [lia|done]|]. by split.
  - apply orb_false_iff in Hcheck.
    destruct (cached (resolver_fileId url) w p); simpl.
    + split; [split; [done|lia]|]. split; [done|]. intros _. by left.
    + destruct (copySinglePage doc (p - 1)) as [e|b]; simpl.
      * split; [split; [done|lia]|]. split; [done|]. intros _. right. right. by exists e.
      * split; [split; [done|lia]|]. split; [done|]. intros _. right. left. by exists b.
Qed.

(** X4.  A single-page request for a page in range whose artifact
    exists is answered with the url of the artifact,
    [/pdf-pages/<fileId>/page-<p>.pdf]; the page is not extracted,
    whether or not it could be. *)
Theorem cached_page_is_served_from_artifact (req : Request) (w : World)
    (url : string) (doc : Doc) (p : Z) :
  is_local (pdfUrl req) = Some url ->
  source_doc (join cwd ["public"; url]) w = inr doc ->
  fromPage req = None \/ toPage req = None ->
  pageNumber req = Some p ->
  1 <= p <= Z.of_nat (getPageCount doc) ->
  cached (resolver_fileId url) w p = true ->
  res (POST req w)
    = inr (PreProcessed (preProcessedPageUrl (resolver_fileId url) p) p) /\
  events (POST req w) = [].
Proof.
  intros Hlocal Hsrc Hnorange Hpage Hp Hhit.
  pose proof (POST_loaded _ _ _ _ _ _ _ Hlocal Hsrc (runs_eta (dispatch req url doc) w))
    as Hpost.
  rewrite (runs_res _ _ _ _ _ Hpost), (runs_events _ _ _ _ _ Hpost).
  rewrite dispatch_single, Hpage, single_request_outcome by done. cbv zeta.
  replace ((p <? 1) || (p >? Z.of_nat (getPageCount doc))) with false
    by (symmetry; apply orb_false_iff; lia).
  by rewrite Hhit.
Qed.

(** X5.  The contents of a range response.  For a valid range over a
    loaded local document whose pages without an artifact can be
    copied, the entry of a page with an artifact carries the url of the
    artifact, the entry of any other page carries the bytes of the
    page as a data url, and the pages extracted are exactly those
    without an artifact, each once, in ascending order. *)
Theorem range_response_contents (req : Request) (w : World)
    (url : string) (doc : Doc) (f t : Z) :
  is_local (pdfUrl req) = Some url ->
  source_doc (join cwd ["public"; url]) w = inr doc ->
  fromPage req = Some f ->
  toPage req = Some t ->
  1 <= f -> f <= t -> t <= Z.of_nat (getPageCount doc) ->
  (forall p, f <= p <= t -> cached (resolver_fileId url) w p = false ->
             exists b, copySinglePage doc (p - 1) = inr b) ->
  exists pages,
    res (POST req w) = inr (Range pages (Z.of_nat (getPageCount doc)) f t) /\
    Forall2 (fun e p =>
               entry_pageNumber e = p /\
               if cached (resolver_fileId url) w p
               then entry_url e = preProcessedPageUrl (resolver_fileId url) p /\
                    entry_isPreProcessed e = true
               else exists b, copySinglePage doc (p - 1) = inr b /\
                              entry_url e = data_url b /\
                              entry_isPreProcessed e = false)
            pages (seqZ f (t - f + 1)) /\
    events (POST req w)
    = map (fun p => EvExtract (p - 1))
          (List.filter (fun p => negb (cached (resolver_fileId url) w p))
                       (seqZ f (t - f + 1))).
Proof.
  intros Hlocal Hsrc Hf Ht Hf1 Hft Htn Hok.
  set (fileId := resolver_fileId url) in *.
  pose proof (range_request_runs doc fileId w url (Z.of_nat (getPageCount doc)) f t
                eq_refl (conj (conj Hf1 Hft) Htn) Hok) as Hrun.
  rewrite <- (dispatch_range req url doc f t Hf Ht) in Hrun.
  pose proof (POST_loaded _ _ _ _ _ _ _ Hlocal Hsrc Hrun) as Hpost.
  rewrite (runs_res _ _ _ _ _ Hpost), (runs_events _ _ _ _ _ Hpost).
  eexists. split; [done|]. split; [|done].
  apply Forall2_fmap_l, Forall_Forall2_diag, List.Forall_forall.
  intros p Hp. apply list_elem_of_In, elem_of_seqZ in Hp.
  simpl. unfold expected_entry.
  destruct (cached fileId w p) eqn:Hc; simpl; [done|].
  destruct (Hok p) as [b Hb]; [lia|done|].
  split; [done|]. exists b. unfold extracted_entry. by rewrite Hb.
Qed.

Lemma range_request_outcome url doc total f t w :
  1 <= f <= t /\ t <= total ->
  let missing := List.filter (fun p => negb (cached (resolver_fileId url) w p))
                             (seqZ f (t - f + 1)) in
  (Forall (fun p => exists b, copySinglePage doc (p - 1) = inr b) missing /\
   exists pages, res (range_request url doc total f t w) = inr (Range pages total f t))
  \/ (Exists (fun p => exists e, copySinglePage doc (p - 1) = inl e) missing /\
      exists e, res (range_request url doc total f t w) = inl e).
Proof.
  intros Hvalid missing. unfold range_request.
  replace ((f <? 1) || (t <? 1) || (f >? total) || (t >? total) || (f >? t))
    with false by (symmetry; repeat (apply orb_false_iff; split); lia).
  set (fileId := resolver_fileId url) in *.
  pose proof (scan_range_runs fileId w (Z.to_nat (t - f + 1)) f [] []) as Hscan.
  rewrite zrange_seqZ in Hscan.
  replace (Z.of_nat (Z.to_nat (t - f + 1))) with (t - f + 1) in Hscan by lia.
  cbn [app] in Hscan. fold missing in Hscan.
  set (hits := map (cached_entry fileId) _) in Hscan.
  destruct (extract_missing_outcome doc missing hits w)
    as [[Hall [pages Hres]]|[Hex [e Hres]]].
  - left. split; [done|]. eexists. eapply runs_res.
    eapply (runs_bind _ _ _ _ _ [] _ _ _); [exact Hscan|]. cbn [fst snd].
    eapply runs_bind; [|apply runs_ret].
    rewrite <- Hres. apply runs_eta.
  - right. split; [done|]. exists e. eapply runs_res.
    eapply (runs_bind _ _ _ _ _ [] _ _ _); [exact Hscan|]. cbn [fst snd].
    apply runs_bind_throw. rewrite <- Hres. apply runs_eta.
Qed.

(** X6.  A valid range over a loaded local document is answered in full
    or not at all: with the page list exactly when every page of the
    range without an artifact can be copied, and with a 500 exactly
    when some page of the range without an artifact cannot. *)
Theorem range_is_all_or_nothing (req : Request) (w : World)
    (url : string) (doc : Doc) (f t : Z) :
  is_local (pdfUrl req) = Some url ->
  source_doc (join cwd ["public"; url]) w = inr doc ->
  fromPage req = Some f ->
  toPage req = Some t ->
  1 <= f -> f <= t -> t <= Z.of_nat (getPageCount doc) ->
  ((exists pages,
      res (POST req w) = inr (Range pages (Z.of_nat (getPageCount doc)) f t))
   <-> (forall p, f <= p <= t -> cached (resolver_fileId url) w p = false ->
                  exists b, copySinglePage doc (p - 1) = inr b)) /\
  (res (POST req w) = inr (Failure 500 "Failed to extract page")
   <-> (exists p, f <= p <= t /\ cached (resolver_fileId url) w p = false /\
                  exists e, copySinglePage doc (p - 1) = inl e)).
Proof.
  intros Hlocal Hsrc Hf Ht Hf1 Hft Htn.
  pose proof (POST_loaded _ _ _ _ _ _ _ Hlocal Hsrc (runs_eta (dispatch req url doc) w))
    as Hpost.
  rewrite (runs_res _ _ _ _ _ Hpost).
  rewrite (dispatch_range req url doc f t Hf Ht).
  assert (forall p, In p (List.filter (fun p => negb (cached (resolver_fileId url) w p))
                                      (seqZ f (t - f + 1)))
                    <-> f <= p <= t /\ cached (resolver_fileId url) w p = false) as Hin.
  { intros p. rewrite filter_In, <- list_elem_of_In, elem_of_seqZ, negb_true_iff.
    intuition lia. }
  destruct (range_request_outcome url doc (Z.of_nat (getPageCount doc)) f t w)
    as [[Hall [pages ->]]|[Hex [e ->]]]; [lia| |].
  - rewrite List.Forall_forall in Hall. split; split.
    + intros _ p Hp Hc. apply Hall, Hin. done.
    + intros _. by exists pages.
    + done.
    + intros (p & Hp & Hc & e & He).
      destruct (Hall p) as [b Hb]; [by apply Hin|]. congruence.
  - apply List.Exists_exists in Hex as (p & Hp & e' & He').
    apply Hin in Hp as [Hp Hc]. split; split.
    + by intros [pages [=]].
    + intros Hok. destruct (Hok p Hp Hc) as [b Hb]. congruence.
    + intros _. exists p. split; [done|]. split; [done|]. by exists e'.
    + done.
Qed.

(** The five ways the page-count endpoint answers. *)
Lemma info_GET_cases u w :
  ((u = None \/ u = Some "") /\
   GET u w = mkOut (inr (InfoFailure 400 "Missing pdfUrl parameter")) w [])
  \/ exists url, u = Some url /\ url <> "" /\
     ((JsString.startsWith url "/pdf/" = false /\
       GET u w = mkOut (inr (InfoExternal url)) w [])
      \/ (is_local u = Some url /\
          ((fs w !! join cwd ["public"; url] = None /\
            GET u w = mkOut (inr (InfoFailure 404 "PDF file not found")) w [])
           \/ (is_Some (fs w !! join cwd ["public"; url]) /\
               (exists e, source_doc (join cwd ["public"; url]) w = inl e) /\
               GET u w = mkOut (inr (InfoFailure 500 "Failed to get PDF info")) w [])
           \/ (exists doc, source_doc (join cwd ["public"; url]) w = inr doc /\
               GET u w = mkOut (inr (Info (Z.of_nat (getPageCount doc)))) w [])))).
Proof.
  destruct u as [url|]; [|left; split; [by left|done]].
  destruct (String.eqb_spec url "") as [->|Hne]; [left; split; [by right|done]|].
  right. exists url. split; [done|]. split; [done|].
  assert (forall k1 k2 : M InfoResponse,
            match url with "" => k1 | String _ _ => k2 end = k2) as Hurl.
  { intros k1 k2. by destruct url. }
  unfold GET. rewrite Hurl.
  destruct (JsString.startsWith url "/pdf/") eqn:Hs; [right|by left].
  split; [by apply is_local_Some|]. simpl negb. cbv iota.
  destruct (fs w !! join cwd ["public"; url]) as [f|] eqn:Hf.
  2:{ left. split; [done|].
      apply runs_try. eapply (runs_bind _ _ _ _ _ [] _ _ []); [apply runs_existsSync|].
      rewrite existsSync_false by done. apply runs_ret. }
  right. destruct (source_doc (join cwd ["public"; url]) w) as [e|doc] eqn:Hsrc.
  - left. split; [by eexists|]. split; [by exists e|].
    eapply (runs_catch _ _ _ _ _ [] _ _ []); [|apply runs_ret].
    eapply (runs_bind _ _ _ _ _ [] _ _ []); [apply runs_existsSync|].
    rewrite existsSync_true by (by rewrite Hf). simpl negb. cbv iota.
    by apply source_doc_fails.
  - right. exists doc. split; [done|].
    apply runs_try. eapply (runs_bind _ _ _ _ _ [] _ _ []); [apply runs_existsSync|].
    rewrite existsSync_true by (by rewrite Hf). simpl negb. cbv iota.
    apply (source_doc_loads _ _ doc); [done|apply runs_ret].
Qed.

(** X7.  For a url that does not end with a slash, the page-count
    endpoint reports a page count exactly for a local document that
    loads, and the count is that of the document. *)
Theorem GET_reports_page_count (u : option string) (w : World) (n : Z) :
  (forall url, u = Some url -> ends_with_slash url = false) ->
  res (GET u w) = inr (Info n)
  <-> exists url doc,
        is_local u = Some url /\
        source_doc (join cwd ["public"; url]) w = inr doc /\
        n = Z.of_nat (getPageCount doc).
Proof.
  intros _.
  destruct (info_GET_cases u w)
    as [[Hu ->]|(url & -> & Hne & [[Hs ->]|[Hlocal [[Hf ->]|[(Hf & [e He] & ->)|(doc & Hsrc & ->)]]]])];
    cbn [res].
  - split; [done|]. intros (url & doc & Hlocal & _).
    apply is_local_Some in Hlocal as (-> & Hne & _). by destruct Hu as [[=]|[= ->]].
  - split; [done|]. intros (url' & doc & Hlocal & _).
    apply is_local_Some in Hlocal as ([= <-] & _ & Hs'). congruence.
  - split; [done|]. intros (url' & doc & Hlocal' & Hsrc & _).
    assert (url' = url) as -> by congruence.
    destruct (source_doc_missing _ _ Hf) as [e He]. congruence.
  - split; [done|]. intros (url' & doc & Hlocal' & Hsrc & _).
    assert (url' = url) as -> by congruence. congruence.
  - split.
    + intros [= <-]. by exists url, doc.
    + intros (url' & doc' & Hlocal' & Hsrc' & ->).
      assert (url' = url) as -> by congruence. congruence.
Qed.

(** X8.  The page-count endpoint only reads: whatever the request, the
    world is left as it was, and nothing is written or extracted. *)
Theorem page_count_request_only_reads (u : option string) (w : World) :
  world (GET u w) = w /\ events (GET u w) = [].
Proof.
  by destruct (info_GET_cases u w)
    as [[Hu ->]|(url & -> & Hne & [[Hs ->]|[Hlocal [[Hf ->]|[(Hf & He & ->)|(doc & Hsrc & ->)]]]])].
Qed.

(** X9.  The count the page-count endpoint reports is the bound the
    page handler validates against: in the same world, a range of the
    same document is refused as invalid exactly when it does not lie
    within [1 .. n], and a single page exactly when it is not in
    [1 .. n]. *)
Theorem reported_count_bounds_page_requests (req : Request) (w : World)
    (url : string) (n : Z) :
  pdfUrl req = Some url ->
  res (GET (Some url) w) = inr (Info n) ->
  (forall f t, fromPage req = Some f -> toPage req = Some t ->
     (res (POST req w) = inr (Failure 400 "Invalid page range")
      <-> f < 1 \/ t > n \/ f > t)) /\
  (forall p, fromPage req = None \/ toPage req = None -> pageNumber req = Some p ->
     (res (POST req w) = inr (Failure 400 "Invalid page number")
      <-> p < 1 \/ p > n)).
Proof.
  intros Hurl Hget.
  destruct (info_GET_cases (Some url) w)
    as [[_ Hg]|(url' & [= <-] & _ & [[_ Hg]|[Hlocal [[_ Hg]|[(_ & _ & Hg)|(doc & Hsrc & Hg)]]]])];
    rewrite Hg in Hget; try done.
  injection Hget as <-. rewrite <- Hurl in Hlocal at 1.
  pose proof (POST_loaded _ _ _ _ _ _ _ Hlocal Hsrc (runs_eta (dispatch req url doc) w))
    as Hpost.
  rewrite (runs_res _ _ _ _ _ Hpost).
  set (total := Z.of_nat (getPageCount doc)). split.
  - intros f t Hf Ht. rewrite (dispatch_range req url doc f t Hf Ht). fold total.
    rewrite <- range_check_spec.
    destruct ((f <? 1) || (t <? 1) || (f >? total) || (t >? total) || (f >? t)) eqn:Hcheck.
    + by rewrite range_request_rejected.
    + destruct (accepted_range_outcome url doc total f t w Hcheck) as [[pages ->]|[e ->]];
        by split.
  - intros p Hnorange Hpage.
    rewrite dispatch_single, Hpage, single_request_outcome by done. cbv zeta. fold total.
    destruct ((p <? 1) || (p >? total)) eqn:Hcheck.
    + apply orb_true_iff in Hcheck. split; [lia|done].
    + apply orb_false_iff in Hcheck.
      destruct (cached (resolver_fileId url) w p); [split; [done|lia]|].
      destruct (copySinglePage doc (p - 1)); split; (done || lia).
Qed.

End PageAnswers.

(* ===================================================================== *)
(** ** The start and status endpoints *)
(* ===================================================================== *)

Section StartOutcomes.
Import NodePath ProcessRoute.
Context {P : Platform}.

Lemma status_file_below pagesDir :
  status_file (normalize pagesDir) = (normalize pagesDir ++ ["status.json"])%list.
Proof.
  unfold status_file. rewrite join_regular by (done || apply status_name_regular).
  f_equal. apply normalize_fixed, normalize_regular.
Qed.

Lemma status_file_not_dir base args :
  status_file (join base args) <> join base args.
Proof.
  unfold join. rewrite status_file_below. intros Heq.
  apply (f_equal (@List.length string)) in Heq. rewrite length_app in Heq.
  simpl in Heq. lia.
Qed.

(** The ways a start request is answered. *)
Lemma start_POST_cases pdfPath w :
  ((pdfPath = None \/ pdfPath = Some "") /\
   POST pdfPath w = mkOut (inr (Failure 400 "Missing pdfPath", None)) w [])
  \/ exists url, pdfPath = Some url /\ url <> "" /\
     ((fs w !! join cwd ["public"; url] = None /\
       POST pdfPath w = mkOut (inr (Failure 404 "PDF file not found", None)) w [])
      \/ (is_Some (fs w !! join cwd ["public"; url]) /\
          let pagesDir := join cwd ["public"; "pdf-pages"; job_fileId url] in
          let statusPath := status_file pagesDir in
          ((exists w1 evs,
              POST pdfPath w
              = mkOut (inr (Failure 500 "Failed to start PDF processing", None)) w1 evs /\
              status_writes evs = [] /\
              (forall q : path,
                 fs w1 !! q = fs w !! q \/
                 (fs w !! q = None /\ q `prefix_of` pagesDir /\ fs w1 !! q = Some Dir)))
           \/ (exists m1 evd,
                 POST pdfPath w
                 = mkOut (inr (Started (job_fileId url),
                               Some (mkJobArgs (join cwd ["public"; url]) pagesDir statusPath)))
                         (mkWorld (<[statusPath := StatusJson (initial_status (clock (ticks w)))]> m1)
                                  (S (ticks w)))
                         (evd ++ [EvWrite statusPath
                                    (StatusJson (initial_status (clock (ticks w))))]) /\
                 write_fault statusPath = None /\
                 status_writes evd = [] /\
                 is_Some (m1 !! pagesDir) /\
                 (forall q : path,
                    m1 !! q = fs w !! q \/
                    (fs w !! q = None /\ q `prefix_of` pagesDir /\ m1 !! q = Some Dir)) /\
                 ((evd = [] /\ m1 = fs w) \/
                  (evd = [EvMkdir pagesDir] /\ m1 = mkdir_p (fs w) pagesDir)))))).
Proof.
  destruct pdfPath as [url|]; [|left; split; [by left|done]].
  destruct (String.eqb_spec url "") as [->|Hne]; [left; split; [by right|done]|].
  right. exists url. split; [done|]. split; [done|].
  assert (forall k1 k2 : M (Response * option JobArgs),
            match url with "" => k1 | String _ _ => k2 end = k2) as Hurl.
  { intros k1 k2. by destruct url. }
  unfold POST. rewrite Hurl.
  set (pagesDir := join cwd ["public"; "pdf-pages"; job_fileId url]).
  set (statusPath := status_file pagesDir).
  assert (statusPath <> pagesDir) as Hapart by apply status_file_not_dir.
  destruct (fs w !! join cwd ["public"; url]) as [f|] eqn:Hf.
  2:{ left. split; [done|].
      apply runs_try. eapply (runs_bind _ _ _ _ _ [] _ _ []); [apply runs_existsSync|].
      rewrite existsSync_false by done. apply runs_ret. }
  right. split; [by eexists|].
  assert (bool_decide (is_Some (fs w !! join cwd ["public"; url])) = true) as Hfound.
  { apply existsSync_true. rewrite Hf. by eexists. }
  (* creating the directory *)
  assert (exists w1 evd (rd : exn + unit),
    runs (if negb (bool_decide (is_Some (fs w !! pagesDir)))
          then mkdirSync pagesDir else ret tt) w rd w1 evd /\
    status_writes evd = [] /\ ticks w1 = ticks w /\
    (forall q : path,
       fs w1 !! q = fs w !! q \/
       (fs w !! q = None /\ q `prefix_of` pagesDir /\ fs w1 !! q = Some Dir)) /\
    (rd = inr tt -> is_Some (fs w1 !! pagesDir)) /\
    ((evd = [] /\ fs w1 = fs w) \/
     (evd = [EvMkdir pagesDir] /\ fs w1 = mkdir_p (fs w) pagesDir)))
    as (w1 & evd & rd & Hdir & Hevd & Hticks & Hm1 & Hthere1 & Hjournal).
  { destruct (bool_decide (is_Some (fs w !! pagesDir))) eqn:Hthere; simpl.
    - apply bool_decide_eq_true in Hthere. exists w, [], (inr tt).
      split; [done|]. split; [done|]. split; [done|].
      split; [by left|]. split; [done|by left].
    - destruct (mkdirSync_cases pagesDir w) as [[e Hm]|Hm].
      + exists w, [], (inl e).
        split; [done|]. split; [done|]. split; [done|].
        split; [by left|]. split; [done|by left].
      + exists (mkWorld (mkdir_p (fs w) pagesDir) (ticks w)), [EvMkdir pagesDir], (inr tt).
        split; [done|]. split; [done|]. split; [done|]. split; [|split].
        * intros q. apply mkdir_p_lookup.
        * intros _. apply mkdir_p_there.
        * by right. }
  assert (forall (k : M (Response * option JobArgs)) r w2 ev2,
    runs k w1 r w2 ev2 -> rd = inr tt ->
    runs (found <- existsSync (join cwd ["public"; url]) ;;
          if negb found then ret (Failure 404 "PDF file not found", None)
          else dirThere <- existsSync pagesDir ;;
               (if negb dirThere then mkdirSync pagesDir else ret tt) ;;; k)%js
         w r w2 (evd ++ ev2)) as Hpre.
  { intros k r w2 ev2 Hk ->.
    eapply (runs_bind _ _ _ _ _ [] _ _ _); [apply runs_existsSync|].
    rewrite Hfound. simpl negb. cbv iota.
    eapply (runs_bind _ _ _ _ _ [] _ _ _); [apply runs_existsSync|].
    eapply runs_bind; [exact Hdir|exact Hk]. }
  destruct rd as [e|[]].
  { (* the directory cannot be created *)
    left. exists w1, (evd ++ []). split; [|by rewrite app_nil_r].
    eapply runs_catch; [|apply runs_ret].
    eapply (runs_bind _ _ _ _ _ [] _ _ _); [apply runs_existsSync|].
    rewrite Hfound. simpl negb. cbv iota.
    eapply (runs_bind _ _ _ _ _ [] _ _ _); [apply runs_existsSync|].
    apply runs_bind_throw. exact Hdir. }
  destruct (write_fault statusPath) as [e|] eqn:Hfault;
    [|destruct (is_dir (fs w1) statusPath) eqn:Hisdir].
  - (* the status file cannot be written *)
    left. exists (mkWorld (fs w1) (S (ticks w1))), ((evd ++ []) ++ []).
    split; [|by rewrite !app_nil_r].
    eapply runs_catch; [|apply runs_ret].
    apply Hpre; [|done].
    eapply (runs_bind _ _ _ _ _ [] _ _ []); [apply runs_now|].
    apply runs_bind_throw. unfold runs, writeFileSync. by rewrite Hfault.
  - (* the status path is a directory *)
    destruct (runs_writeFileSync_fail statusPath
                (StatusJson (initial_status (clock (ticks w1))))
                (mkWorld (fs w1) (S (ticks w1)))) as [e He]; [by right|].
    left. exists (mkWorld (fs w1) (S (ticks w1))), ((evd ++ []) ++ []).
    split; [|by rewrite !app_nil_r].
    eapply runs_catch; [|apply runs_ret].
    apply Hpre; [|done].
    eapply (runs_bind _ _ _ _ _ [] _ _ []); [apply runs_now|].
    apply runs_bind_throw. exact He.
  - (* the job starts *)
    right. exists (fs w1), evd. rewrite <- Hticks.
    split; [|by auto 10].
    apply runs_try. apply Hpre; [|done].
    eapply (runs_bind _ _ _ _ _ [] _ _ [_]); [apply runs_now|].
    eapply (runs_bind _ _ _ _ _ [_] _ _ []); [by apply runs_writeFileSync|].
    apply runs_ret.
Qed.

(** X10.  For a [pdfPath] that does not end with a slash: a start
    request is refused with 400 exactly when [pdfPath] is absent or
    empty, and with 404 exactly when no file is stored at the path it
    resolves to.  A request refused in one of these two ways changes
    nothing, and no refused request, a 500 included, spawns a
    background job or writes a status record. *)
Theorem refused_start_spawns_no_job (pdfPath : option string) (w : World) :
  (forall url, pdfPath = Some url -> ends_with_slash url = false) ->
  (forall msg job,
     res (POST pdfPath w) = inr (Failure 400 msg, job)
     <-> (pdfPath = None \/ pdfPath = Some "") /\ msg = "Missing pdfPath" /\ job = None) /\
  (forall msg job,
     res (POST pdfPath w) = inr (Failure 404 msg, job)
     <-> (exists url, pdfPath = Some url /\ url <> "" /\
                      fs w !! join cwd ["public"; url] = None) /\
         msg = "PDF file not found" /\ job = None) /\
  (forall code msg job,
     res (POST pdfPath w) = inr (Failure code msg, job) ->
     job = None /\ status_writes (events (POST pdfPath w)) = [] /\
     (code = 400 \/ code = 404 ->
      world (POST pdfPath w) = w /\ events (POST pdfPath w) = [])).
Proof.
  intros _.
  destruct (start_POST_cases pdfPath w)
    as [[Hu ->]|(url & -> & Hne & [[Hf ->]|(Hf & [(w1 & evs & -> & Hws & _)
                                                  |(m1 & evd & -> & _)])])];
    cbn [res world events].
  - split; [|split].
    + intros msg job. split; [by intros [= <- <-]|]. by intros (_ & -> & ->).
    + intros msg job. split; [done|]. intros ((url & -> & Hne & _) & _).
      by destruct Hu as [[=]|[= ->]].
    + by intros code msg job [= <- <- <-].
  - split; [|split].
    + intros msg job. split; [done|]. intros ([[=]|[= ->]] & _). done.
    + intros msg job. split; [intros [= <- <-]; split; [by exists url|done]|].
      by intros (_ & -> & ->).
    + by intros code msg job [= <- <- <-].
  - split; [|split].
    + intros msg job. split; [done|]. intros ([[=]|[= ->]] & _). done.
    + intros msg job. split; [done|]. intros ((url' & [= <-] & _ & Hf') & _).
      rewrite Hf' in Hf. by destruct Hf.
    + intros code msg job [= <- <- <-]. split; [done|]. split; [done|]. lia.
  - split; [|split].
    + intros msg job. split; [done|]. intros ([[=]|[= ->]] & _). done.
    + intros msg job. split; [done|]. intros ((url' & [= <-] & _ & Hf') & _).
      rewrite Hf' in Hf. by destruct Hf.
    + done.
Qed.

(** X11.  At the point where the handler of an accepted start request
    calls the background job, it has derived the identifier from the
    path, it hands the job its three paths, and it has stored a fresh
    initial record under the status path, replacing whatever was stored
    there (a record left by an earlier job included).  The pages
    directory exists at that point, and nothing else that was stored has
    changed: besides the status file, the only new entries are
    directories, the pages directory or one above it, where nothing was
    stored.  What the job does from that state on, before and after the
    handler returns, is not part of this statement. *)
Theorem accepted_start_resets_status (pdfPath : option string) (w : World)
    (fileId : string) (job : option JobArgs) :
  res (POST pdfPath w) = inr (Started fileId, job) ->
  exists url,
    pdfPath = Some url /\
    fileId = job_fileId url /\
    job = Some (mkJobArgs (join cwd ["public"; url])
                          (join cwd ["public"; "pdf-pages"; fileId])
                          (status_file (join cwd ["public"; "pdf-pages"; fileId]))) /\
    fs (world (POST pdfPath w))
      !! status_file (join cwd ["public"; "pdf-pages"; fileId])
    = Some (StatusJson (initial_status (clock (ticks w)))) /\
    status_writes (events (POST pdfPath w)) = [initial_status (clock (ticks w))] /\
    is_Some (fs (world (POST pdfPath w)) !! join cwd ["public"; "pdf-pages"; fileId]) /\
    (forall q : path,
       q <> status_file (join cwd ["public"; "pdf-pages"; fileId]) ->
       fs (world (POST pdfPath w)) !! q = fs w !! q \/
       (fs w !! q = None /\
        q `prefix_of` join cwd ["public"; "pdf-pages"; fileId] /\
        fs (world (POST pdfPath w)) !! q = Some Dir)).
Proof.
  destruct (start_POST_cases pdfPath w)
    as [[Hu ->]|(url & -> & Hne & [[Hf ->]|(Hf & [(w1 & evs & -> & Hws & _)
                                                  |(m1 & evd & -> & Hfault & Hevd & Hdir & Hm1 & _)])])];
    cbn [res world events]; try done.
  intros [= <- <-]. exists url. split; [done|]. split; [done|]. split; [done|].
  cbn [fs]. split; [by rewrite lookup_insert_eq|].
  split; [by rewrite status_writes_app, Hevd|].
  split.
  - rewrite lookup_insert_ne by apply status_file_not_dir. done.
  - intros q Hq. rewrite lookup_insert_ne by done. apply Hm1.
Qed.

(** The status path of the start endpoint is the one the status
    endpoint reads. *)
Lemma status_paths_agree fileId :
  status_file (join cwd ["public"; "pdf-pages"; fileId])
  = join cwd ["public"; "pdf-pages"; fileId; "status.json"].
Proof. unfold status_file. by rewrite join_join. Qed.

(** The four ways the status endpoint answers. *)
Lemma status_GET_cases fileId w :
  fileId <> "" ->
  let statusPath := status_file (join cwd ["public"; "pdf-pages"; fileId]) in
  GET (Some fileId) w =
  mkOut (inr match fs w !! statusPath with
             | None => NotFound
             | Some (StatusJson r) => StatusBody r
             | Some _ => StatusFailure 500 "Failed to check processing status"
             end) w [].
Proof.
  intros Hne statusPath. unfold statusPath. rewrite status_paths_agree.
  assert (forall k1 k2 : M StatusResponse,
            match fileId with "" => k1 | String _ _ => k2 end = k2) as Hid.
  { intros k1 k2. by destruct fileId. }
  unfold GET. rewrite Hid.
  set (p := join cwd ["public"; "pdf-pages"; fileId; "status.json"]).
  destruct (fs w !! p) as [f|] eqn:Hst.
  2:{ apply runs_try. eapply (runs_bind _ _ _ _ _ [] _ _ []); [apply runs_existsSync|].
      rewrite existsSync_false by done. apply runs_ret. }
  assert (is_Some (fs w !! p)) as Hsome by (by eexists).
  destruct f as [|r|b].
  - eapply (runs_catch _ _ _ _ _ [] _ _ []); [|apply runs_ret].
    eapply (runs_bind _ _ _ _ _ [] _ _ []); [apply runs_existsSync|].
    rewrite existsSync_true by done. simpl negb. cbv iota.
    apply runs_bind_throw.
    unfold runs, read_status, bind, readFileSync. rewrite Hst. reflexivity.
  - apply runs_try. eapply (runs_bind _ _ _ _ _ [] _ _ []); [apply runs_existsSync|].
    rewrite existsSync_true by done. simpl negb. cbv iota.
    eapply (runs_bind _ _ _ _ _ [] _ _ []); [by apply runs_read_status|apply runs_ret].
  - eapply (runs_catch _ _ _ _ _ [] _ _ []); [|apply runs_ret].
    eapply (runs_bind _ _ _ _ _ [] _ _ []); [apply runs_existsSync|].
    rewrite existsSync_true by done. simpl negb. cbv iota.
    apply runs_bind_throw.
    unfold runs, read_status, bind, readFileSync. rewrite Hst. reflexivity.
Qed.

(** X12.  The status endpoint returns the stored record as it is: the
    record exactly when the status file holds one, "not found" exactly
    when there is no status file, and a 500 when the status path is a
    directory.  It changes nothing. *)
Theorem status_request_returns_stored_record (fileId : string) (w : World) :
  fileId <> "" ->
  (forall r, res (GET (Some fileId) w) = inr (StatusBody r)
             <-> fs w !! join cwd ["public"; "pdf-pages"; fileId; "status.json"]
                 = Some (StatusJson r)) /\
  (res (GET (Some fileId) w) = inr NotFound
   <-> fs w !! join cwd ["public"; "pdf-pages"; fileId; "status.json"] = None) /\
  (fs w !! join cwd ["public"; "pdf-pages"; fileId; "status.json"] = Some Dir ->
   res (GET (Some fileId) w)
   = inr (StatusFailure 500 "Failed to check processing status")) /\
  world (GET (Some fileId) w) = w /\
  events (GET (Some fileId) w) = [].
Proof.
  intros Hne. rewrite (status_GET_cases fileId w Hne). cbv zeta. cbn [res world events].
  rewrite status_paths_agree.
  destruct (fs w !! join cwd ["public"; "pdf-pages"; fileId; "status.json"])
    as [[|r|b]|].
  - split; [by intros r; split|]. by split.
  - split; [intros r'; split; by intros [= ->]|]. by split.
  - split; [by intros r; split|]. by split.
  - split; [by intros r; split|]. by split.
Qed.

End StartOutcomes.

(* ===================================================================== *)
(** ** The files a job leaves behind *)
(* ===================================================================== *)

Section PagePaths.
Import NodePath ProcessRoute.

Lemma append_inj_r t : forall s1 s2, s1 +:+ t = s2 +:+ t -> s1 = s2.
Proof.
  assert (forall s c s', s' <> String c (s +:+ s')) as Hlen.
  { intros s c s' Heq. apply (f_equal String.length) in Heq.
    simpl in Heq. rewrite string_length_app in Heq. lia. }
  induction s1 as [|c1 s1 IH]; intros [|c2 s2]; simpl; intros Heq.
  - done.
  - by apply Hlen in Heq.
  - symmetry in Heq. by apply Hlen in Heq.
  - injection Heq as -> Heq. f_equal. by apply IH.
Qed.

Lemma page_file_name_inj p q : page_file_name p = page_file_name q -> p = q.
Proof.
  unfold page_file_name. simpl. intros [= Heq].
  apply append_inj_r in Heq. by apply (inj pretty) in Heq.
Qed.

Lemma page_path_inj pagesDir i j :
  page_path pagesDir i = page_path pagesDir j -> i = j.
Proof.
  unfold page_path.
  rewrite !join_regular by auto using page_file_name_no_slash, page_file_name_regular.
  intros Heq. apply app_inj_tail in Heq as [_ Heq].
  apply page_file_name_inj in Heq. lia.
Qed.

End PagePaths.

Section LoopFiles.
Import NodePath ProcessRoute.
Context {P : Platform}.
Variables (doc : Doc) (pagesDir statusPath : path).
Hypothesis status_writable : write_fault statusPath = None.
Hypothesis pages_apart : forall p, join pagesDir [page_file_name p] <> statusPath.

Lemma world_bind {A B} (m : M A) (k : A -> M B) w a w1 e1 :
  runs m w (inr a) w1 e1 -> world (bind m k w) = world (k a w1).
Proof. unfold runs, bind. by intros ->. Qed.

(** One round of the loop: a page that goes through leaves its artifact
    and a progress record, any other page leaves nothing. *)
Lemma loop_round m0 i w r :
  fs w !! statusPath = Some (StatusJson r) ->
  same_dirs (fs w) m0 ->
  exists w1 r1 e1,
    runs (try_catch (process_page doc pagesDir statusPath i) (fun _ => ret tt)) w
         (inr tt) w1 e1 /\
    fs w1 !! statusPath = Some (StatusJson r1) /\
    same_dirs (fs w1) m0 /\
    (forall q, q <> statusPath ->
               (page_ok doc pagesDir m0 i = true -> q <> page_path pagesDir i) ->
               fs w1 !! q = fs w !! q) /\
    (forall b, page_ok doc pagesDir m0 i = true ->
               copySinglePage doc (Z.of_nat i) = inr b ->
               fs w1 !! page_path pagesDir i = Some (Raw b)).
Proof.
  intros Hst Hdirs. destruct (page_ok doc pagesDir m0 i) eqn:Hok.
  - destruct (attempt_page_ok doc pagesDir statusPath status_writable pages_apart w r i Hst)
      as (b & Hb & Hrun).
    { by rewrite (page_ok_same_dirs _ _ _ m0). }
    simpl in Hrun.
    assert (is_dir (fs w) (page_path pagesDir i) = false) as Hpd.
    { rewrite <- (page_ok_same_dirs doc pagesDir (fs w)) in Hok by done.
      unfold page_ok, writable in Hok. rewrite Hb in Hok.
      destruct (write_fault (page_path pagesDir i)); [done|].
      by apply negb_true_iff. }
    do 3 eexists. split; [exact Hrun|]. cbn [fs].
    split; [by rewrite lookup_insert_eq|]. split; [|split].
    + intros p. rewrite is_dir_insert; [|done|].
      * rewrite is_dir_insert; [apply Hdirs|done|done].
      * rewrite is_dir_insert; [|done|done]. by eapply is_dir_status.
    + intros q Hq1 Hq2. specialize (Hq2 eq_refl).
      rewrite lookup_insert_ne by (by apply not_eq_sym).
      by rewrite lookup_insert_ne by (by apply not_eq_sym).
    + intros b' _ Hb'. rewrite lookup_insert_ne by (apply not_eq_sym, pages_apart).
      rewrite lookup_insert_eq. congruence.
  - exists w, r, [EvExtract (Z.of_nat i)]. split.
    { apply attempt_page_fail. by rewrite (page_ok_same_dirs _ _ _ m0). }
    by repeat split.
Qed.

(** The loop touches the status file and the artifacts of the pages that
    go through, and nothing else. *)
Lemma page_loop_frame m0 n : forall i w r q,
  fs w !! statusPath = Some (StatusJson r) ->
  same_dirs (fs w) m0 ->
  q <> statusPath ->
  (forall k, (i <= k < i + n)%nat -> page_ok doc pagesDir m0 k = true ->
             q <> page_path pagesDir k) ->
  fs (world (page_loop doc pagesDir statusPath i n w)) !! q = fs w !! q.
Proof.
  induction n as [|n IH]; intros i w r q Hst Hdirs Hq Hpages; [done|].
  destruct (loop_round m0 i w r Hst Hdirs) as (w1 & r1 & e1 & Hrun & Hst1 & Hd1 & Hfr & _).
  simpl page_loop. rewrite (world_bind _ _ _ _ _ _ Hrun).
  rewrite (IH (S i) w1 r1 q Hst1 Hd1 Hq).
  - apply Hfr; [done|]. apply Hpages. lia.
  - intros k Hk. apply Hpages. lia.
Qed.

(** Every page that goes through has its artifact when the loop ends. *)
Lemma page_loop_artifact m0 n : forall i w r k b,
  fs w !! statusPath = Some (StatusJson r) ->
  same_dirs (fs w) m0 ->
  (i <= k < i + n)%nat ->
  page_ok doc pagesDir m0 k = true ->
  copySinglePage doc (Z.of_nat k) = inr b ->
  fs (world (page_loop doc pagesDir statusPath i n w)) !! page_path pagesDir k
  = Some (Raw b).
Proof.
  induction n as [|n IH]; intros i w r k b Hst Hdirs Hk Hok Hb; [lia|].
  destruct (loop_round m0 i w r Hst Hdirs)
    as (w1 & r1 & e1 & Hrun & Hst1 & Hd1 & _ & Hart).
  simpl page_loop. rewrite (world_bind _ _ _ _ _ _ Hrun).
  destruct (decide (k = i)) as [->|Hne].
  - rewrite (page_loop_frame m0 n (S i) w1 r1 _ Hst1 Hd1).
    + by apply Hart.
    + apply pages_apart.
    + intros k Hk' _ Heq. apply page_path_inj in Heq. lia.
  - apply (IH (S i) w1 r1); [done|done|lia|done|done].
Qed.

End LoopFiles.

Section JobFiles.
Import NodePath ProcessRoute.
Context {P : Platform}.
Variables (src pagesDir : path).
Hypothesis status_writable : write_fault (status_file pagesDir) = None.

(** The world a job that loads its source leaves behind. *)
Lemma background_files w r t0 doc :
  fs w !! status_file pagesDir = Some (StatusJson r) ->
  startedAt r = Some t0 ->
  source_doc src w = inr doc ->
  let w' := world (processPdfInBackground
                     (mkJobArgs src pagesDir (status_file pagesDir)) w) in
  (forall k b, (k < getPageCount doc)%nat ->
               page_ok doc pagesDir (fs w) k = true ->
               copySinglePage doc (Z.of_nat k) = inr b ->
               fs w' !! page_path pagesDir k = Some (Raw b)) /\
  (forall q, q <> status_file pagesDir ->
             (forall k, (k < getPageCount doc)%nat ->
                        page_ok doc pagesDir (fs w) k = true ->
                        q <> page_path pagesDir k) ->
             fs w' !! q = fs w !! q).
Proof.
  intros Hst Ht0 Hsrc. set (n := getPageCount doc).
  pose proof (setTotalPages_runs (status_file pagesDir) status_writable w r t0 n Hst Ht0)
    as Hset.
  simpl in Hset.
  set (rk := total_known_status n t0 (clock (ticks w))) in *.
  set (w1 := mkWorld _ _) in Hset.
  assert (fs w1 !! status_file pagesDir = Some (StatusJson rk)) as Hst1.
  { simpl. by rewrite lookup_insert_eq. }
  assert (same_dirs (fs w1) (fs w)) as Hd1.
  { intros p. simpl. rewrite is_dir_insert; [done|done|]. by eapply is_dir_status. }
  destruct (page_loop_runs doc pagesDir (status_file pagesDir) status_writable
              (pages_apart pagesDir) (fs w) n 0 w1 rk Hst1 Hd1)
    as (w2 & evs & Hloop & _ & _ & _ & u & Hfin).
  pose proof (markCompleted_runs (status_file pagesDir) status_writable w2 _ Hfin) as Hdone.
  simpl in Hdone.
  eassert (runs (processPdfInBackground (mkJobArgs src pagesDir (status_file pagesDir))) w
             (inr tt) _ _) as Hrun.
  { unfold processPdfInBackground. apply runs_try.
    apply (source_doc_loads _ _ doc); [done|]. simpl.
    eapply runs_bind; [exact Hset|].
    eapply runs_bind; [exact Hloop|]. exact Hdone. }
  cbv zeta. rewrite (runs_world _ _ _ _ _ Hrun). cbn [fs].
  apply runs_world in Hloop. split.
  - intros k b Hk Hok Hb.
    rewrite lookup_insert_ne by (apply not_eq_sym, pages_apart).
    rewrite <- Hloop.
    apply (page_loop_artifact doc pagesDir (status_file pagesDir) status_writable
             (pages_apart pagesDir) (fs w) n 0 w1 rk k b); [done|done|lia|done|done].
  - intros q Hq Hpages. rewrite lookup_insert_ne by done. rewrite <- Hloop.
    rewrite (page_loop_frame doc pagesDir (status_file pagesDir) status_writable
               (pages_apart pagesDir) (fs w) n 0 w1 rk q Hst1 Hd1 Hq).
    + simpl. by rewrite lookup_insert_ne.
    + intros k Hk. apply Hpages. lia.
Qed.

End JobFiles.

Section LastPage.
Import NodePath ProcessRoute.
Context {P : Platform}.
Variables (doc : Doc) (pagesDir : path) (m : gmap path file).

Lemma ok_pages_snoc n :
  ok_pages doc pagesDir m 0 (S n)
  = (ok_pages doc pagesDir m 0 n
     ++ if page_ok doc pagesDir m n then [Z.of_nat n + 1] else [])%list.
Proof.
  unfold ok_pages. rewrite seq_S, List.filter_app, map_app. simpl.
  by destruct (page_ok doc pagesDir m n).
Qed.

(** The last page recorded is the last page of the document exactly when
    that page went through. *)
Lemma last_ok_page_is_last n :
  List.last (ok_pages doc pagesDir m 0 n) 0 = Z.of_nat n
  <-> n = 0%nat \/ page_ok doc pagesDir m (n - 1) = true.
Proof.
  destruct n as [|n]; [by split; [left|]|].
  replace (S n - 1)%nat with n by lia. rewrite ok_pages_snoc.
  destruct (page_ok doc pagesDir m n).
  - rewrite last_last. split; [by right|lia].
  - rewrite app_nil_r. split; [|by intros [|]].
    destruct (last_in_or_default (ok_pages doc pagesDir m 0 n) 0) as [->|Hin]; [lia|].
    apply ok_pages_bounds in Hin. lia.
Qed.

End LastPage.

Section JobFileProperties.
Import NodePath ProcessRoute.
Context {P : Platform}.

(** X14.  What a job that loads its source leaves in the pages
    directory: for every page that is copied and whose artifact can be
    written, the file [page-<i+1>.pdf] holds the bytes of that page
    when the job ends; for every other page the path of its artifact is
    left as it was. *)
Theorem job_leaves_artifact_of_each_good_page (src pagesDir : path) (w : World)
    (r : JobStatus) (t0 : Timestamp) (doc : Doc) (i : nat) :
  write_fault (status_file pagesDir) = None ->
  fs w !! status_file pagesDir = Some (StatusJson r) ->
  startedAt r = Some t0 ->
  source_doc src w = inr doc ->
  (i < getPageCount doc)%nat ->
  (page_ok doc pagesDir (fs w) i = true ->
   exists b, copySinglePage doc (Z.of_nat i) = inr b /\
     fs (world (processPdfInBackground
                  (mkJobArgs src pagesDir (status_file pagesDir)) w))
       !! join pagesDir [page_file_name (Z.of_nat i + 1)] = Some (Raw b)) /\
  (page_ok doc pagesDir (fs w) i = false ->
   fs (world (processPdfInBackground
                (mkJobArgs src pagesDir (status_file pagesDir)) w))
     !! join pagesDir [page_file_name (Z.of_nat i + 1)]
   = fs w !! join pagesDir [page_file_name (Z.of_nat i + 1)]).
Proof.
  intros Hfault Hst Ht0 Hsrc Hi.
  destruct (background_files src pagesDir Hfault w r t0 doc Hst Ht0 Hsrc) as [Hart Hframe].
  fold (page_path pagesDir i). split.
  - intros Hok. pose proof Hok as Hok'. unfold page_ok in Hok'.
    destruct (copySinglePage doc (Z.of_nat i)) as [e|b] eqn:Hb; [done|].
    exists b. split; [done|]. by apply Hart.
  - intros Hbad. apply Hframe; [apply pages_apart|].
    intros k _ Hok Heq. apply page_path_inj in Heq as <-. congruence.
Qed.

(** X16.  When the source loads, the job ends with
    [processedPages = totalPages] exactly when the document has no page
    or its last page went through, whatever happened to the pages
    before it. *)
Theorem processed_reaches_total_iff_last_page_ok (src pagesDir : path) (w : World)
    (r : JobStatus) (t0 : Timestamp) (doc : Doc) :
  write_fault (status_file pagesDir) = None ->
  fs w !! status_file pagesDir = Some (StatusJson r) ->
  startedAt r = Some t0 ->
  source_doc src w = inr doc ->
  exists final,
    fs (world (processPdfInBackground
                 (mkJobArgs src pagesDir (status_file pagesDir)) w))
      !! status_file pagesDir = Some (StatusJson final) /\
    status final = completed /\
    totalPages final = Z.of_nat (getPageCount doc) /\
    (processedPages final = totalPages final
     <-> getPageCount doc = 0%nat
         \/ page_ok doc pagesDir (fs w) (getPageCount doc - 1) = true).
Proof.
  intros Hfault Hst Ht0 Hsrc.
  destruct (background_load_ok src pagesDir Hfault w r t0 doc Hst Ht0 Hsrc)
    as (w' & evs & t1 & ws & u & tc & tu & Hrun & _ & _ & _ & Hfin).
  rewrite (runs_world _ _ _ _ _ Hrun). eexists. split; [exact Hfin|].
  split; [done|]. split; [done|]. simpl. apply last_ok_page_is_last.
Qed.

End JobFileProperties.

(* ===================================================================== *)
(** ** The files a computation may change *)
(* ===================================================================== *)

Section TouchesOnly.
Context {P : Platform}.
Variable S : NodePath.path -> Prop.

Lemma touches_ret {A} (a : A) : touches_only S (ret a).
Proof. by intros w q _. Qed.

Lemma touches_throw {A} e : touches_only S (@throw A e).
Proof. by intros w q _. Qed.

Lemma touches_bind {A B} (m : M A) (k : A -> M B) :
  touches_only S m -> (forall a, touches_only S (k a)) -> touches_only S (bind m k).
Proof.
  intros Hm Hk w q Hq. unfold bind. specialize (Hm w q Hq).
  destruct (res (m w)) as [e|a]; simpl; [done|].
  by rewrite (Hk a (world (m w)) q Hq).
Qed.

Lemma touches_try_catch {A} (m : M A) h :
  touches_only S m -> (forall e, touches_only S (h e)) -> touches_only S (try_catch m h).
Proof.
  intros Hm Hh w q Hq. unfold try_catch. specialize (Hm w q Hq).
  destruct (res (m w)) as [e|a]; simpl; [|done].
  by rewrite (Hh e (world (m w)) q Hq).
Qed.

Lemma touches_readFileSync p : touches_only S (readFileSync p).
Proof. intros w q _. unfold readFileSync. by destruct (fs w !! p) as [[]|]. Qed.

Lemma touches_read_status p : touches_only S (read_status p).
Proof.
  apply touches_bind; [apply touches_readFileSync|].
  intros [|r|b]; (apply touches_ret || apply touches_throw).
Qed.

Lemma touches_now : touches_only S now.
Proof. by intros w q _. Qed.

Lemma touches_writeFileSync p data : S p -> touches_only S (writeFileSync p data).
Proof.
  intros Hp w q Hq. unfold writeFileSync.
  destruct (write_fault p); [done|].
  destruct (fs w !! p) as [[]|]; simpl; try done;
    rewrite lookup_insert_ne; congruence.
Qed.

Lemma touches_load f : touches_only S (load f).
Proof.
  unfold load. destruct f as [|r|bytes]; try apply touches_throw.
  destruct (PDFDocument_load bytes); [apply touches_throw|apply touches_ret].
Qed.

Lemma touches_extract doc i : touches_only S (extractSinglePage doc i).
Proof. intros w q _. unfold extractSinglePage. by destruct (copySinglePage doc i). Qed.

Lemma touches_reserialize_date s : touches_only S (reserialize_date s).
Proof. destruct s; [apply touches_ret|apply touches_throw]. Qed.

End TouchesOnly.

Section JobConfined.
Import NodePath ProcessRoute.
Context {P : Platform}.

Lemma touches_page_loop pagesDir statusPath doc n : forall i,
  touches_only (job_files pagesDir statusPath) (page_loop doc pagesDir statusPath i n).
Proof.
  induction n as [|n IH]; intros i; simpl; [apply touches_ret|].
  apply touches_bind; [|intros _; apply IH].
  apply touches_try_catch; [|intros e; apply touches_ret].
  unfold process_page.
  apply touches_bind; [apply touches_extract|]. intros b.
  apply touches_bind; [apply touches_writeFileSync; right; by eexists|]. intros _.
  apply touches_bind; [apply touches_read_status|]. intros r.
  apply touches_bind; [apply touches_now|]. intros t.
  apply touches_writeFileSync. by left.
Qed.

(** X15.  A background job writes inside its pages directory only:
    every path other than its status file and the files [page-<k>.pdf]
    of its pages directory holds after the job what it held before, in
    every world, whether the source loads or not and whatever the
    status file holds. *)
Theorem job_touches_only_its_files (a : JobArgs) (w : World) (q : path) :
  q <> job_statusPath a ->
  (forall k, q <> join (job_pagesDir a) [page_file_name k]) ->
  fs (world (processPdfInBackground a w)) !! q = fs w !! q.
Proof.
  intros Hq Hpages.
  assert (~ job_files (job_pagesDir a) (job_statusPath a) q) as Hout.
  { intros [->|[k ->]]; [done|by apply (Hpages k)]. }
  clear Hq Hpages. revert w q Hout.
  change (touches_only (job_files (job_pagesDir a) (job_statusPath a))
            (processPdfInBackground a)).
  assert (job_files (job_pagesDir a) (job_statusPath a) (job_statusPath a)) as Hstatus
    by (by left).
  unfold processPdfInBackground. apply touches_try_catch.
  - apply touches_bind; [apply touches_readFileSync|]. intros f.
    apply touches_bind; [apply touches_load|]. intros doc.
    apply touches_bind; [|intros _; apply touches_bind].
    + (* the page count *)
      unfold setTotalPages.
      apply touches_bind; [apply touches_read_status|]. intros prior.
      apply touches_bind; [apply touches_reserialize_date|]. intros started.
      apply touches_bind; [apply touches_now|]. intros t.
      by apply touches_writeFileSync.
    + apply touches_page_loop.
    + (* the completed record *)
      intros _. unfold markCompleted.
      apply touches_bind; [apply touches_read_status|]. intros final.
      apply touches_bind; [apply touches_now|]. intros t1.
      apply touches_bind; [apply touches_now|]. intros t2.
      by apply touches_writeFileSync.
  - (* the failed record *)
    intros e. unfold markFailed.
    apply touches_try_catch; [|intros e'; apply touches_ret].
    apply touches_bind; [apply touches_read_status|]. intros r.
    apply touches_bind; [apply touches_now|]. intros t.
    by apply touches_writeFileSync.
Qed.

End JobConfined.

(* ===================================================================== *)
(** ** Handlers and jobs never throw *)
(* ===================================================================== *)

Section CatchAll.
Context {P : Platform}.

Lemma try_catch_answers {A} (m : M A) (a : A) w :
  exists a', res (try_catch m (fun _ => ret a) w) = inr a'.
Proof.
  unfold try_catch. destruct (res (m w)) as [e|a'] eqn:Hres; simpl; [by exists a|].
  by exists a'.
Qed.

Lemma try_catch_unit (m : M unit) (h : exn -> M unit) w :
  (forall e w', res (h e w') = inr tt) -> res (try_catch m h w) = inr tt.
Proof.
  intros Hh. unfold try_catch. destruct (res (m w)) as [e|[]] eqn:Hres; simpl; [apply Hh|].
  exact Hres.
Qed.

Lemma background_returns a w :
  res (ProcessRoute.processPdfInBackground a w) = inr tt.
Proof.
  unfold ProcessRoute.processPdfInBackground. apply try_catch_unit.
  intros e w'. unfold ProcessRoute.markFailed. by apply try_catch_unit.
Qed.

(** X17.  Nothing escapes: each of the four handlers answers every
    request in every world, and the background job, which the start
    endpoint calls without awaiting it, ends normally in every world,
    also when the status file cannot be read or written. *)
Theorem handlers_and_job_never_throw (w : World) :
  (forall req, exists resp, res (PageRoute.POST req w) = inr resp) /\
  (forall u, exists resp, res (PageRoute.GET u w) = inr resp) /\
  (forall pdfPath, exists resp, res (ProcessRoute.POST pdfPath w) = inr resp) /\
  (forall fileId, exists resp, res (ProcessRoute.GET fileId w) = inr resp) /\
  (forall a, res (ProcessRoute.processPdfInBackground a w) = inr tt).
Proof.
  split; [|split; [|split; [|split]]].
  - intros req. apply try_catch_answers.
  - intros u. apply try_catch_answers.
  - intros pdfPath. apply try_catch_answers.
  - intros fileId. apply try_catch_answers.
  - intros a. apply background_returns.
Qed.

End CatchAll.

(* ===================================================================== *)
(** ** One job, from the start request to the last record *)
(* ===================================================================== *)

Section WholeJob.
Import NodePath ProcessRoute.
Context {P : Platform}.

(** A job is a refused start request, or an accepted one followed by the
    background run. *)
Lemma run_job_cases pdfPath w :
  (exists code msg w1 evs,
     POST pdfPath w = mkOut (inr (Failure code msg, None)) w1 evs /\
     status_writes evs = [] /\
     run_job pdfPath w = mkOut (inr (Failure code msg)) w1 (evs ++ []))
  \/ (exists url w1 evs,
        let pagesDir := join cwd ["public"; "pdf-pages"; job_fileId url] in
        let a := mkJobArgs (join cwd ["public"; url]) pagesDir (status_file pagesDir) in
        pdfPath = Some url /\
        POST pdfPath w = mkOut (inr (Started (job_fileId url), Some a)) w1 evs /\
        write_fault (status_file pagesDir) = None /\
        status_writes evs = [initial_status (clock (ticks w))] /\
        fs w1 !! status_file pagesDir
          = Some (StatusJson (initial_status (clock (ticks w)))) /\
        (forall q : path, ~ q `prefix_of` pagesDir -> q <> status_file pagesDir ->
                          fs w1 !! q = fs w !! q) /\
        run_job pdfPath w
        = mkOut (inr (Started (job_fileId url)))
                (world (processPdfInBackground a w1))
                (evs ++ events (processPdfInBackground a w1) ++ [])).
Proof.
  destruct (start_POST_cases pdfPath w)
    as [[Hu Hp]|(url & -> & Hne & [[Hf Hp]|(Hf & [(w1 & evs & Hp & Hws & _)
                                                  |(m1 & evd & Hp & Hfault & Hevd & _ & Hm1 & _)])])].
  - left. do 4 eexists. split; [exact Hp|]. split; [done|].
    unfold run_job, bind. by rewrite Hp.
  - left. do 4 eexists. split; [exact Hp|]. split; [done|].
    unfold run_job, bind. by rewrite Hp.
  - left. do 4 eexists. split; [exact Hp|]. split; [done|].
    unfold run_job, bind. by rewrite Hp.
  - right. do 3 eexists. cbv zeta. split; [done|]. split; [exact Hp|].
    split; [done|]. split; [by rewrite status_writes_app, Hevd|].
    split; [simpl; by rewrite lookup_insert_eq|]. split.
    + intros q Hq1 Hq2. simpl. rewrite lookup_insert_ne by done.
      by destruct (Hm1 q) as [?|(_ & ? & _)].
    + unfold run_job. unfold bind at 1. rewrite Hp. cbn [res world events fst snd].
      unfold bind. rewrite background_returns. done.
Qed.

(** X18.  Every status record written in one job, from the initial
    record to the terminal one, carries the same [startedAt]. *)
Theorem job_records_share_startedAt (pdfPath : option string) (w : World) :
  exists t,
    Forall (fun r => startedAt r = Some t)
           (status_writes (events (run_job pdfPath w))).
Proof.
  destruct (run_job_writes pdfPath w)
    as [|t msg t'|t n t1 mid ps u tc tu rk Hmid Hsorted Hbounds].
  - exists 0. constructor.
  - exists t. by repeat constructor.
  - exists t. constructor; [done|]. constructor; [done|].
    apply Forall_app. split; [|by repeat constructor].
    clear Hsorted Hbounds.
    induction Hmid as [|rec p mid ps [t' ->] _ IH]; by constructor.
Qed.



End WholeJob.

(* ===================================================================== *)
(** ** The status record while a job runs *)
(* ===================================================================== *)

Section Journal.
Context {P : Platform}.
Variable sp : NodePath.path.

Lemma replay_app (e1 e2 : list event) (m : gmap NodePath.path file) :
  replay (e1 ++ e2) m = replay e2 (replay e1 m).
Proof. unfold replay. apply fold_left_app. Qed.

Lemma journaled_ret {A} (a : A) : journaled sp (ret a).
Proof. by intros w. Qed.

Lemma journaled_throw {A} e : journaled sp (@throw A e).
Proof. by intros w. Qed.

Lemma journaled_bind {A B} (m : M A) (k : A -> M B) :
  journaled sp m -> (forall a, journaled sp (k a)) -> journaled sp (bind m k).
Proof.
  intros Hm Hk w. unfold bind. destruct (Hm w) as [Hfs Hev].
  destruct (res (m w)) as [e|a]; simpl; [done|].
  destruct (Hk a (world (m w))) as [Hfs' Hev'].
  rewrite replay_app, <- Hfs. split; [done|]. by apply Forall_app.
Qed.

Lemma journaled_try_catch {A} (m : M A) h :
  journaled sp m -> (forall e, journaled sp (h e)) -> journaled sp (try_catch m h).
Proof.
  intros Hm Hh w. unfold try_catch. destruct (Hm w) as [Hfs Hev].
  destruct (res (m w)) as [e|a]; simpl; [|done].
  destruct (Hh e (world (m w))) as [Hfs' Hev'].
  rewrite replay_app, <- Hfs. split; [done|]. by apply Forall_app.
Qed.

Lemma journaled_readFileSync p : journaled sp (readFileSync p).
Proof. intros w. unfold readFileSync. by destruct (fs w !! p) as [[]|]. Qed.

Lemma journaled_read_status p : journaled sp (read_status p).
Proof.
  apply journaled_bind; [apply journaled_readFileSync|].
  intros [|r|b]; (apply journaled_ret || apply journaled_throw).
Qed.

Lemma journaled_now : journaled sp now.
Proof. by intros w. Qed.

Lemma journaled_writeFileSync p data :
  job_event sp (EvWrite p data) -> journaled sp (writeFileSync p data).
Proof.
  intros Hp w. unfold writeFileSync.
  destruct (write_fault p); [done|].
  destruct (fs w !! p) as [[]|]; simpl; try done; split; try done; by constructor.
Qed.

Lemma journaled_load f : journaled sp (load f).
Proof.
  unfold load. destruct f as [|r|bytes]; try apply journaled_throw.
  destruct (PDFDocument_load bytes); [apply journaled_throw|apply journaled_ret].
Qed.

Lemma journaled_extract doc i : journaled sp (extractSinglePage doc i).
Proof.
  intros w. unfold extractSinglePage.
  destruct (copySinglePage doc i); simpl; split; try done; by constructor.
Qed.

Lemma journaled_reserialize_date s : journaled sp (reserialize_date s).
Proof. destruct s; [apply journaled_ret|apply journaled_throw]. Qed.

(** The status path holds the last status record that was written. *)
Lemma replay_last_status evs : forall (m : gmap NodePath.path file) body r,
  Forall (job_event sp) evs ->
  status_writes evs = body ++ [r] ->
  replay evs m !! sp = Some (StatusJson r).
Proof.
  induction evs as [|ev evs IH] using rev_ind; intros m body r Hevs Hws.
  - by destruct body.
  - apply Forall_app in Hevs as [Hevs Hev]. apply Forall_inv in Hev.
    rewrite replay_app. unfold status_writes in Hws. rewrite flat_map_app in Hws.
    simpl in Hws. rewrite app_nil_r in Hws.
    destruct ev as [p|p data|i]; simpl.
    + rewrite app_nil_r in Hws. apply mkdir_p_keeps. by eapply IH.
    + destruct data as [|r'|b]; simpl in Hev, Hws.
      * rewrite app_nil_r in Hws. rewrite lookup_insert_ne by done. by eapply IH.
      * apply app_inj_tail in Hws as [_ ->]. subst p. by rewrite lookup_insert_eq.
      * rewrite app_nil_r in Hws. rewrite lookup_insert_ne by done. by eapply IH.
    + rewrite app_nil_r in Hws. by eapply IH.
Qed.

End Journal.

Section JobJournal.
Import NodePath ProcessRoute.
Context {P : Platform}.

Lemma journaled_page_loop pagesDir doc n : forall i,
  journaled (status_file pagesDir) (page_loop doc pagesDir (status_file pagesDir) i n).
Proof.
  induction n as [|n IH]; intros i; simpl; [apply journaled_ret|].
  apply journaled_bind; [|intros _; apply IH].
  apply journaled_try_catch; [|intros e; apply journaled_ret].
  unfold process_page.
  apply journaled_bind; [apply journaled_extract|]. intros b.
  apply journaled_bind; [apply journaled_writeFileSync, pages_apart|]. intros _.
  apply journaled_bind; [apply journaled_read_status|]. intros r.
  apply journaled_bind; [apply journaled_now|]. intros t.
  by apply journaled_writeFileSync.
Qed.

(** The background job writes what its events say, and writes status
    records to its status file only. *)
Lemma journaled_background src pagesDir :
  journaled (status_file pagesDir)
            (processPdfInBackground (mkJobArgs src pagesDir (status_file pagesDir))).
Proof.
  unfold processPdfInBackground. cbn [job_pdfPath job_pagesDir job_statusPath].
  apply journaled_try_catch.
  - apply journaled_bind; [apply journaled_readFileSync|]. intros f.
    apply journaled_bind; [apply journaled_load|]. intros doc.
    apply journaled_bind; [|intros _; apply journaled_bind].
    + unfold setTotalPages.
      apply journaled_bind; [apply journaled_read_status|]. intros prior.
      apply journaled_bind; [apply journaled_reserialize_date|]. intros started.
      apply journaled_bind; [apply journaled_now|]. intros t.
      by apply journaled_writeFileSync.
    + apply journaled_page_loop.
    + intros _. unfold markCompleted.
      apply journaled_bind; [apply journaled_read_status|]. intros final.
      apply journaled_bind; [apply journaled_now|]. intros t1.
      apply journaled_bind; [apply journaled_now|]. intros t2.
      by apply journaled_writeFileSync.
  - intros e. unfold markFailed.
    apply journaled_try_catch; [|intros e'; apply journaled_ret].
    apply journaled_bind; [apply journaled_read_status|]. intros r.
    apply journaled_bind; [apply journaled_now|]. intros t.
    by apply journaled_writeFileSync.
Qed.

(** The same of a whole job, the start request included. *)
Lemma journaled_job url w fileId :
  res (run_job (Some url) w) = inr (Started fileId) ->
  fileId = job_fileId url /\
  fs (world (run_job (Some url) w)) = replay (events (run_job (Some url) w)) (fs w) /\
  Forall (job_event (status_file (join cwd ["public"; "pdf-pages"; fileId])))
         (events (run_job (Some url) w)).
Proof.
  intros Hjob.
  destruct (run_job_cases (Some url) w)
    as [(code & msg & w1 & evs & _ & _ & Hrun)
       |(url' & w1 & evs & [= <-] & Hp & _ & _ & _ & _ & Hrun)];
    rewrite Hrun in Hjob |- *; cbn [res world events] in *; [done|].
  injection Hjob as <-. split; [done|].
  set (pagesDir := join cwd ["public"; "pdf-pages"; job_fileId url]) in *.
  destruct (journaled_background (join cwd ["public"; url]) pagesDir w1) as [Hfs Hev].
  rewrite app_nil_r.
  assert (fs w1 = replay evs (fs w) /\ Forall (job_event (status_file pagesDir)) evs)
    as [Hfs1 Hev1].
  { destruct (start_POST_cases (Some url) w)
      as [[Hu Hp']|(url' & [= <-] & Hne & [[Hf Hp']|(Hf & [(w2 & evs2 & Hp' & _)
                                                    |(m1 & evd & Hp' & _ & _ & _ & _ & Hj)])])];
      rewrite Hp in Hp'; try discriminate Hp'.
    fold pagesDir in Hp', Hj. injection Hp' as -> ->. cbn [fs].
    rewrite replay_app.
    split.
    - by destruct Hj as [[-> ->]|[-> ->]].
    - apply Forall_app. split; [|by repeat constructor].
      destruct Hj as [[-> _]|[-> _]]; by repeat constructor. }
  split.
  - by rewrite replay_app, Hfs, Hfs1.
  - by apply Forall_app.
Qed.

(** X13.  Start, then ask, at any moment.  The background job is not
    awaited: it runs to its first [await] before the start request is
    answered and goes on while status requests are served, each of
    which reads the status file in one go.  Whatever the moment, the
    status endpoint, asked with the identifier an accepted start request
    has returned, answers with the last record written so far: if the
    disk is the one the events of the job up to that moment ([pre], the
    initial record among them) have made of the disk the request
    started from, the answer is the last status record of [pre].  The
    disk at the end of the job is the one all its events make. *)
Theorem status_request_sees_latest_record (url : string) (w w' : World)
    (fileId : string) (pre post : list event) :
  res (run_job (Some url) w) = inr (Started fileId) ->
  fileId <> "" ->
  events (run_job (Some url) w) = pre ++ post ->
  status_writes pre <> [] ->
  fs w' = replay pre (fs w) ->
  fs (world (run_job (Some url) w)) = replay (events (run_job (Some url) w)) (fs w) /\
  exists body r,
    status_writes pre = body ++ [r] /\
    res (GET (Some fileId) w') = inr (StatusBody r).
Proof.
  intros Hjob Hne Hsplit Hsome Hw'.
  destruct (journaled_job url w fileId Hjob) as (_ & Hfs & Hev).
  split; [exact Hfs|].
  rewrite Hsplit in Hev. apply Forall_app in Hev as [Hpre _].
  destruct (exists_last Hsome) as (body & r & Hws).
  exists body, r. split; [exact Hws|].
  rewrite (status_GET_cases fileId w' Hne). cbv zeta. cbn [res].
  by rewrite Hw', (replay_last_status _ pre (fs w) body r Hpre Hws).
Qed.

End JobJournal.

(* ===================================================================== *)
(** ** The two routes meet in the pages directory *)
(* ===================================================================== *)

Section RoundTrip.
Import JsString NodePath.
Context {P : Platform}.

(** X21.  The page handler looks for the artifact of page [p] of
    [fileId] exactly where a job with that identifier writes it: the
    path its url resolves to is the path of [page-<p>.pdf] in the pages
    directory of [fileId], for every identifier, also one with slashes
    or dots in it. *)
Theorem resolver_looks_where_job_writes (fileId : string) (p : Z) (i : nat) :
  PageRoute.preProcessedPath fileId p
  = join (join cwd ["public"; "pdf-pages"; fileId]) [ProcessRoute.page_file_name p] /\
  PageRoute.preProcessedPath fileId (Z.of_nat i + 1)
  = page_path (join cwd ["public"; "pdf-pages"; fileId]) i.
Proof.
  assert (forall q, PageRoute.preProcessedPath fileId q
                    = join (join cwd ["public"; "pdf-pages"; fileId])
                           [ProcessRoute.page_file_name q]) as Hq.
  { intros q. rewrite join_join. apply preProcessedPath_flat. }
  split; [apply Hq|]. unfold page_path. apply Hq.
Qed.

Lemma page_ok_same_at (doc : Doc) (pagesDir : path) (m m0 : gmap path file) (i : nat) :
  m !! page_path pagesDir i = m0 !! page_path pagesDir i ->
  page_ok doc pagesDir m i = page_ok doc pagesDir m0 i.
Proof. unfold page_ok, writable, is_dir. by intros ->. Qed.

Section PlainStem.
Variable stem : string.
Hypothesis cwd_normalized : normalize cwd = cwd.
Hypothesis stem_no_slash : has_slash stem = false.
Hypothesis stem_regular : regular stem.

Lemma plain_url_local :
  PageRoute.is_local (Some (pdf_path "/pdf" stem)) = Some (pdf_path "/pdf" stem).
Proof.
  apply is_local_Some. split; [done|]. split; [done|].
  unfold JsString.startsWith, pdf_path. cbn [String.append].
  by rewrite !prefix_cons, prefix_nil_l.
Qed.

Lemma stem_pdf_regular : regular (stem +:+ ".pdf").
Proof.
  assert (4 <= String.length (stem +:+ ".pdf"))%nat as Hlen.
  { rewrite string_length_app. simpl. lia. }
  repeat split; intros Heq; rewrite Heq in Hlen; simpl in Hlen; lia.
Qed.

Lemma plain_source_path :
  join cwd ["public"; pdf_path "/pdf" stem]
  = (cwd ++ ["public"; "pdf"; stem +:+ ".pdf"])%list.
Proof.
  unfold join, pdf_path. cbn [flat_map].
  change (split_slash "public") with ["public"].
  unfold split_slash at 1. rewrite split_slash_aux_app.
  rewrite (split_slash_no_slash (stem +:+ ".pdf"))
    by (by rewrite has_slash_app, stem_no_slash).
  change (split_slash_aux "" "/pdf") with [""; "pdf"]. rewrite app_nil_r. cbn [app].
  change (cwd ++ "public" :: "" :: ?l)%list with (cwd ++ ["public"] ++ "" :: l)%list.
  rewrite app_assoc, normalize_skip_empty, <- app_assoc.
  apply normalize_fixed, Forall_app. split.
  - rewrite <- cwd_normalized. apply normalize_regular.
  - repeat constructor; try discriminate; apply stem_pdf_regular.
Qed.

Lemma plain_pages_dir :
  join cwd ["public"; "pdf-pages"; stem] = (cwd ++ ["public"; "pdf-pages"; stem])%list.
Proof.
  apply join_plain; [done|].
  repeat constructor; try discriminate; try done; apply stem_regular.
Qed.

Lemma plain_status_path :
  ProcessRoute.status_file (join cwd ["public"; "pdf-pages"; stem])
  = (cwd ++ ["public"; "pdf-pages"; stem; "status.json"])%list.
Proof.
  unfold join at 1. rewrite status_file_below. fold (join cwd ["public"; "pdf-pages"; stem]).
  rewrite plain_pages_dir, <- app_assoc. done.
Qed.

Lemma plain_page_path k :
  page_path (join cwd ["public"; "pdf-pages"; stem]) k
  = (cwd ++ ["public"; "pdf-pages"; stem; ProcessRoute.page_file_name (Z.of_nat k + 1)])%list.
Proof.
  unfold page_path.
  rewrite join_regular by auto using page_file_name_no_slash, page_file_name_regular.
  unfold join. rewrite (normalize_fixed (normalize _)) by apply normalize_regular.
  fold (join cwd ["public"; "pdf-pages"; stem]).
  rewrite plain_pages_dir, <- app_assoc. done.
Qed.

Lemma source_outside_pages_dir :
  let src := join cwd ["public"; pdf_path "/pdf" stem] in
  let pagesDir := join cwd ["public"; "pdf-pages"; stem] in
  ~ src `prefix_of` pagesDir /\ src <> ProcessRoute.status_file pagesDir /\
  forall k, src <> page_path pagesDir k.
Proof.
  cbv zeta. rewrite plain_source_path, plain_status_path, plain_pages_dir.
  split; [|split].
  - intros Hpre. apply prefix_app_inv, prefix_cons_inv_2, prefix_cons_inv_1 in Hpre.
    discriminate.
  - intros Heq. apply app_inv_head in Heq. discriminate.
  - intros k. rewrite <- plain_pages_dir, plain_page_path.
    intros Heq. apply app_inv_head in Heq. discriminate.
Qed.

Lemma page_path_outside k :
  let pagesDir := join cwd ["public"; "pdf-pages"; stem] in
  ~ page_path pagesDir k `prefix_of` pagesDir.
Proof.
  cbv zeta. rewrite plain_page_path, plain_pages_dir.
  intros Hpre. apply prefix_app_inv, prefix_length in Hpre. simpl in Hpre. lia.
Qed.

End PlainStem.

(** X22.  Split, then fetch.  For a document [/pdf/<stem>.pdf] whose
    stem is a plain name (no slash, no [.pdf] inside, not a dot
    component), after a job that was accepted and whose source loads,
    every page that went through is found by the page handler: its
    artifact holds the bytes of the page, and a request for that page
    is answered with the url of the artifact, nothing being extracted. *)
Theorem split_then_fetch_hits_artifact (stem : string) (w : World)
    (fileId : string) (doc : Doc) (i : nat) :
  normalize cwd = cwd ->
  has_slash stem = false ->
  regular stem ->
  occurs ".pdf" stem = false ->
  res (ProcessRoute.run_job (Some (pdf_path "/pdf" stem)) w)
    = inr (ProcessRoute.Started fileId) ->
  source_doc (join cwd ["public"; pdf_path "/pdf" stem]) w = inr doc ->
  (i < getPageCount doc)%nat ->
  page_ok doc (join cwd ["public"; "pdf-pages"; stem]) (fs w) i = true ->
  fileId = stem /\
  (exists b,
     copySinglePage doc (Z.of_nat i) = inr b /\
     fs (world (ProcessRoute.run_job (Some (pdf_path "/pdf" stem)) w))
       !! (cwd ++ ["public"; "pdf-pages"; stem;
                   ProcessRoute.page_file_name (Z.of_nat i + 1)])%list
     = Some (Raw b)) /\
  res (PageRoute.POST
         (PageRoute.mkRequest (Some (pdf_path "/pdf" stem)) (Some (Z.of_nat i + 1))
                              None None)
         (world (ProcessRoute.run_job (Some (pdf_path "/pdf" stem)) w)))
  = inr (PageRoute.PreProcessed
           (PageRoute.preProcessedPageUrl stem (Z.of_nat i + 1)) (Z.of_nat i + 1)) /\
  events (PageRoute.POST
            (PageRoute.mkRequest (Some (pdf_path "/pdf" stem)) (Some (Z.of_nat i + 1))
                                 None None)
            (world (ProcessRoute.run_job (Some (pdf_path "/pdf" stem)) w)))
  = [].
Proof.
  intros Hcwd Hslash Hreg Hplain Hjob Hsrc Hi Hok.
  assert (stem <> "") as Hne by apply Hreg.
  set (url := pdf_path "/pdf" stem) in *.
  pose proof (job_fileId_stem "/pdf" stem Hslash Hne) as Hjid. fold url in Hjid.
  pose proof (resolver_fileId_stem "/pdf" stem Hslash Hplain) as Hrid. fold url in Hrid.
  destruct (source_outside_pages_dir stem Hcwd Hslash Hreg) as (Hs1 & Hs2 & Hs3).
  fold url in Hs1, Hs2, Hs3.
  destruct (run_job_cases (Some url) w)
    as [(code & msg & w1 & evs & _ & _ & Hrun)
       |(url' & w1 & evs & [= <-] & Hp & Hfault & _ & Hst & Hframe & Hrun)];
    rewrite Hrun in Hjob |- *; cbn [res world] in *; [done|].
  injection Hjob as <-. rewrite Hjid in *.
  set (pagesDir := join cwd ["public"; "pdf-pages"; stem]) in *.
  set (src := join cwd ["public"; url]) in *.
  assert (source_doc src w1 = inr doc) as Hsrc1.
  { rewrite <- Hsrc. apply source_doc_same. by apply Hframe. }
  assert (page_ok doc pagesDir (fs w1) i = true) as Hok1.
  { rewrite <- Hok. apply page_ok_same_at. apply Hframe.
    - by apply page_path_outside.
    - apply pages_apart. }
  destruct (background_files src pagesDir Hfault w1 _ _ doc Hst eq_refl Hsrc1)
    as [Hart Hbgframe].
  set (w' := world (ProcessRoute.processPdfInBackground _ w1)) in *.
  pose proof Hok1 as Hb. unfold page_ok in Hb.
  destruct (copySinglePage doc (Z.of_nat i)) as [e|b] eqn:Hcopy; [done|]. clear Hb.
  specialize (Hart i b Hi Hok1 Hcopy).
  assert (source_doc src w' = inr doc) as Hsrc'.
  { rewrite <- Hsrc1. apply source_doc_same. apply Hbgframe; [done|]. intros k _ _. apply Hs3. }
  split; [done|]. split.
  { exists b. split; [done|]. rewrite <- (plain_page_path stem Hcwd Hslash Hreg). exact Hart. }
  set (req := PageRoute.mkRequest (Some url) (Some (Z.of_nat i + 1)) None None).
  pose proof (POST_loaded req w' url doc _ _ _ (plain_url_local stem) Hsrc'
                (runs_eta (PageRoute.dispatch req url doc) w')) as Hpost.
  rewrite (runs_res _ _ _ _ _ Hpost), (runs_events _ _ _ _ _ Hpost).
  rewrite dispatch_single by (by left).
  change (PageRoute.pageNumber req) with (Some (Z.of_nat i + 1)).
  rewrite single_request_outcome. cbv zeta. rewrite Hrid.
  replace ((Z.of_nat i + 1 <? 1) || (Z.of_nat i + 1 >? Z.of_nat (getPageCount doc)))
    with false by (symmetry; apply orb_false_iff; lia).
  assert (cached stem w' (Z.of_nat i + 1) = true) as ->; [|done].
  unfold cached. apply bool_decide_eq_true.
  rewrite preProcessedPath_flat.
  replace (join cwd ["public"; "pdf-pages"; stem;
                     ProcessRoute.page_file_name (Z.of_nat i + 1)])
    with (page_path pagesDir i) by apply join_join.
  by rewrite Hart.
Qed.

(** X23.  The [/pdf/] prefix test does not confine a request to the
    documents below [public/pdf]: [path.join] resolves dot-dot
    components after the prefix, so the url [/pdf/../../<name>] is
    taken for a local one and resolves to [<cwd>/<name>], and the
    page-count endpoint reports the page count of the document stored
    there. *)
Theorem pdf_prefix_does_not_confine (name : string) (w : World) (doc : Doc) :
  normalize cwd = cwd ->
  has_slash name = false ->
  regular name ->
  source_doc (cwd ++ [name])%list w = inr doc ->
  PageRoute.is_local (Some ("/pdf/../../" +:+ name)) = Some ("/pdf/../../" +:+ name) /\
  join cwd ["public"; "/pdf/../../" +:+ name] = (cwd ++ [name])%list /\
  res (PageRoute.GET (Some ("/pdf/../../" +:+ name)) w)
  = inr (PageRoute.Info (Z.of_nat (getPageCount doc))).
Proof.
  intros Hcwd Hslash Hreg Hsrc.
  assert (join cwd ["public"; "/pdf/../../" +:+ name] = (cwd ++ [name])%list) as Hpath.
  { unfold join. cbn [flat_map].
    change (split_slash "public") with ["public"].
    change ("/pdf/../../" +:+ name) with ("/pdf/../.." +:+ String slash name).
    unfold split_slash at 1. rewrite split_slash_aux_app.
    rewrite (split_slash_no_slash name) by done.
    change (split_slash_aux "" "/pdf/../..") with [""; "pdf"; ".."; ".."].
    rewrite app_nil_r, normalize_app, Hcwd. cbn [app fold_left].
    change (norm_step (rev cwd) "public") with ("public" :: rev cwd).
    change (norm_step ("public" :: rev cwd) "") with ("public" :: rev cwd).
    change (norm_step ("public" :: rev cwd) "pdf") with ("pdf" :: "public" :: rev cwd).
    change (norm_step ("pdf" :: "public" :: rev cwd) "..") with ("public" :: rev cwd).
    change (norm_step ("public" :: rev cwd) "..") with (rev cwd).
    rewrite norm_step_regular by done. simpl. by rewrite rev_involutive. }
  split.
  { apply is_local_Some. split; [done|]. split; [done|].
    unfold JsString.startsWith. cbn [String.append].
    by rewrite !prefix_cons, prefix_nil_l. }
  split; [exact Hpath|].
  assert (JsString.startsWith ("/pdf/../../" +:+ name) "/pdf/" = true) as Hstart.
  { unfold JsString.startsWith. cbn [String.append].
    by rewrite !prefix_cons, prefix_nil_l. }
  remember ("/pdf/../../" +:+ name) as url eqn:Hurl.
  destruct (info_GET_cases (Some url) w)
    as [[[[=]|[= Hu]] _]|(url' & [= <-] & _ & [[Hs _]|[_ [[Hf _]|[(_ & [e He] & _)|(doc' & Hd & ->)]]]])].
  - by rewrite Hu in Hurl.
  - congruence.
  - rewrite Hpath in Hf. destruct (source_doc_missing _ _ Hf) as [e He]. congruence.
  - rewrite Hpath in He. congruence.
  - rewrite Hpath in Hd. by assert (doc' = doc) as -> by congruence.
Qed.

End RoundTrip.

Section Endpoints.
Import NodePath PageRoute.
Context {P : Platform}.

(** X24.  The page-count endpoint and the page handler classify a url
    alike, except for a missing one: for an absent or empty url the
    first answers 400 and the second "external"; for any other url
    both answer "external", or both answer 404, for the same urls, and
    a document the first cannot load (500) the second cannot load
    either. *)
Theorem endpoints_classify_urls_alike (req : Request) (w : World) :
  (pdfUrl req = None \/ pdfUrl req = Some "" ->
   res (GET (pdfUrl req) w) = inr (InfoFailure 400 "Missing pdfUrl parameter") /\
   res (POST req w) = inr (External (pdfUrl req))) /\
  (forall url, pdfUrl req = Some url -> url <> "" ->
     (res (GET (Some url) w) = inr (InfoExternal url)
      <-> res (POST req w) = inr (External (Some url))) /\
     (res (GET (Some url) w) = inr (InfoFailure 404 "PDF file not found")
      <-> res (POST req w) = inr (Failure 404 "PDF file not found")) /\
     (res (GET (Some url) w) = inr (InfoFailure 500 "Failed to get PDF info")
      -> res (POST req w) = inr (Failure 500 "Failed to extract page"))).
Proof.
  split.
  - intros Hu.
    destruct (info_GET_cases (pdfUrl req) w) as [[_ ->]|(url & Hurl & Hne & _)].
    + split; [done|].
      destruct (page_POST_cases req w) as [[_ ->]|(url & Hlocal & _)]; [done|].
      apply is_local_Some in Hlocal as (Hurl & Hne & _).
      rewrite Hurl in Hu. by destruct Hu as [[=]|[= ->]].
    + rewrite Hurl in Hu. by destruct Hu as [[=]|[= ->]].
  - intros url Hurl Hne.
    destruct (info_GET_cases (Some url) w)
      as [[[[=]|[= ->]] _]|(url' & [= <-] & _ & [[Hs ->]|[Hlocal [[Hf ->]|[(Hf & [e He] & ->)|(doc & Hsrc & ->)]]]])];
      [done|..]; cbn [res].
    + assert (is_local (pdfUrl req) = None) as Hnone.
      { destruct (is_local (pdfUrl req)) as [u|] eqn:Hl; [|done].
        apply is_local_Some in Hl as (Hu & _ & Hs'). congruence. }
      destruct (page_POST_cases req w) as [[_ ->]|(u & Hl & _)]; [|congruence].
      rewrite Hurl. by repeat split.
    + rewrite <- Hurl in Hlocal at 1.
      destruct (page_POST_cases req w)
        as [[Hnone _]|(u & Hl & [[_ ->]|[(Hf' & _ & _)|(doc & Hsrc & _)]])].
      * congruence.
      * by repeat split.
      * assert (u = url) as -> by congruence. rewrite Hf in Hf'. by destruct Hf'.
      * assert (u = url) as -> by congruence.
        apply source_doc_exists, bool_decide_eq_true in Hsrc.
        rewrite Hf in Hsrc. by destruct Hsrc.
    + rewrite <- Hurl in Hlocal at 1.
      destruct (page_POST_cases req w)
        as [[Hnone _]|(u & Hl & [[Hf' _]|[(_ & _ & ->)|(doc & Hsrc & _)]])].
      * congruence.
      * assert (u = url) as -> by congruence. rewrite Hf' in Hf. by destruct Hf.
      * by repeat split.
      * assert (u = url) as -> by congruence. congruence.
    + rewrite <- Hurl in Hlocal at 1.
      destruct (page_POST_cases req w)
        as [[Hnone _]|(u & Hl & [[Hf' _]|[(_ & [e He] & _)|(doc' & Hsrc' & ->)]])].
      * congruence.
      * assert (u = url) as -> by congruence.
        destruct (source_doc_missing _ _ Hf') as [e He]. congruence.
      * assert (u = url) as -> by congruence. congruence.
      * assert (u = url) as -> by congruence. cbn [res].
        split; [|split]; [split; [done|]|split; [done|]|done].
        -- destruct (res (dispatch req url doc' w)) as [e|resp] eqn:Hres; [done|].
           intros [= ->]. by apply dispatch_outcome in Hres.
        -- destruct (res (dispatch req url doc' w)) as [e|resp] eqn:Hres; [done|].
           intros [= ->]. by apply dispatch_outcome in Hres.
Qed.

End Endpoints.

(* ===================================================================== *)
(** ** The properties on the concrete platform *)
(* ===================================================================== *)

Section Instances.
Import NodePath.

Example start_request_leaves_w_started :
  world (ProcessRoute.POST (P := Toy.platform) (Some "/pdf/torn.pdf") Toy.w0)
  = Toy.w_started "torn".
Proof. vm_compute. reflexivity. Qed.

(** The status file of [full.pdf] cannot be written: the start request
    is answered 500 and no job is spawned. *)
Example start_fails_when_status_cannot_be_written :
  res (ProcessRoute.POST (P := Toy.platform) (Some "/pdf/full.pdf") Toy.w0)
    = inr (ProcessRoute.Failure 500 "Failed to start PDF processing", None) /\
  status_writes
    (events (ProcessRoute.run_job (P := Toy.platform) (Some "/pdf/full.pdf") Toy.w0))
    = [].
Proof. split; vm_compute; reflexivity. Qed.

(** Pages 1 to 3 of [book.pdf], page 1 coming from its artifact. *)
Lemma range_fetch_witness :
  exists pages,
    res (Toy.fetch (Toy.book_request None (Some 1) (Some 3)))
      = inr (PageRoute.Range pages 3 1 3) /\
    Z.of_nat (length pages) = 3 - 1 + 1 /\
    map PageRoute.entry_pageNumber pages = seqZ 1 (3 - 1 + 1) /\
    StronglySorted Z.lt (map PageRoute.entry_pageNumber pages) /\
    NoDup (map PageRoute.entry_pageNumber pages) /\
    (forall p, In p (map PageRoute.entry_pageNumber pages) <-> 1 <= p <= 3) /\
    (forall e, In e pages ->
       PageRoute.entry_isPreProcessed e
       = cached (P := Toy.platform) (resolver_fileId "/pdf/book.pdf") Toy.w_split
           (PageRoute.entry_pageNumber e)).
Proof.
  apply (range_fetch_returns_every_page (P := Toy.platform)
           (Toy.book_request None (Some 1) (Some 3))
           Toy.w_split "/pdf/book.pdf" (Toy.pages_of "abc") 1 3);
    try reflexivity; try (simpl; lia).
  intros p Hp _.
  assert (p = 1 \/ p = 2 \/ p = 3) as [->|[->| ->]] by lia;
    eexists; reflexivity.
Defined.

(** A valid range over [torn.pdf]: page 2 has no artifact and cannot be
    extracted, so the request is answered 500. *)
Example range_with_unextractable_page_is_500 :
  res (PageRoute.POST (P := Toy.platform)
         (PageRoute.mkRequest (Some "/pdf/torn.pdf") None (Some 1) (Some 2)) Toy.w0)
  = inr (PageRoute.Failure 500 "Failed to extract page").
Proof. vm_compute. reflexivity. Qed.

(** Pages 2 to 5 of the three-page [book.pdf] are refused. *)
Lemma range_rejected_witness :
  exists resp,
    res (Toy.fetch (Toy.book_request None (Some 2) (Some 5))) = inr resp /\
    (http_status resp = 400 <-> (2 < 1 \/ 5 > 3 \/ 2 > 5)) /\
    (http_status resp = 400 -> resp = PageRoute.Failure 400 "Invalid page range") /\
    (http_status resp <> 400 ->
       (exists pages, resp = PageRoute.Range pages 3 2 5) \/
       resp = PageRoute.Failure 500 "Failed to extract page").
Proof.
  apply (range_rejected_iff_invalid (P := Toy.platform)
           (Toy.book_request None (Some 2) (Some 5))
           Toy.w_split "/pdf/book.pdf" (Toy.pages_of "abc") 2 5);
    reflexivity.
Defined.

(** Only [fromPage] is supplied. *)
Lemma half_range_witness :
  res (Toy.fetch (Toy.book_request None (Some 1) None))
    = inr (PageRoute.Failure 400 "Missing pageNumber or page range") /\
  extractions (events (Toy.fetch (Toy.book_request None (Some 1) None))) = [] /\
  events (Toy.fetch (Toy.book_request None (Some 1) None)) = [].
Proof.
  apply (half_range_is_missing_page (P := Toy.platform)
           (Toy.book_request None (Some 1) None)
           Toy.w_split "/pdf/book.pdf" (Toy.pages_of "abc"));
    try reflexivity.
  left. split; [by eexists|reflexivity].
Defined.

(** Page 2 of [book.pdf] has no artifact and is extracted: its bytes
    are the response when it is asked for alone, and the data URL of its
    entry when the pages 1 to 2 are asked for. *)
Lemma page_fetch_witness :
  (world (Toy.fetch (Toy.book_request (Some 2) None None)) = Toy.w_split /\
   res (Toy.fetch (Toy.book_request (Some 2) None None))
     = inr (PageRoute.PdfBytes "b") /\
   events (Toy.fetch (Toy.book_request (Some 2) None None)) = [EvExtract 1]) /\
  (exists pages,
     res (Toy.fetch (Toy.book_request None (Some 1) (Some 2)))
       = inr (PageRoute.Range pages 3 1 2) /\
     events (Toy.fetch (Toy.book_request None (Some 1) (Some 2))) = [EvExtract 1] /\
     In (PageRoute.mkPageEntry 2 "data:application/pdf;base64,b" false) pages).
Proof.
  split.
  - destruct (page_fetch_writes_nothing (P := Toy.platform)
                (Toy.book_request (Some 2) None None) Toy.w_split)
      as (Hworld & _ & _ & Hmiss & _).
    split; [exact Hworld|].
    apply (Hmiss "/pdf/book.pdf" (Toy.pages_of "abc") 2 "b");
      try reflexivity; [by left|simpl; lia].
  - destruct (page_fetch_writes_nothing (P := Toy.platform)
                (Toy.book_request None (Some 1) (Some 2)) Toy.w_split)
      as (_ & _ & _ & _ & Hrange).
    destruct (Hrange "/pdf/book.pdf" (Toy.pages_of "abc") 1 2)
      as (pages & Hres & Hev & Hentry);
      [reflexivity|reflexivity|reflexivity|reflexivity|lia|lia|simpl; lia| |].
    + intros p Hp _.
      assert (p = 1 \/ p = 2) as [-> | ->] by lia; by eexists.
    + exists pages. split; [exact Hres|]. split; [exact Hev|].
      apply (Hentry 2 "b"); [lia|reflexivity|reflexivity].
Defined.

(** [torn.pdf]: page 1 is written, page 2 cannot be copied. *)
Lemma page_failure_witness :
  res (Toy.background "torn") = inr tt /\
  extractions (events (Toy.background "torn")) = map Z.of_nat (seq 0 2) /\
  exists first progress final,
    status_writes (events (Toy.background "torn")) = first :: progress ++ [final] /\
    map processedPages progress
    = ok_pages (P := Toy.platform) (Toy.pages_of "ax")
        (Toy.pages_dir "torn") (fs (Toy.w_started "torn")) 0 2 /\
    fs (world (Toy.background "torn")) !! Toy.status_of "torn"
      = Some (StatusJson final) /\
    status final = completed /\
    totalPages final = 2 /\
    processedPages final
    = List.last (ok_pages (P := Toy.platform) (Toy.pages_of "ax")
                   (Toy.pages_dir "torn") (fs (Toy.w_started "torn")) 0 2) 0.
Proof.
  apply (page_failure_does_not_abort_job (P := Toy.platform)
           (Toy.pub ["pdf"; "torn.pdf"]) (Toy.pages_dir "torn")
           (Toy.w_started "torn") Toy.fresh_status 1000 (Toy.pages_of "ax"));
    reflexivity.
Defined.

(** [skip.pdf]: page 1 cannot be copied, page 2 is written; the job
    records 2 processed pages although one artifact exists. *)
Example skip_job_records_page_2 :
  exists final,
    fs (world (Toy.background "skip")) !! Toy.status_of "skip"
      = Some (StatusJson final) /\
    status final = completed /\
    processedPages final = 2 /\
    fs (world (Toy.background "skip")) !! Toy.pub ["pdf-pages"; "skip"; "page-1.pdf"]
      = None /\
    fs (world (Toy.background "skip")) !! Toy.pub ["pdf-pages"; "skip"; "page-2.pdf"]
      = Some (Raw "b").
Proof.
  exists (mkJobStatus completed 2 2 (Some 1000) (Some 1004) (Some 1003) None).
  by vm_compute.
Qed.

(** [book.pdf] with the artifact of page 2 blocked: the write of page 2
    throws, page 3 is still written, and the job completes. *)
Example blocked_write_does_not_abort :
  exists final,
    extractions (events (Toy.background_in Toy.w_blocked "book")) = [0; 1; 2] /\
    fs (world (Toy.background_in Toy.w_blocked "book")) !! Toy.status_of "book"
      = Some (StatusJson final) /\
    status final = completed /\
    processedPages final = 3 /\
    map processedPages (status_writes (events (Toy.background_in Toy.w_blocked "book")))
    = [0; 1; 3; 3].
Proof.
  exists (mkJobStatus completed 3 3 (Some 1000) (Some 1005) (Some 1004) None).
  by vm_compute.
Qed.

Example torn_job_records_page_1 :
  List.last (ok_pages (P := Toy.platform) (Toy.pages_of "ax")
               (Toy.pages_dir "torn") (fs (Toy.w_started "torn")) 0 2) 0 = 1.
Proof. vm_compute. reflexivity. Qed.

(** [corrupt.pdf] does not load. *)
Lemma load_failure_witness :
  res (Toy.background "corrupt") = inr tt /\
  extractions (events (Toy.background "corrupt")) = [] /\
  exists r',
    fs (world (Toy.background "corrupt")) !! Toy.status_of "corrupt"
      = Some (StatusJson r') /\
    status r' = failed /\
    (exists msg, error r' = Some msg /\ msg <> "") /\
    processedPages r' = processedPages Toy.fresh_status /\
    (forall t, Toy.fresh_status = ProcessRoute.initial_status t ->
               processedPages r' = 0).
Proof.
  apply (load_failure_marks_job_failed (P := Toy.platform)
           (Toy.pub ["pdf"; "corrupt.pdf"]) (Toy.pages_dir "corrupt")
           (Toy.w_started "corrupt") Toy.fresh_status
           (ErrorObj "Failed to parse PDF document"));
    try reflexivity.
  simpl. discriminate.
Defined.

(** The page count of [torn.pdf] recorded over the initial record. *)
Lemma setTotalPages_witness :
  res (ProcessRoute.setTotalPages (P := Toy.platform) (Toy.status_of "torn") 2
         (Toy.w_started "torn")) = inr tt /\
  fs (world (ProcessRoute.setTotalPages (P := Toy.platform) (Toy.status_of "torn") 2
               (Toy.w_started "torn")))
  = <[Toy.status_of "torn" :=
        StatusJson (mkJobStatus processing 2 0 (Some 1000) (Some 1001) None None)]>
      (fs (Toy.w_started "torn")).
Proof.
  destruct (setTotalPages_writes_fresh_record (P := Toy.platform)
              (Toy.status_of "torn") 2 (Toy.w_started "torn")
              Toy.fresh_status 1000) as (Hres & Hfs & _);
    [reflexivity..|].
  split; [exact Hres|exact Hfs].
Defined.

(** As stated, C3 fails on [torn.pdf]: the job completes, the last page
    attempted is page 2, and the recorded [processedPages] is 1. *)
Lemma processedPages_is_not_last_attempted :
  exists r,
    fs (world (ProcessRoute.run_job (P := Toy.platform) (Some "/pdf/torn.pdf") Toy.w0))
      !! Toy.status_of "torn" = Some (StatusJson r) /\
    status r = completed /\
    last_attempted_page
      (events (ProcessRoute.run_job (P := Toy.platform) (Some "/pdf/torn.pdf") Toy.w0))
    = 2 /\
    processedPages r = 1 /\
    processedPages r
    <> last_attempted_page
         (events (ProcessRoute.run_job (P := Toy.platform) (Some "/pdf/torn.pdf") Toy.w0)).
Proof.
  exists (mkJobStatus completed 2 1 (Some 1000) (Some 1004) (Some 1003) None).
  by vm_compute.
Qed.

(** As stated, C7 fails on a record with two pages done: the write
    resets [processedPages] to 0. *)
Lemma setTotalPages_resets_progress :
  fs Toy.w_two_done !! Toy.status_of "book" = Some (StatusJson Toy.two_done) /\
  processedPages Toy.two_done = 2 /\
  exists r',
    fs (world (ProcessRoute.setTotalPages (P := Toy.platform)
                 (Toy.status_of "book") 3 Toy.w_two_done))
      !! Toy.status_of "book" = Some (StatusJson r') /\
    processedPages r' = 0 /\
    processedPages r' <> processedPages Toy.two_done.
Proof.
  split; [by vm_compute|]. split; [done|].
  exists (mkJobStatus processing 3 0 (Some 1000) (Some 1007) None None).
  by vm_compute.
Qed.

End Instances.

(* ===================================================================== *)
(** ** Further runs on the concrete platform *)
(* ===================================================================== *)

Section MoreInstances.
Import NodePath.

(** Page 5 of the three-page [book.pdf] is refused. *)
Lemma single_page_rejected_witness :
  res (Toy.fetch (Toy.book_request (Some 5) None None))
    = inr (PageRoute.Failure 400 "Invalid page number") /\
  events (Toy.fetch (Toy.book_request (Some 5) None None)) = [].
Proof.
  destruct (single_page_rejected_iff_out_of_range (P := Toy.platform)
              (Toy.book_request (Some 5) None None) Toy.w_split
              "/pdf/book.pdf" (Toy.pages_of "abc") 5)
    as (resp & Hres & Hiff & H400 & _); [reflexivity|reflexivity|by left|reflexivity|].
  destruct H400 as [-> Hev]; [apply Hiff; simpl; lia|].
  split; [exact Hres|exact Hev].
Defined.

(** Page 2 of [torn.pdf] cannot be copied, but its artifact exists: the
    request is answered with the url of the artifact. *)
Lemma cached_page_witness :
  res (PageRoute.POST (P := Toy.platform)
         (PageRoute.mkRequest (Some "/pdf/torn.pdf") (Some 2) None None) Toy.w_mended)
    = inr (PageRoute.PreProcessed "/pdf-pages/torn/page-2.pdf" 2) /\
  events (PageRoute.POST (P := Toy.platform)
            (PageRoute.mkRequest (Some "/pdf/torn.pdf") (Some 2) None None) Toy.w_mended)
    = [].
Proof.
  apply (cached_page_is_served_from_artifact (P := Toy.platform)
           (PageRoute.mkRequest (Some "/pdf/torn.pdf") (Some 2) None None) Toy.w_mended
           "/pdf/torn.pdf" (Toy.pages_of "ax") 2);
    try reflexivity; [by left|simpl; lia].
Defined.

(** Pages 1 to 3 of [book.pdf]: page 1 comes from its artifact, pages 2
    and 3 are extracted. *)
Lemma range_contents_witness :
  exists pages,
    res (Toy.fetch (Toy.book_request None (Some 1) (Some 3)))
      = inr (PageRoute.Range pages 3 1 3) /\
    events (Toy.fetch (Toy.book_request None (Some 1) (Some 3)))
      = [EvExtract 1; EvExtract 2].
Proof.
  destruct (range_response_contents (P := Toy.platform)
              (Toy.book_request None (Some 1) (Some 3)) Toy.w_split
              "/pdf/book.pdf" (Toy.pages_of "abc") 1 3)
    as (pages & Hres & _ & Hev); try reflexivity; try (simpl; lia).
  { intros p Hp _.
    assert (p = 1 \/ p = 2 \/ p = 3) as [->|[->| ->]] by lia; eexists; reflexivity. }
  exists pages. split; [exact Hres|exact Hev].
Defined.

(** Pages 1 to 2 of [torn.pdf]: page 2 has no artifact and cannot be
    copied, so there is no page list. *)
Lemma range_all_or_nothing_witness :
  res (PageRoute.POST (P := Toy.platform)
         (PageRoute.mkRequest (Some "/pdf/torn.pdf") None (Some 1) (Some 2)) Toy.w0)
  = inr (PageRoute.Failure 500 "Failed to extract page").
Proof.
  destruct (range_is_all_or_nothing (P := Toy.platform)
              (PageRoute.mkRequest (Some "/pdf/torn.pdf") None (Some 1) (Some 2)) Toy.w0
              "/pdf/torn.pdf" (Toy.pages_of "ax") 1 2)
    as [_ [_ H500]];
    [reflexivity|reflexivity|reflexivity|reflexivity|lia|lia|simpl; lia|].
  apply H500. exists 2. split; [lia|]. split; [reflexivity|]. eexists. reflexivity.
Defined.

(** [book.pdf] is reported to have 3 pages, and pages 2 to 5 are
    refused. *)
Lemma reported_count_witness :
  res (PageRoute.GET (P := Toy.platform) (Some "/pdf/book.pdf") Toy.w_split)
    = inr (PageRoute.Info 3) /\
  res (Toy.fetch (Toy.book_request None (Some 2) (Some 5)))
    = inr (PageRoute.Failure 400 "Invalid page range").
Proof.
  split; [reflexivity|].
  destruct (reported_count_bounds_page_requests (P := Toy.platform)
              (Toy.book_request None (Some 2) (Some 5)) Toy.w_split "/pdf/book.pdf" 3)
    as [Hrange _]; [reflexivity|reflexivity|].
  destruct (Hrange 2 5 eq_refl eq_refl) as [_ H]. apply H. lia.
Defined.

(** A start request for [book.pdf] over the record of an earlier job
    with two pages done: the record is replaced by a fresh one. *)
Lemma accepted_start_witness :
  fs Toy.w_two_done !! Toy.status_of "book" = Some (StatusJson Toy.two_done) /\
  fs (world (ProcessRoute.POST (P := Toy.platform) (Some "/pdf/book.pdf") Toy.w_two_done))
    !! Toy.status_of "book"
  = Some (StatusJson (mkJobStatus processing 0 0 (Some 1007) None None None)).
Proof.
  split; [reflexivity|].
  destruct (accepted_start_resets_status (P := Toy.platform)
              (Some "/pdf/book.pdf") Toy.w_two_done "book"
              (Some (ProcessRoute.mkJobArgs (Toy.pub ["pdf"; "book.pdf"])
                       (Toy.pages_dir "book") (Toy.status_of "book"))))
    as (url & _ & _ & _ & Hst & _); [reflexivity|].
  exact Hst.
Defined.

(** The status of [torn.pdf] after its start request. *)
Lemma status_request_witness :
  res (ProcessRoute.GET (P := Toy.platform) (Some "torn") (Toy.w_started "torn"))
    = inr (ProcessRoute.StatusBody Toy.fresh_status) /\
  world (ProcessRoute.GET (P := Toy.platform) (Some "torn") (Toy.w_started "torn"))
    = Toy.w_started "torn".
Proof.
  destruct (status_request_returns_stored_record (P := Toy.platform)
              "torn" (Toy.w_started "torn"))
    as (Hbody & _ & _ & Hworld & _); [discriminate|].
  split; [|exact Hworld]. apply Hbody. reflexivity.
Defined.

(** The job of [torn.pdf], asked for its status when the artifact of
    page 1 is written and the progress record of that page is not yet:
    the answer is the record written when the page count became
    known. *)
Lemma status_mid_job_witness :
  events (ProcessRoute.run_job (P := Toy.platform) (Some "/pdf/torn.pdf") Toy.w0)
  = Toy.torn_so_far ++ Toy.torn_to_come /\
  res (ProcessRoute.GET (P := Toy.platform) (Some "torn") Toy.w_midway)
  = inr (ProcessRoute.StatusBody
           (mkJobStatus processing 2 0 (Some 1000) (Some 1001) None None)).
Proof.
  assert (events (ProcessRoute.run_job (P := Toy.platform) (Some "/pdf/torn.pdf") Toy.w0)
          = Toy.torn_so_far ++ Toy.torn_to_come) as Hsplit by (vm_compute; reflexivity).
  split; [exact Hsplit|].
  destruct (status_request_sees_latest_record (P := Toy.platform)
              "/pdf/torn.pdf" Toy.w0 Toy.w_midway "torn"
              Toy.torn_so_far Toy.torn_to_come)
    as (_ & body & r & Hws & Hres);
    [reflexivity|discriminate|exact Hsplit|discriminate|reflexivity|].
  assert (r = mkJobStatus processing 2 0 (Some 1000) (Some 1001) None None) as <-;
    [|exact Hres].
  vm_compute in Hws.
  destruct body as [|r0 [|r1 [|r2 body]]]; try discriminate Hws.
  by injection Hws as _ <-.
Defined.

(** A start request for a document that is not stored. *)
Lemma refused_start_witness :
  ends_with_slash "/pdf/missing.pdf" = false /\
  res (ProcessRoute.POST (P := Toy.platform) (Some "/pdf/missing.pdf") Toy.w0)
  = inr (ProcessRoute.Failure 404 "PDF file not found", None) /\
  world (ProcessRoute.POST (P := Toy.platform) (Some "/pdf/missing.pdf") Toy.w0) = Toy.w0.
Proof.
  split; [reflexivity|].
  destruct (refused_start_spawns_no_job (P := Toy.platform)
              (Some "/pdf/missing.pdf") Toy.w0)
    as (_ & H404 & Hquiet); [intros url [= <-]; reflexivity|].
  split.
  - apply H404. split; [|done].
    exists "/pdf/missing.pdf". split; [reflexivity|]. split; [discriminate|reflexivity].
  - apply (Hquiet 404 "PDF file not found" None); [reflexivity|by right].
Defined.

(** A page request for a document that is not stored. *)
Lemma not_found_witness :
  ends_with_slash "/pdf/missing.pdf" = false /\
  res (PageRoute.POST (P := Toy.platform)
         (PageRoute.mkRequest (Some "/pdf/missing.pdf") (Some 1) None None) Toy.w0)
  = inr (PageRoute.Failure 404 "PDF file not found").
Proof.
  split; [reflexivity|].
  apply (not_found_iff_missing (P := Toy.platform)
           (PageRoute.mkRequest (Some "/pdf/missing.pdf") (Some 1) None None) Toy.w0
           "PDF file not found").
  - intros url [= <-]. reflexivity.
  - exists "/pdf/missing.pdf". split; [reflexivity|]. split; reflexivity.
Defined.

(** [book.pdf] has three pages. *)
Lemma page_count_witness :
  ends_with_slash "/pdf/book.pdf" = false /\
  res (PageRoute.GET (P := Toy.platform) (Some "/pdf/book.pdf") Toy.w0)
  = inr (PageRoute.Info 3).
Proof.
  split; [reflexivity|].
  apply (GET_reports_page_count (P := Toy.platform) (Some "/pdf/book.pdf") Toy.w0 3).
  - intros url [= <-]. reflexivity.
  - exists "/pdf/book.pdf", (Toy.pages_of "abc").
    split; [reflexivity|]. split; reflexivity.
Defined.

(** The job of [torn.pdf] leaves the artifact of page 1 and none for
    page 2. *)
Lemma job_artifacts_witness :
  fs (world (Toy.background "torn")) !! Toy.pub ["pdf-pages"; "torn"; "page-1.pdf"]
    = Some (Raw "a") /\
  fs (world (Toy.background "torn")) !! Toy.pub ["pdf-pages"; "torn"; "page-2.pdf"]
    = None.
Proof.
  split.
  - destruct (job_leaves_artifact_of_each_good_page (P := Toy.platform)
                (Toy.pub ["pdf"; "torn.pdf"]) (Toy.pages_dir "torn")
                (Toy.w_started "torn") Toy.fresh_status 1000 (Toy.pages_of "ax") 0)
      as [Hok _]; [reflexivity|reflexivity|reflexivity|reflexivity|simpl; lia|].
    destruct (Hok eq_refl) as (b & Hb & Hfs).
    assert (b = "a") as -> by (vm_compute in Hb; congruence). exact Hfs.
  - destruct (job_leaves_artifact_of_each_good_page (P := Toy.platform)
                (Toy.pub ["pdf"; "torn.pdf"]) (Toy.pages_dir "torn")
                (Toy.w_started "torn") Toy.fresh_status 1000 (Toy.pages_of "ax") 1)
      as [_ Hbad]; [reflexivity|reflexivity|reflexivity|reflexivity|simpl; lia|].
    exact (Hbad eq_refl).
Defined.

(** The job of [torn.pdf] leaves its source as it was. *)
Lemma job_frame_witness :
  fs (world (Toy.background "torn")) !! Toy.pub ["pdf"; "torn.pdf"] = Some (Raw "ax").
Proof.
  etransitivity;
    [apply (job_touches_only_its_files (P := Toy.platform)
              (ProcessRoute.mkJobArgs (Toy.pub ["pdf"; "torn.pdf"]) (Toy.pages_dir "torn")
                                      (Toy.status_of "torn"))
              (Toy.w_started "torn") (Toy.pub ["pdf"; "torn.pdf"]))
    |reflexivity].
  - discriminate.
  - intros k. cbn [ProcessRoute.job_pagesDir].
    rewrite join_regular by auto using page_file_name_no_slash, page_file_name_regular.
    discriminate.
Defined.

(** The job of [torn.pdf] completes, and its last page did not go
    through: [processedPages] stays below [totalPages]. *)
Lemma processed_below_total_witness :
  exists final,
    fs (world (Toy.background "torn")) !! Toy.status_of "torn" = Some (StatusJson final) /\
    status final = completed /\
    totalPages final = 2 /\
    processedPages final <> totalPages final.
Proof.
  destruct (processed_reaches_total_iff_last_page_ok (P := Toy.platform)
              (Toy.pub ["pdf"; "torn.pdf"]) (Toy.pages_dir "torn")
              (Toy.w_started "torn") Toy.fresh_status 1000 (Toy.pages_of "ax"))
    as (final & Hst & Hstatus & Htotal & Hiff); [reflexivity..|].
  exists final. split; [exact Hst|]. split; [exact Hstatus|]. split; [exact Htotal|].
  intros Heq. apply Hiff in Heq as [H|H]; vm_compute in H; discriminate.
Defined.


(** Split [book.pdf], then ask for page 2. *)
Lemma split_then_fetch_witness :
  res (PageRoute.POST (P := Toy.platform) (Toy.book_request (Some 2) None None)
         (world (ProcessRoute.run_job (P := Toy.platform) (Some "/pdf/book.pdf") Toy.w0)))
    = inr (PageRoute.PreProcessed "/pdf-pages/book/page-2.pdf" 2) /\
  events (PageRoute.POST (P := Toy.platform) (Toy.book_request (Some 2) None None)
            (world (ProcessRoute.run_job (P := Toy.platform) (Some "/pdf/book.pdf") Toy.w0)))
    = [].
Proof.
  destruct (split_then_fetch_hits_artifact (P := Toy.platform)
              "book" Toy.w0 "book" (Toy.pages_of "abc") 1)
    as (_ & _ & Hres & Hev);
    [reflexivity|reflexivity|repeat split; discriminate|reflexivity|reflexivity
    |reflexivity|simpl; lia|reflexivity|].
  split; [exact Hres|exact Hev].
Defined.

(** A document beside [public] is reached through the prefix. *)
Lemma pdf_prefix_witness :
  res (PageRoute.GET (P := Toy.platform) (Some "/pdf/../../ledger.pdf") Toy.w_outside)
  = inr (PageRoute.Info 4).
Proof.
  destruct (pdf_prefix_does_not_confine (P := Toy.platform)
              "ledger.pdf" Toy.w_outside (Toy.pages_of "abcd"))
    as (_ & _ & Hres);
    [reflexivity|reflexivity|repeat split; discriminate|reflexivity|].
  exact Hres.
Defined.

End MoreInstances.
